(** * pyasdf: the job ledger, the schedulers and the waveform store

    A shallow embedding of the processing core of pyasdf
    ([pyasdf/utils.py] and [pyasdf/asdf_data_set.py]) together with the
    properties of its natural-language specification.

    Conventions of the embedding.
    - A Python method that mutates [self] and may raise becomes a function
      [state -> outcome T * state]: the state component is the object after
      the call, also when the call raised (Python keeps the mutations made
      before the exception).
    - Python objects with identity (the [Job] instances) carry an explicit
      identity; their only mutable slot lives in a store keyed by that
      identity, so that every alias observes an update.
    - Dictionaries are [gmap]s, lists are lists, [str] is [string]. *)

From Stdlib Require Import Ascii String QArith Qround.
From stdpp Require Import gmap strings list fin_maps sorting.

(** ** Exceptions and outcomes *)

Inductive exn : Set :=
  | IndexError
  | KeyError
  | ValueError
  | TypeError
  | AttributeError
  | NotImplementedError
  | Empty    (* [queue.Empty] *)
  | H5Error  (* what h5py raises when HDF5 refuses an operation *)
  | RuntimeError
  | ImportError.

#[global] Instance exn_eq_dec : EqDecision exn.
Proof. solve_decision. Defined.

Inductive outcome (T : Type) : Type :=
  | Returned (v : T)
  | Raised (e : exn).
Arguments Returned {T} v.
Arguments Raised {T} e.


(** ** [utils.py]: [Job], [Worker] and [JobQueueHelper] *)

Module JobQueue.
Section job_queue.
(** [A] is the type of job arguments (a (station, tag) pair when the
    master builds the queue), [R] the type of the non-[None] results. *)
Context {A R : Type} `{EqDecision A}.

(** [class Job]: [job_id] is the identity of the Python object (no
    [__eq__] is defined, so [==] on jobs is identity); [arguments] is
    never reassigned.  The [result] slot is kept in [job_result] below. *)
Record Job : Type := mkJob { job_id : nat; arguments : A }.

#[global] Instance Job_eq_dec : EqDecision Job.
Proof. solve_decision. Defined.

(** [Worker = namedtuple("Worker", ["active_jobs", "completed_jobs_count"])];
    the count is the single cell of the list [[0]]. *)
Record Worker : Type :=
  mkWorker { active_jobs : list Job; completed_jobs_count : nat }.

(** The fields of [JobQueueHelper] ([_starttime] only feeds [__str__] and
    is left out).  [job_result] maps the identity of a job to its
    [result] slot; an absent key is Python's [None]. *)
Record JobQueueHelper : Type := mkQueue {
  _all_jobs : list Job;
  _in_queue : list Job;
  _finished_jobs : list Job;
  _poison_pills_received : nat;
  _workers : gmap nat Worker;
  job_result : gmap nat R
}.

Definition set_in_queue (l : list Job) (q : JobQueueHelper) :=
  mkQueue (_all_jobs q) l (_finished_jobs q) (_poison_pills_received q)
          (_workers q) (job_result q).
Definition set_finished_jobs (l : list Job) (q : JobQueueHelper) :=
  mkQueue (_all_jobs q) (_in_queue q) l (_poison_pills_received q)
          (_workers q) (job_result q).
Definition set_poison_pills (n : nat) (q : JobQueueHelper) :=
  mkQueue (_all_jobs q) (_in_queue q) (_finished_jobs q) n
          (_workers q) (job_result q).
Definition set_workers (m : gmap nat Worker) (q : JobQueueHelper) :=
  mkQueue (_all_jobs q) (_in_queue q) (_finished_jobs q)
          (_poison_pills_received q) m (job_result q).
Definition set_job_result (m : gmap nat R) (q : JobQueueHelper) :=
  mkQueue (_all_jobs q) (_in_queue q) (_finished_jobs q)
          (_poison_pills_received q) (_workers q) m.

(** [[Job(_i) for _i in jobs]]: the i-th object gets identity [i]. *)
Definition make_jobs (jobs : list A) : list Job := imap mkJob jobs.

(** [{_i: Worker([], [0]) for _i in worker_names}]: a later duplicate of
    a name overwrites the earlier entry. *)
Definition make_workers (worker_names : list nat) : gmap nat Worker :=
  foldl (λ m w, <[w := mkWorker [] 0]> m) ∅ worker_names.

(** [JobQueueHelper.__init__]. *)
Definition init (jobs : list A) (worker_names : list nat) : JobQueueHelper :=
  let all := make_jobs jobs in
  mkQueue all all [] 0 (make_workers worker_names) ∅.

(** [poison_pill_received]: the counter is incremented; the method takes
    no worker. *)
Definition poison_pill_received (q : JobQueueHelper) : JobQueueHelper :=
  set_poison_pills (_poison_pills_received q + 1) q.

(** [get_job_for_worker]: [pop(0)] runs before the worker is looked up. *)
Definition get_job_for_worker (worker_name : nat) (q : JobQueueHelper)
  : outcome A * JobQueueHelper :=
  match _in_queue q with
  | [] => (Raised IndexError, q)
  | job :: rest =>
      let q1 := set_in_queue rest q in
      match _workers q1 !! worker_name with
      | None => (Raised KeyError, q1)
      | Some w =>
          let w' := mkWorker (active_jobs w ++ [job]) (completed_jobs_count w) in
          (Returned (arguments job),
           set_workers (<[worker_name := w']> (_workers q1)) q1)
      end
  end.

(** [list.remove(x)]: drops the first element equal to [x]; [None] stands
    for the [ValueError] of an absent element. *)
Fixpoint list_remove (x : Job) (l : list Job) : option (list Job) :=
  match l with
  | [] => None
  | y :: l' =>
      if decide (y = x) then Some l'
      else (y ::.) <$> list_remove x l'
  end.

(** [job.result = result]. *)
Definition store_result (job : Job) (result : option R) (m : gmap nat R)
  : gmap nat R :=
  match result with
  | Some r => <[job_id job := r]> m
  | None => delete (job_id job) m
  end.

(** The list comprehension of [received_job_from_worker]. *)
Definition matching_jobs (args : A) (w : Worker) : list Job :=
  filter (λ j, arguments j = args) (active_jobs w).

(** [received_job_from_worker]. *)
Definition received_job_from_worker (args : A) (result : option R)
    (worker_name : nat) (q : JobQueueHelper) : outcome unit * JobQueueHelper :=
  match _workers q !! worker_name with
  | None => (Raised KeyError, q)
  | Some w =>
      match matching_jobs args w with
      | [] => (Raised ValueError, q)
      | _ :: _ :: _ => (Raised ValueError, q)
      | [job] =>
          let q1 := set_job_result (store_result job result (job_result q)) q in
          match list_remove job (active_jobs w) with
          | None => (Raised ValueError, q1)
          | Some act =>
              let w' := mkWorker act (completed_jobs_count w + 1) in
              let q2 := set_workers (<[worker_name := w']> (_workers q1)) q1 in
              (Returned tt,
               set_finished_jobs (_finished_jobs q2 ++ [job]) q2)
          end
      end
  end.

(** The properties. *)
Definition queue_empty (q : JobQueueHelper) : bool :=
  bool_decide (_in_queue q = []).
Definition finished (q : JobQueueHelper) : nat := length (_finished_jobs q).
Definition all_done (q : JobQueueHelper) : bool :=
  bool_decide (length (_all_jobs q) = length (_finished_jobs q)).
Definition all_poison_pills_received (q : JobQueueHelper) : bool :=
  bool_decide (size (_workers q) = _poison_pills_received q).

(** The [result] attribute of a job, read through any alias. *)
Definition result_of (q : JobQueueHelper) (job : Job) : option R :=
  job_result q !! job_id job.

End job_queue.
Arguments Job : clear implicits.
Arguments Worker : clear implicits.
Arguments JobQueueHelper : clear implicits.
End JobQueue.

(** ** The message bus vocabulary ([MSG_TAGS], [POISON_PILL]) *)

(** Modelled from the spec: the message tags, the keys of the table
    [MSG_TAGS] of [pyasdf/header.py], as the specification of the message
    bus enumerates them. *)
Inductive msg_tag : Set :=
  | MASTER_FORCES_WRITE
  | MASTER_SENDS_ITEM
  | ALL_DONE
  | WORKER_REQUESTS_ITEM
  | WORKER_REQUESTS_WRITE
  | WORKER_DONE_WITH_ITEM
  | POISON_PILL_RECEIVED.

#[global] Instance msg_tag_eq_dec : EqDecision msg_tag.
Proof. solve_decision. Defined.

(** A job is a (station, tag) pair. *)
Definition station_tag : Type := string * string.

(** What travels over the bus: [None], a job, the sentinel, or the pair
    [(key, str(value))] of a finished job.  Modelled from the spec:
    [POISON_PILL], a constant of [pyasdf/header.py], is a value distinct
    from all job arguments. *)
Inductive payload : Type :=
  | PNone
  | PItem (st : station_tag)
  | POISON_PILL
  | PDone (st : station_tag) (result : string).

#[global] Instance payload_eq_dec : EqDecision payload.
Proof. solve_decision. Defined.

(** A message handed to [_send_mpi(obj, dest, tag)]. *)
Record sent : Type := mkSent { s_obj : payload; s_dest : nat; s_tag : msg_tag }.

(** ** [_dispatch_processing_mpi_master_node] *)

Module Master.
Import JobQueue.

Record state : Type := mkMaster {
  jobs : JobQueueHelper station_tag string;
  workers_requesting_write : list nat
}.

(** [range(1, self.mpi.comm.size)]. *)
Definition worker_nodes (size : nat) : list nat := seq 1 (size - 1).

Definition start (station_tags : list station_tag) (size : nat) : state :=
  mkMaster (init station_tags (worker_nodes size)) [].

(** [w >= 0.5 * N] for Python integers [w] and [N].  The product
    [0.5 * N] is exact in binary64 for every [|N| <= 2^53], and Python
    compares an [int] with a [float] by value, so in that range the
    test is the comparison of rationals; beyond it [N] is rounded
    before it is halved and the definition is not the code's test. *)
Definition half_fleet_waiting (w N : Z) : bool :=
  Qle_bool ((1 # 2) * inject_Z N) (inject_Z w).

(** The condition of the [if] that opens the loop body. *)
Definition enters_collective (size : nat) (m : state) : bool :=
  half_fleet_waiting (Z.of_nat (length (workers_requesting_write m)))
                     (Z.of_nat size)
  || (negb (length (workers_requesting_write m) =? 0)
      && all_poison_pills_received (jobs m)).

(** The dispatch on the tag of a received message. *)
Definition dispatch (source : nat) (tag : msg_tag) (msg : payload) (m : state)
  : outcome (list sent) * state :=
  match tag with
  | WORKER_REQUESTS_ITEM =>
      if queue_empty (jobs m)
      then (Returned [mkSent POISON_PILL source MASTER_SENDS_ITEM], m)
      else
        match get_job_for_worker source (jobs m) with
        | (Returned st, q) =>
            (Returned [mkSent (PItem st) source MASTER_SENDS_ITEM],
             mkMaster q (workers_requesting_write m))
        | (Raised e, q) => (Raised e, mkMaster q (workers_requesting_write m))
        end
  | WORKER_DONE_WITH_ITEM =>
      match msg with
      | PDone st result =>
          match received_job_from_worker st (Some result) source (jobs m) with
          | (Returned _, q) =>
              (Returned [], mkMaster q (workers_requesting_write m))
          | (Raised e, q) => (Raised e, mkMaster q (workers_requesting_write m))
          end
      | PItem _ =>
          (* the two names unpack as [station_tag, result]; no job has a
             name as its arguments *)
          match _workers (jobs m) !! source with
          | None => (Raised KeyError, m)
          | Some _ => (Raised ValueError, m)
          end
      | POISON_PILL => (Raised ValueError, m)
      | PNone => (Raised TypeError, m)
      end
  | WORKER_REQUESTS_WRITE =>
      (Returned [], mkMaster (jobs m) (workers_requesting_write m ++ [source]))
  | POISON_PILL_RECEIVED =>
      (Returned [], mkMaster (poison_pill_received (jobs m))
                             (workers_requesting_write m))
  | _ => (Raised NotImplementedError, m)
  end.

(** One pass through the body of [while not jobs.all_done]: either the
    collective phase is started (the [MASTER_FORCES_WRITE] broadcast, then
    [_sync_metadata], then the list of waiting writers is reset), or the
    next message is received and dispatched. *)
Inductive tick : Type :=
  | CollectivePhase (forced : list sent)
  | Dispatched (o : outcome (list sent)).

Definition loop_body (size : nat) (incoming : nat * msg_tag * payload)
    (m : state) : tick * state :=
  if enters_collective size m then
    (CollectivePhase
       ((λ rank, mkSent PNone rank MASTER_FORCES_WRITE) <$> worker_nodes size),
     mkMaster (jobs m) [])
  else
    let '(source, tag, msg) := incoming in
    let '(o, m') := dispatch source tag msg m in
    (Dispatched o, m').
End Master.

(** ** Python string helpers *)

Module PyStr.
Local Open Scope string_scope.

(** [str.isspace] on the code points below 256. *)
Definition is_space (c : ascii) : bool :=
  let n := nat_of_ascii c in
  (((9 <=? n) && (n <=? 13)) || ((28 <=? n) && (n <=? 32))
   || (n =? 133) || (n =? 160))%nat.

Fixpoint lstrip (s : string) : string :=
  match s with
  | String c s' => if is_space c then lstrip s' else s
  | EmptyString => EmptyString
  end.

Fixpoint rstrip (s : string) : string :=
  match s with
  | EmptyString => EmptyString
  | String c s' =>
      let r := rstrip s' in
      if is_space c && String.eqb r "" then "" else String c r
  end.

(** [str.strip()]. *)
Definition strip (s : string) : string := rstrip (lstrip s).

(** [str.lower()] on the code points below 256: [A-Z] and the Latin-1
    capitals (0xC0-0xDE without the multiplication sign) move up by 32. *)
Definition lower_char (c : ascii) : ascii :=
  let n := nat_of_ascii c in
  if (((65 <=? n) && (n <=? 90))
      || ((192 <=? n) && (n <=? 222) && negb (n =? 215)))%nat
  then ascii_of_nat (n + 32) else c.

Fixpoint lower (s : string) : string :=
  match s with
  | EmptyString => EmptyString
  | String c s' => String (lower_char c) (lower s')
  end.

(** [s.split("__")]: the separator is searched from the left, matches do
    not overlap; [cur] holds the characters of the current field in
    reverse. *)
Fixpoint split_dunder_aux (cur : list ascii) (s : string) : list string :=
  match s with
  | EmptyString => [string_of_list_ascii (rev cur)]
  | String "_" (String "_" rest) =>
      string_of_list_ascii (rev cur) :: split_dunder_aux [] rest
  | String c rest => split_dunder_aux (c :: cur) rest
  end.

Definition split_dunder (s : string) : list string := split_dunder_aux [] s.

(** [s.split("__")[-1]]: [split] never returns an empty list. *)
Definition last_field (s : string) : string :=
  List.last (split_dunder s) "".
End PyStr.

(** ** The waveform part of [ASDFDataSet] *)

Module Store.
Local Open Scope string_scope.

(** Floating-point numbers (sampling rates, samples) are only copied
    between traces and datasets; they are carried as their binary64 bit
    pattern. *)
Definition pyfloat : Type := Z.

Inductive attr_value : Type :=
  | AInt (n : Z)
  | AFloat (x : pyfloat)
  | ABytes (s : string).

#[global] Instance attr_value_eq_dec : EqDecision attr_value.
Proof. solve_decision. Defined.

(** [info["dataset_creation_params"]]; [maxshape] is always [(None,)]. *)
Record creation_params : Type := mkParams {
  cp_name : string;
  cp_shape : nat;
  cp_dtype : string;
  cp_compression : option string;
  cp_compression_opts : option Z;
  cp_fletcher32 : bool
}.

#[global] Instance creation_params_eq_dec : EqDecision creation_params.
Proof. solve_decision. Defined.

(** The dictionary returned by [_add_trace_get_collective_information]. *)
Record Info : Type := mkInfo {
  station_name : string;
  data_name : string;
  dataset_creation_params : creation_params;
  dataset_attrs : gmap string attr_value
}.

#[global] Instance Info_eq_dec : EqDecision Info.
Proof. solve_decision. Defined.

(** An [obspy.Trace] as far as the store reads it.  [starttime] and
    [endtime] hold the output of [strftime("%Y-%m-%dT%H:%M:%S")],
    [starttime_ns] the value of [int(round(timestamp * 1.0E9))];
    [asdf] holds the ids found under [trace.stats.asdf]; [stats_info] is
    the attribute [trace.stats.__info] ([None] while it was never set,
    [Some None] once Python's [None] was assigned). *)
Record Trace : Type := mkTrace {
  network : string;
  station : string;
  location : string;
  channel : string;
  starttime : string;
  endtime : string;
  starttime_ns : Z;
  sampling_rate : pyfloat;
  dtype : string;
  data : list pyfloat;
  asdf : gmap string string;
  stats_info : option (option Info)
}.

Definition set_stats_info (i : option Info) (t : Trace) : Trace :=
  mkTrace (network t) (station t) (location t) (channel t) (starttime t)
          (endtime t) (starttime_ns t) (sampling_rate t) (dtype t) (data t)
          (asdf t) (Some i).

(** [trace.stats.npts]. *)
Definition npts (t : Trace) : nat := length (data t).

(** An [obspy.Stream]. *)
Definition Stream : Type := list Trace.

(** An HDF5 dataset: how it was created, its attributes, its values. *)
Record Dataset : Type := mkDataset {
  ds_params : creation_params;
  ds_attrs : gmap string attr_value;
  ds_value : list pyfloat
}.

(** The part of an open [ASDFDataSet] that the waveform functions touch.
    [waveform_group] is the HDF5 group [/Waveforms]: station group by
    name, then dataset by name; every name is a single path component,
    so that the path ["%s/%s" % (station_name, data_name)] resolves to
    the dataset [data_name] of the group [station_name].
    [compression] is [self.__compression], [mpi] the truth value of
    [self.mpi]; [warnings] collects the messages of [warnings.warn]. *)
Record ASDFDataSet : Type := mkDataSet {
  waveform_group : gmap string (gmap string Dataset);
  compression : option string * option Z;
  mpi : bool;
  warnings : list string
}.

Definition set_waveform_group (g : gmap string (gmap string Dataset))
    (ds : ASDFDataSet) : ASDFDataSet :=
  mkDataSet g (compression ds) (mpi ds) (warnings ds).
Definition warn (msg : string) (ds : ASDFDataSet) : ASDFDataSet :=
  mkDataSet (waveform_group ds) (compression ds) (mpi ds) (warnings ds ++ [msg]).

(** [group_name in self._waveform_group] for
    [group_name = station_name + "/" + data_name]. *)
Definition path_exists (station_name data_name : string) (ds : ASDFDataSet)
  : bool :=
  match waveform_group ds !! station_name with
  | Some g => bool_decide (is_Some (g !! data_name))
  | None => false
  end.

(** [_zeropad_ascii_string]. *)
Definition _zeropad_ascii_string (text : string) : attr_value :=
  ABytes (text ++ String (ascii_of_nat 0) "").

Definition trace_station_name (t : Trace) : string :=
  network t ++ "." ++ station t.

Definition trace_data_name (t : Trace) (tag : string) : string :=
  network t ++ "." ++ station t ++ "." ++ location t ++ "." ++ channel t
  ++ "__" ++ starttime t ++ "__" ++ endtime t ++ "__" ++ tag.

(** The four optional ids as passed on by the caller: [None] is Python's
    [None]; a falsy value that is not [None] is [Some ""]. *)
Record ids : Type := mkIds {
  event_id : option string;
  origin_id : option string;
  magnitude_id : option string;
  focal_mechanism_id : option string
}.

Definition no_ids : ids := mkIds None None None None.

Definition ids_items (i : ids) : list (string * option string) :=
  [("event_id", event_id i); ("origin_id", origin_id i);
   ("magnitude_id", magnitude_id i);
   ("focal_mechanism_id", focal_mechanism_id i)].

(** One round of the loop over [ids.items()]. *)
Definition add_id (t : Trace) (attrs : gmap string attr_value)
    (item : string * option string) : gmap string attr_value :=
  let '(name, obj) := item in
  let obj :=
    match obj with
    | None => asdf t !! name
    | Some _ => obj
    end in
  match obj with
  | Some s => if String.eqb s "" then attrs
              else <[name := _zeropad_ascii_string s]> attrs
  | None => attrs
  end.

(** [_add_trace_get_collective_information]: [None] (after a warning)
    when the path is already in the file. *)
Definition _add_trace_get_collective_information (t : Trace) (tag : string)
    (i : ids) (ds : ASDFDataSet) : option Info * ASDFDataSet :=
  let station_name := trace_station_name t in
  let data_name := trace_data_name t tag in
  let group_name := station_name ++ "/" ++ data_name in
  if path_exists station_name data_name ds then
    (None,
     warn ("Data '" ++ group_name
           ++ "' already exists in file. Will not be added!") ds)
  else
    let fletcher32 := negb (mpi ds) in
    let attrs : gmap string attr_value :=
      <["sampling_rate" := AFloat (sampling_rate t)]>
        (<["starttime" := AInt (starttime_ns t)]> ∅) in
    (Some (mkInfo station_name group_name
             (mkParams data_name (npts t) (dtype t) (compression ds).1
                       (compression ds).2 fletcher32)
             (foldl (add_id t) attrs (ids_items i))),
     ds).

(** [_add_trace_write_collective_information].  [create_dataset] is
    h5py's: it refuses a name that the group already holds, and the new
    dataset is filled with zeros.  The file is kept as a map from
    station names to maps from data names to datasets, so a name stands
    for one path component: h5py resolves a name that is ["."] or holds
    ["/"] as a path (the name ["."] of a trace with empty network and
    station codes is the waveform group itself), which this map does
    not follow. *)
Definition _add_trace_write_collective_information (info : Info)
    (ds : ASDFDataSet) : outcome unit * ASDFDataSet :=
  let ds1 :=
    match waveform_group ds !! station_name info with
    | Some _ => ds
    | None =>
        set_waveform_group (<[station_name info := ∅]> (waveform_group ds)) ds
    end in
  let group := default ∅ (waveform_group ds1 !! station_name info) in
  let p := dataset_creation_params info in
  match group !! cp_name p with
  | Some _ => (Raised H5Error, ds1)
  | None =>
      let d := mkDataset p (dataset_attrs info) (replicate (cp_shape p) 0%Z) in
      (Returned tt,
       set_waveform_group
         (<[station_name info := <[cp_name p := d]> group]> (waveform_group ds1))
         ds1)
  end.

(** [_add_trace_write_independent_information]:
    [self._waveform_group[info["data_name"]][:] = trace.data].  The
    argument is [None] when Python's [None] is passed for [info]; the
    path [info["data_name"]] resolves to the dataset
    [dataset_creation_params["name"]] of the group [station_name].  A
    single sample is broadcast, any other length mismatch is refused. *)
Definition _add_trace_write_independent_information (info : option Info)
    (t : Trace) (ds : ASDFDataSet) : outcome unit * ASDFDataSet :=
  match info with
  | None => (Raised TypeError, ds)
  | Some info =>
      let name := cp_name (dataset_creation_params info) in
      match waveform_group ds !! station_name info with
      | None => (Raised KeyError, ds)
      | Some g =>
          match g !! name with
          | None => (Raised KeyError, ds)
          | Some d =>
              let n := length (ds_value d) in
              let write v :=
                (Returned tt,
                 set_waveform_group
                   (<[station_name info :=
                        <[name := mkDataset (ds_params d) (ds_attrs d) v]> g]>
                      (waveform_group ds)) ds) in
              if decide (length (data t) = n) then write (data t)
              else match data t with
                   | [x] => write (replicate n x)
                   | _ => (Raised TypeError, ds)
                   end
          end
      end
  end.

(** An id argument of [add_waveforms]: [None]; another falsy value; an
    instance of the event class the parameter is named after; a
    [ResourceIdentifier]; or anything else, represented by what
    [str(ResourceIdentifier(x))] gives ([None] when the constructor
    raises). *)
Inductive id_arg : Type :=
  | IdNone
  | IdFalsy
  | IdObject (rid : string)
  | IdResource (rid : string)
  | IdOther (converted : option string).

#[global] Instance id_arg_eq_dec : EqDecision id_arg.
Proof. solve_decision. Defined.

(** One of the four blocks "Extract the event_id from the different
    possibilities". *)
Definition extract_id (a : id_arg) : outcome (option string) :=
  match a with
  | IdNone => Returned None
  | IdFalsy => Returned (Some "")
  | IdObject rid => Returned (Some rid)
  | IdResource rid => Returned (Some rid)
  | IdOther (Some rid) => Returned (Some rid)
  | IdOther None => Raised TypeError
  end.

(** The [waveform] argument: a trace, a stream, or anything else,
    represented by the outcome of [obspy.read(waveform)]. *)
Inductive waveform_arg : Type :=
  | WTrace (t : Trace)
  | WStream (st : Stream)
  | WOther (read : outcome Stream).

(** The loop "Actually add the data". *)
Fixpoint add_traces (waveform : list Trace) (tag : string) (i : ids)
    (ds : ASDFDataSet) : outcome unit * ASDFDataSet :=
  match waveform with
  | [] => (Returned tt, ds)
  | trace :: rest =>
      match _add_trace_get_collective_information trace tag i ds with
      | (None, ds1) => add_traces rest tag i ds1
      | (Some info, ds1) =>
          match _add_trace_write_collective_information info ds1 with
          | (Raised e, ds2) => (Raised e, ds2)
          | (Returned _, ds2) =>
              match _add_trace_write_independent_information
                      (Some info) trace ds2 with
              | (Raised e, ds3) => (Raised e, ds3)
              | (Returned _, ds3) => add_traces rest tag i ds3
              end
          end
      end
  end.

(** [add_waveforms]. *)
Definition add_waveforms (waveform : waveform_arg) (tag : string)
    (event_id origin_id magnitude_id focal_mechanism_id : id_arg)
    (ds : ASDFDataSet) : outcome unit * ASDFDataSet :=
  match extract_id event_id with
  | Raised e => (Raised e, ds)
  | Returned event_id =>
  match extract_id origin_id with
  | Raised e => (Raised e, ds)
  | Returned origin_id =>
  match extract_id magnitude_id with
  | Raised e => (Raised e, ds)
  | Returned magnitude_id =>
  match extract_id focal_mechanism_id with
  | Raised e => (Raised e, ds)
  | Returned focal_mechanism_id =>
      let tag := PyStr.strip tag in
      if String.eqb (PyStr.lower tag) "stationxml" then (Raised ValueError, ds)
      else
        let waveform :=
          match waveform with
          | WTrace t => Returned [t]
          | WStream st => Returned st
          | WOther read => read
          end in
        match waveform with
        | Raised e => (Raised e, ds)
        | Returned traces =>
            add_traces traces tag
              (mkIds event_id origin_id magnitude_id focal_mechanism_id) ds
        end
  end end end end.
End Store.

(** ** [_dispatch_processing_mpi_worker_node] and [_sync_metadata] *)

Module Worker.
Import Store.

(** The dictionary [worker_state]. *)
Record flags : Type := mkFlags {
  poison_pill_received : bool;
  waiting_for_write : bool;
  waiting_for_item : bool
}.

(** What the worker prints. *)
Inductive log_entry : Type :=
  | ErrorDuringProcessing (e : exn)
        (* "Error during processing function. Will be skipped: ..." *)
  | ShuttingDown.

(** A worker rank: its [StreamBuffer], its flags, the messages from the
    master that it has not looked at yet, the messages it has sent, what
    it printed, and the output file. *)
Record state : Type := mkState {
  stream_buffer : gmap station_tag Stream;
  worker_state : flags;
  inbox : list (msg_tag * payload);
  outbox : list sent;
  log : list log_entry;
  output_dataset : ASDFDataSet
}.

Definition set_buffer (b : gmap station_tag Stream) (w : state) : state :=
  mkState b (worker_state w) (inbox w) (outbox w) (log w) (output_dataset w).
Definition set_flags (f : flags) (w : state) : state :=
  mkState (stream_buffer w) f (inbox w) (outbox w) (log w) (output_dataset w).
Definition set_inbox (i : list (msg_tag * payload)) (w : state) : state :=
  mkState (stream_buffer w) (worker_state w) i (outbox w) (log w)
          (output_dataset w).
Definition set_output (ds : ASDFDataSet) (w : state) : state :=
  mkState (stream_buffer w) (worker_state w) (inbox w) (outbox w) (log w) ds.
Definition print (e : log_entry) (w : state) : state :=
  mkState (stream_buffer w) (worker_state w) (inbox w) (outbox w)
          (log w ++ [e]) (output_dataset w).

(** [_send_mpi(obj, 0, tag, blocking=False)]. *)
Definition _send_mpi (obj : payload) (tag : msg_tag) (w : state) : state :=
  mkState (stream_buffer w) (worker_state w) (inbox w)
          (outbox w ++ [mkSent obj 0 tag]) (log w) (output_dataset w).

(** [_get_msg(0, tag)]: the oldest waiting message with that tag is
    received, if there is one. *)
Fixpoint take_msg (tag : msg_tag) (l : list (msg_tag * payload))
  : option payload * list (msg_tag * payload) :=
  match l with
  | [] => (None, [])
  | (t, p) :: l' =>
      if decide (t = tag) then (Some p, l')
      else let '(r, l'') := take_msg tag l' in (r, (t, p) :: l'')
  end.

Definition _get_msg (tag : msg_tag) (w : state) : option payload * state :=
  let '(r, i) := take_msg tag (inbox w) in (r, set_inbox i w).

Definition start (ds : ASDFDataSet) : state :=
  mkState ∅ (mkFlags false false false) [] [] [] ds.

Section worker.
(** The user's function applied to [(stream, inv)]: the stream object
    as the call leaves it, and what the call returned or raised. *)
Variable process_function :
  Stream → option (list Z) → Stream * outcome (option Stream).
(** [self.get_data_for_tag] on the input file. *)
Variable get_data_for_tag :
  string → string → outcome (Stream * option (list Z)).
Variable tag_map : gmap string string.
(** [stream_buffer.get_size() >= MAX_MEMORY_PER_WORKER_IN_MB * 1024 ** 2]. *)
Variable buffer_full : gmap station_tag Stream → bool.
(** [str(stream)]. *)
Variable str_stream : Stream → string.

(** The inner loop of the first half of [_sync_metadata]: every trace
    of a stream gets its info, which is also appended to [sendobj].
    [tag_map[key[1]]] is looked up once for every trace, so a stream
    without traces looks nothing up. *)
Fixpoint describe_stream (key_tag : string) (st : Stream)
    (ds : ASDFDataSet)
  : outcome (Stream * list (option Info)) * ASDFDataSet :=
  match st with
  | [] => (Returned ([], []), ds)
  | trace :: rest =>
      match tag_map !! key_tag with
      | None => (Raised KeyError, ds)
      | Some out_tag =>
          let '(info, ds1) :=
            _add_trace_get_collective_information trace out_tag no_ids ds in
          match describe_stream key_tag rest ds1 with
          | (Returned (rest', infos), ds2) =>
              (Returned (set_stats_info info trace :: rest', info :: infos),
               ds2)
          | (Raised e, ds2) => (Raised e, ds2)
          end
      end
  end.

Fixpoint describe_buffer (items : list (station_tag * Stream))
    (ds : ASDFDataSet)
  : outcome (list (station_tag * Stream) * list (option Info)) * ASDFDataSet :=
  match items with
  | [] => (Returned ([], []), ds)
  | (key, st) :: rest =>
      match describe_stream key.2 st ds with
      | (Raised e, ds1) => (Raised e, ds1)
      | (Returned (st', infos), ds1) =>
          match describe_buffer rest ds1 with
          | (Returned (rest', infos'), ds2) =>
              (Returned ((key, st') :: rest', infos ++ infos'), ds2)
          | (Raised e, ds2) => (Raised e, ds2)
          end
      end
  end.

(** "Write collective part": the gathered infos without the [None]s. *)
Fixpoint write_collective (infos : list Info) (ds : ASDFDataSet)
  : outcome unit * ASDFDataSet :=
  match infos with
  | [] => (Returned tt, ds)
  | info :: rest =>
      match _add_trace_write_collective_information info ds with
      | (Returned _, ds1) => write_collective rest ds1
      | (Raised e, ds1) => (Raised e, ds1)
      end
  end.

(** [_sync_metadata] on a worker rank.  [lower] and [higher] are the
    contributions to [allgather] of the ranks below and above this
    one (the master contributes [[None]]). *)
Definition _sync_metadata (lower higher : list (list (option Info)))
    (w : state) : outcome unit * state :=
  match describe_buffer (map_to_list (stream_buffer w)) (output_dataset w) with
  | (Raised e, ds) => (Raised e, set_output ds w)
  | (Returned (items, sendobj), ds) =>
      let w1 := set_buffer (list_to_map items) (set_output ds w) in
      let data := lower ++ [sendobj] ++ higher in
      let trace_info := omap id (concat data) in
      match write_collective trace_info ds with
      | (Raised e, ds') => (Raised e, set_output ds' w1)
      | (Returned _, ds') => (Returned tt, set_output ds' w1)
      end
  end.

(** The loop over the traces of one buffered stream after the
    synchronisation. *)
Fixpoint write_stream (st : Stream) (ds : ASDFDataSet)
  : outcome unit * ASDFDataSet :=
  match st with
  | [] => (Returned tt, ds)
  | trace :: rest =>
      match stats_info trace with
      | None => (Raised AttributeError, ds)
      | Some info =>
          match _add_trace_write_independent_information info trace ds with
          | (Returned _, ds1) => write_stream rest ds1
          | (Raised e, ds1) => (Raised e, ds1)
          end
      end
  end.

(** The loop over [self.stream_buffer.items()]. *)
Fixpoint flush_items (items : list (station_tag * Stream)) (w : state)
  : outcome unit * state :=
  match items with
  | [] => (Returned tt, w)
  | (key, value) :: rest =>
      match write_stream value (output_dataset w) with
      | (Raised e, ds) => (Raised e, set_output ds w)
      | (Returned _, ds) =>
          flush_items rest
            (_send_mpi (PDone key (str_stream value)) WORKER_DONE_WITH_ITEM
                       (set_output ds w))
      end
  end.

(** The branch "Check if master requested a write". *)
Definition forced_write (lower higher : list (list (option Info)))
    (w : state) : outcome unit * state :=
  match _sync_metadata lower higher w with
  | (Raised e, w1) => (Raised e, w1)
  | (Returned _, w1) =>
      match flush_items (map_to_list (stream_buffer w1)) w1 with
      | (Raised e, w2) => (Raised e, w2)
      | (Returned _, w2) =>
          let f := worker_state w2 in
          (Returned tt,
           set_flags (mkFlags (poison_pill_received f) false
                              (waiting_for_item f))
                     (set_buffer ∅ w2))
      end
  end.

(** "Otherwise process the data": a job has arrived. *)
Definition process_item (st : station_tag) (w : state)
  : outcome unit * state :=
  match get_data_for_tag st.1 st.2 with
  | Raised e => (Raised e, w)
  | Returned (stream, inv) =>
      let '(stream, r) := process_function stream inv in
      let w1 :=
        match r with
        | Raised e => print (ErrorDuringProcessing e) w
        | Returned _ => w
        end in
      let w2 := set_buffer (<[st := stream]> (stream_buffer w1)) w1 in
      if buffer_full (stream_buffer w2) then
        let f := worker_state w2 in
        (Returned tt,
         set_flags (mkFlags (poison_pill_received f) true
                            (waiting_for_item f))
                   (_send_mpi PNone WORKER_REQUESTS_WRITE w2))
      else (Returned tt, w2)
  end.

(** The part of the loop body that follows the write check. *)
Definition request_or_receive (w : state) : outcome unit * state :=
  let f := worker_state w in
  if waiting_for_write f then (Returned tt, w)
  else if poison_pill_received f then (Returned tt, w)
  else if negb (waiting_for_item f) then
    (Returned tt,
     set_flags (mkFlags (poison_pill_received f) (waiting_for_write f) true)
               (_send_mpi PNone WORKER_REQUESTS_ITEM w))
  else
    match _get_msg MASTER_SENDS_ITEM w with
    | (None, w1) => (Returned tt, w1)
    | (Some msg, w1) =>
        let f1 := mkFlags (poison_pill_received f) (waiting_for_write f) false in
        let w2 := set_flags f1 w1 in
        match msg with
        | POISON_PILL =>
            let w3 :=
              if decide (stream_buffer w2 = ∅) then w2
              else set_flags (mkFlags (poison_pill_received f1) true
                                      (waiting_for_item f1))
                             (_send_mpi PNone WORKER_REQUESTS_WRITE w2) in
            let f3 := worker_state w3 in
            (Returned tt,
             _send_mpi PNone POISON_PILL_RECEIVED
               (set_flags (mkFlags true (waiting_for_write f3)
                                   (waiting_for_item f3)) w3))
        | PItem st => process_item st w2
        | _ => (Raised TypeError, w2)
        end
    end.

(** One pass through the body of [while not self._get_msg(0, "ALL_DONE")]. *)
Definition loop_body (lower higher : list (list (option Info)))
    (w : state) : outcome unit * state :=
  match _get_msg MASTER_FORCES_WRITE w with
  | (None, w1) => request_or_receive w1
  | (Some _, w1) =>
      match forced_write lower higher w1 with
      | (Raised e, w2) => (Raised e, w2)
      | (Returned _, w2) => request_or_receive w2
      end
  end.
End worker.
End Worker.

(** ** [process]: the checks, the job list and the fresh output file *)

Module Processing.
Import Store.
Local Open Scope string_scope.

(** The order of [sorted] on strings. *)
Definition string_le (a b : string) : Prop := String.leb a b = true.

#[global] Instance string_le_dec : RelDecision string_le.
Proof. intros a b. unfold string_le. apply _. Defined.

Definition key_le {V} (a b : string * V) : Prop := string_le a.1 b.1.

#[global] Instance key_le_dec {V} : RelDecision (@key_le V).
Proof. intros a b. unfold key_le. apply _. Defined.

(** The station groups of [self.__file["Waveforms"]] in the order of
    [get_station_list], each with its group. *)
Definition sorted_stations (ds : ASDFDataSet)
  : list (string * gmap string Dataset) :=
  merge_sort key_le (map_to_list (waveform_group ds)).

(** [get_station_list]. *)
Definition get_station_list (ds : ASDFDataSet) : list string :=
  (sorted_stations ds).*1.

(** The set [tags] built from the keys of a station group; a Python set
    has no defined order, the model keeps the last occurrences. *)
Definition tags_of (waveforms : list string) : list string :=
  remove_dups
    (PyStr.last_field <$> filter (λ w, w ≠ "StationXML") waveforms).

(** The body of [for station in stations]. *)
Definition station_tags_of (tag_map : gmap string string)
    (station : string) (group : gmap string Dataset) : list station_tag :=
  let waveforms := (map_to_list group).*1 in
  if bool_decide ("StationXML" ∈ waveforms) then
    (λ tag, (station, tag))
      <$> filter (λ tag, is_Some (tag_map !! tag)) (tags_of waveforms)
  else [].

Definition enumerate (tag_map : gmap string string) (ds : ASDFDataSet)
  : list station_tag :=
  sorted_stations ds ≫= (λ sg, station_tags_of tag_map sg.1 sg.2).

(** "Copy the station and event data only on the master process": the
    groups of the new file hold the [StationXML] datasets of the input. *)
Definition copy_station_xml (ds : ASDFDataSet)
  : gmap string (gmap string Dataset) :=
  (λ g, filter (λ kv, kv.1 = "StationXML") g)
    <$> filter (λ sg, is_Some (sg.2 !! "StationXML")) (waveform_group ds).

(** [process] up to the barrier that follows the copying.  [fs] is the
    set of paths that exist; a returned value is the job list and the
    output file as the copying process leaves it, a data set opened with
    [mpi=False] and the default compression, the entry
    [COMPRESSIONS["gzip-3"]] of [pyasdf/header.py], here [gzip_3]. *)
Definition process (gzip_3 : option string * option Z)
    (output_filename : string) (tag_map : gmap string string)
    (ds : ASDFDataSet) (fs : gset string)
  : outcome (list station_tag * ASDFDataSet) * gset string :=
  if bool_decide (output_filename ∈ fs) then (Raised ValueError, fs)
  else
    let station_tags := enumerate tag_map ds in
    match station_tags with
    | [] => (Raised ValueError, fs)
    | _ :: _ =>
        let output_data_set :=
          mkDataSet (copy_station_xml ds) gzip_3 false [] in
        (Returned (station_tags, output_data_set), {[output_filename]} ∪ fs)
    end.

(** [is_mpi_env] of [utils.py].  [mpi4py] is [None] when one of the two
    imports fails, else the size and the rank of [COMM_WORLD]. *)
Definition is_mpi_env (mpi4py : option (nat * nat)) : bool :=
  match mpi4py with
  | None => false
  | Some (size, rank) => negb ((size =? 1)%nat && (rank =? 0)%nat)
  end.

(** The property [mpi] as a truth value.  [force_mpi] is the argument
    [mpi] of the constructor, [parallel_hdf5] tells whether
    [h5py.get_config()] has a true attribute [mpi]. *)
Definition mpi_property (force_mpi : option bool)
    (mpi4py : option (nat * nat)) (parallel_hdf5 : bool) : outcome bool :=
  let is_mpi :=
    match force_mpi with
    | Some forced => forced
    | None => is_mpi_env mpi4py
    end in
  if is_mpi then
    if parallel_hdf5 then
      match mpi4py with
      | Some _ => Returned true
      | None => Raised ImportError
      end
    else Raised RuntimeError
  else Returned false.

(** The warning of the constructor. *)
Definition compression_warning : string :=
  "Compression will be disabled as parallel HDF5 does not support compression".

(** [output_data_set = ASDFDataSet(output_filename)], the constructor
    with its default arguments on the file that the copying left: the
    compression is [COMPRESSIONS["gzip-3"]], replaced after a warning by
    [COMPRESSIONS[None]] (here [no_compression]) when its first entry is
    true and the property [mpi] is; the format attributes of a file
    that this constructor created are the expected ones, and its groups
    exist. *)
Definition reopen (gzip_3 no_compression : option string * option Z)
    (mpi4py : option (nat * nat)) (parallel_hdf5 : bool)
    (file : ASDFDataSet) : outcome ASDFDataSet :=
  match mpi_property None mpi4py parallel_hdf5 with
  | Raised e => Raised e
  | Returned is_mpi =>
      let compressed :=
        match gzip_3.1 with
        | Some name => negb (String.eqb name "")
        | None => false
        end in
      if compressed && is_mpi then
        Returned (mkDataSet (waveform_group file) no_compression is_mpi
                            [compression_warning])
      else
        Returned (mkDataSet (waveform_group file) gzip_3 is_mpi [])
  end.
End Processing.

(** ** [_dispatch_processing_multiprocessing] *)

Module LocalScheduler.
Import Store.

(** A [JoinableQueue(maxsize)]: a [maxsize] of zero or less is no bound. *)
Record queue : Type := mkBounded { maxsize : Z; items : list payload }.

(** [put] on a queue nobody reads from yet: [None] when the queue is
    full, where the call would block for ever. *)
Definition put (x : payload) (q : queue) : option queue :=
  if decide (0 < maxsize q ∧ maxsize q ≤ Z.of_nat (length (items q)))%Z
  then None
  else Some (mkBounded (maxsize q) (items q ++ [x])).

Fixpoint put_all (xs : list payload) (q : queue) : option queue :=
  match xs with
  | [] => Some q
  | x :: xs' =>
      match put x q with
      | Some q' => put_all xs' q'
      | None => None
      end
  end.

(** The arguments every [Process] is built with (the two queues and the
    two locks are shared and left out). *)
Record Process : Type := mkProcess {
  input_filename : string;
  output_filename : string
}.

Section local.
(** [multiprocessing.cpu_count()]. *)
Variable hardware_threads : nat.
(** [int(math.ceil(1.1 * k))], a binary64 computation. *)
Variable queue_bound : nat → Z.

Definition cpu_count (station_tags : list station_tag) : nat :=
  hardware_threads `min` length station_tags.

(** The queue after "Put some poison pills", and the list [processes]. *)
Definition setup (in_file out_file : string)
    (station_tags : list station_tag) : option queue * list Process :=
  let cpu_count := cpu_count station_tags in
  let input_queue :=
    mkBounded (queue_bound (length station_tags + cpu_count)) [] in
  (q ← put_all (PItem <$> station_tags) input_queue;
   put_all (replicate cpu_count POISON_PILL) q,
   replicate cpu_count (mkProcess in_file out_file)).

Variable process_function :
  Stream → option (list Z) → Stream * outcome (option Stream).
Variable get_data_for_tag :
  string → string → outcome (Stream * option (list Z)).
Variable tag_map : gmap string string.

(** [Process.run] for a process that takes every item of [q] itself.
    The call of [processing_function] is not guarded. *)
Fixpoint run (q : list payload) (out : ASDFDataSet)
  : outcome unit * list payload * ASDFDataSet :=
  match q with
  | [] => (Raised Empty, [], out)
  | POISON_PILL :: rest => (Returned tt, rest, out)
  | PItem (station, tag) :: rest =>
      match get_data_for_tag station tag with
      | Raised e => (Raised e, rest, out)
      | Returned (stream, inv) =>
          match (process_function stream inv).2 with
          | Raised e => (Raised e, rest, out)
          | Returned None | Returned (Some []) => run rest out
          | Returned (Some output_stream) =>
              match tag_map !! tag with
              | None => (Raised KeyError, rest, out)
              | Some out_tag =>
                  match add_waveforms (WStream output_stream) out_tag
                          IdNone IdNone IdNone IdNone out with
                  | (Raised e, out') => (Raised e, rest, out')
                  | (Returned _, out') => run rest out'
                  end
              end
          end
      end
  | _ :: rest => (Raised TypeError, rest, out)
  end.
End local.
End LocalScheduler.

(** ** Runs of the ledger and of the master *)

Module Ledger.
Import JobQueue.
Section ledger.
Context {A R : Type} `{EqDecision A}.

(** The two operations that move jobs. *)
Inductive op : Type :=
  | GetJob (worker_name : nat)
  | ReceivedJob (args : A) (result : option R) (worker_name : nat).

Definition step (o : op) (q : JobQueueHelper A R)
  : outcome unit * JobQueueHelper A R :=
  match o with
  | GetJob w =>
      match get_job_for_worker w q with
      | (Returned _, q') => (Returned tt, q')
      | (Raised e, q') => (Raised e, q')
      end
  | ReceivedJob args result w => received_job_from_worker args result w q
  end.

(** A sequence of operations every one of which succeeds. *)
Fixpoint run (ops : list op) (q : JobQueueHelper A R)
  : option (JobQueueHelper A R) :=
  match ops with
  | [] => Some q
  | o :: ops' =>
      match step o q with
      | (Returned _, q') => run ops' q'
      | (Raised _, _) => None
      end
  end.

(** Successive requests of the workers [ws]: what each call gave. *)
Fixpoint hand_out (ws : list nat) (q : JobQueueHelper A R)
  : list (outcome A) :=
  match ws with
  | [] => []
  | w :: ws' =>
      let '(r, q') := get_job_for_worker w q in r :: hand_out ws' q'
  end.

(** The three places a job can be in. *)
Definition pending (q : JobQueueHelper A R) (j : Job A) : Prop :=
  j ∈ _in_queue q.
Definition active_on (m : gmap nat (Worker A)) (w : nat) (j : Job A) : Prop :=
  ∃ wk, m !! w = Some wk ∧ j ∈ active_jobs wk.
Definition active (q : JobQueueHelper A R) (j : Job A) : Prop :=
  ∃ w, active_on (_workers q) w j.
Definition is_finished (q : JobQueueHelper A R) (j : Job A) : Prop :=
  j ∈ _finished_jobs q.

(** Every job of the initial list is in exactly one place, once. *)
Record partition (q : JobQueueHelper A R) : Prop := mkPartition {
  part_cover : ∀ j,
    j ∈ _all_jobs q ↔ pending q j ∨ active q j ∨ is_finished q j;
  part_pending_active : ∀ j, pending q j → ¬ active q j;
  part_pending_finished : ∀ j, pending q j → ¬ is_finished q j;
  part_active_finished : ∀ j, active q j → ¬ is_finished q j;
  part_one_worker : ∀ j w1 w2,
    active_on (_workers q) w1 j → active_on (_workers q) w2 j → w1 = w2;
  part_queue_once : NoDup (_in_queue q);
  part_active_once : ∀ w wk, _workers q !! w = Some wk → NoDup (active_jobs wk);
  part_finished_once : NoDup (_finished_jobs q)
}.

(** Job [j'] is where it was. *)
Definition stays (q q' : JobQueueHelper A R) (j' : Job A) : Prop :=
  (pending q j' ↔ pending q' j')
  ∧ (∀ w, active_on (_workers q) w j' ↔ active_on (_workers q') w j')
  ∧ (is_finished q j' ↔ is_finished q' j').

(** Exactly one job went from pending to active, or from active to
    finished; in the second case the list of finished jobs grew by that
    job at its end. *)
Definition moves_one (q q' : JobQueueHelper A R) : Prop :=
  ∃ j,
    ((pending q j ∧ active q' j ∧ _finished_jobs q' = _finished_jobs q)
     ∨ (active q j ∧ _finished_jobs q' = _finished_jobs q ++ [j]
        ∧ j ∉ _finished_jobs q))
    ∧ ∀ j', j' ≠ j → stays q q' j'.
End ledger.
Arguments op : clear implicits.
End Ledger.

Module MasterRun.
Import JobQueue Master.

(** The master handles the messages of [msgs] one after the other; an
    exception ends the run. *)
Fixpoint handle (msgs : list (nat * msg_tag * payload)) (m : state)
  : outcome unit * state :=
  match msgs with
  | [] => (Returned tt, m)
  | (source, tag, msg) :: rest =>
      match dispatch source tag msg m with
      | (Returned _, m') => handle rest m'
      | (Raised e, m') => (Raised e, m')
      end
  end.

(** The workers whose acknowledgement is among the messages. *)
Definition acknowledged (msgs : list (nat * msg_tag * payload)) : list nat :=
  omap (λ '(source, tag, _),
          if decide (tag = POISON_PILL_RECEIVED) then Some source else None)
       msgs.
End MasterRun.

Module WorkerRun.
Import Store Worker.

Section worker_run.
Variable process_function :
  Stream → option (list Z) → Stream * outcome (option Stream).
Variable get_data_for_tag :
  string → string → outcome (Stream * option (list Z)).
Variable tag_map : gmap string string.
Variable buffer_full : gmap station_tag Stream → bool.
Variable str_stream : Stream → string.

(** What happens around one pass of the worker's loop: the messages of
    the master that arrive before it, and what the other ranks contribute
    should the pass run [_sync_metadata]. *)
Record surroundings : Type := mkSurroundings {
  arriving : list (msg_tag * payload);
  lower : list (list (option Info));
  higher : list (list (option Info))
}.

(** The passes of a worker, one per element of the list; an exception
    ends the run. *)
Fixpoint passes (run : list surroundings) (w : state) : outcome unit * state :=
  match run with
  | [] => (Returned tt, w)
  | here :: rest =>
      match loop_body process_function get_data_for_tag tag_map buffer_full
                      str_stream (lower here) (higher here)
                      (set_inbox (inbox w ++ arriving here) w) with
      | (Returned _, w') => passes rest w'
      | (Raised e, w') => (Raised e, w')
      end
  end.
End worker_run.

(** The number of [POISON_PILL_RECEIVED] messages a worker has sent. *)
Definition acknowledgements (w : state) : nat :=
  length (filter (λ s, s_tag s = POISON_PILL_RECEIVED) (outbox w)).

(** The acknowledgement has been sent exactly when the flag
    [poison_pill_received] is set. *)
Definition acknowledged_once (w : state) : Prop :=
  acknowledgements w = if poison_pill_received (worker_state w) then 1 else 0.
End WorkerRun.

(** ** Concrete data for the closed statements *)

Module Examples.
Import Store.
Local Open Scope string_scope.

(** One channel of station BW.A, three samples at 100 Hz. *)
Definition trace_A : Trace :=
  mkTrace "BW" "A" "" "EHZ" "2009-08-24T00:20:03" "2009-08-24T00:20:03"
          1251073203000000000%Z 4636737291354636288%Z "float32"
          [1065353216; 1073741824; 1077936128]%Z ∅ None.

Definition name_A (tag : string) : string :=
  "BW.A..EHZ__2009-08-24T00:20:03__2009-08-24T00:20:03__" ++ tag.

(** A freshly created data set without waveforms. *)
Definition fresh (mpi : bool) : ASDFDataSet :=
  mkDataSet ∅ (if mpi then (None, None) else (Some "gzip", Some 3%Z)) mpi [].

(** The data set after [add_waveforms(trace_A, tag="raw")]. *)
Definition with_trace_A : ASDFDataSet :=
  (add_waveforms (WTrace trace_A) "raw" IdNone IdNone IdNone IdNone
                 (fresh false)).2.

(** A user function that raises on every stream and leaves it alone. *)
Definition raising_function (st : Stream) (inv : option (list Z))
  : Stream * outcome (option Stream) := (st, Raised ValueError).

(** An input file that holds [trace_A] under the tag [raw]. *)
Definition input_data (station tag : string)
  : outcome (Stream * option (list Z)) :=
  if String.eqb station "BW.A" && String.eqb tag "raw"
  then Returned ([trace_A], Some [])
  else Raised AttributeError.

Definition tag_map : gmap string string := {["raw" := "processed"]}.

(** An input file: station BW.A with station information and one raw
    waveform, station BW.B with a raw waveform only. *)
Definition station_xml : Dataset :=
  mkDataset (mkParams "StationXML" 2 "byte" None None true) ∅ [60; 63]%Z.

Definition input_file : ASDFDataSet :=
  mkDataSet
    {[ "BW.A" := <["StationXML" := station_xml]>
                   (default ∅ (waveform_group with_trace_A !! "BW.A"));
       "BW.B" := default ∅ (waveform_group with_trace_A !! "BW.A") ]}
    (Some "gzip", Some 3%Z) false [].

(** One pass of the worker of a two-rank fleet; the master contributes
    [[None]] to the gathering. *)
Definition worker_pass (w : Worker.state) : Worker.state :=
  (Worker.loop_body raising_function input_data tag_map (λ _, false)
                    (λ _, "1 Trace(s) in Stream") [[None]] [] w).2.

Definition deliver (tag : msg_tag) (p : payload) (w : Worker.state)
  : Worker.state := Worker.set_inbox (Worker.inbox w ++ [(tag, p)]) w.
End Examples.

(** ** Counting the operations of a run *)

Module Counting.
Import JobQueue Ledger.
Section counting.
Context {A R : Type}.

(** Is [o] a request of worker [w]? a completion reported by [w]? *)
Definition is_get (w : nat) (o : op A R) : bool :=
  match o with
  | GetJob w' => bool_decide (w' = w)
  | ReceivedJob _ _ _ => false
  end.

Definition is_received (w : nat) (o : op A R) : bool :=
  match o with
  | GetJob _ => false
  | ReceivedJob _ _ w' => bool_decide (w' = w)
  end.

Definition gets_by (w : nat) (ops : list (op A R)) : nat :=
  length (filter (λ o, is_get w o = true) ops).

Definition received_by (w : nat) (ops : list (op A R)) : nat :=
  length (filter (λ o, is_received w o = true) ops).

Definition is_any_get (o : op A R) : bool :=
  match o with GetJob _ => true | ReceivedJob _ _ _ => false end.

Definition gets (ops : list (op A R)) : nat :=
  length (filter (λ o, is_any_get o = true) ops).

Definition receptions (ops : list (op A R)) : nat :=
  length (filter (λ o, is_any_get o = false) ops).
End counting.
End Counting.

(** ** What the master sends during a run *)

Module MasterReplies.
Import JobQueue Master.

(** How the loop of the master stands after some passes: [jobs.all_done]
    ended it; [comm.recv] waits for a message that does not come; an
    exception ended it; or the passes allowed are used up. *)
Inductive ending : Type :=
  | AllDone
  | Receiving
  | Failed (e : exn)
  | Unfinished.

(** The [MASTER_FORCES_WRITE] messages of one collective phase. *)
Definition forced (size : nat) : list sent :=
  (λ rank, mkSent PNone rank MASTER_FORCES_WRITE) <$> worker_nodes size.

(** The loop [while not jobs.all_done], for at most [passes] passes.
    [msgs] are the messages that [comm.recv] returns, in that order (a
    [WORKER_REQUESTS_WRITE] that the master's [_sync_metadata] takes away
    is not among them); [sync k] is the outcome of the master's
    [_sync_metadata] in the collective phase number [k], and [phase]
    counts the phases so far.  The result is how the loop stands, what
    the master has sent, the messages not received yet, and the state. *)
Fixpoint run (passes size : nat) (sync : nat → outcome unit) (phase : nat)
    (msgs : list (nat * msg_tag * payload)) (m : state)
  : ending * list sent * list (nat * msg_tag * payload) * state :=
  match passes with
  | 0 => (Unfinished, [], msgs, m)
  | S passes' =>
      if all_done (jobs m) then (AllDone, [], msgs, m)
      else if enters_collective size m then
        match sync phase with
        | Raised e => (Failed e, forced size, msgs, m)
        | Returned _ =>
            let '(e, out, rest, m') :=
              run passes' size sync (S phase) msgs (mkMaster (jobs m) []) in
            (e, forced size ++ out, rest, m')
        end
      else
        match msgs with
        | [] => (Receiving, [], [], m)
        | (source, tag, msg) :: rest =>
            match dispatch source tag msg m with
            | (Raised e, m') => (Failed e, [], rest, m')
            | (Returned out, m') =>
                let '(e, out', rest', m'') :=
                  run passes' size sync phase rest m' in
                (e, out ++ out', rest', m'')
            end
        end
  end.

(** "Shutdown workers", after the loop. *)
Definition shutdown (size : nat) : list sent :=
  (λ rank, mkSent PNone rank ALL_DONE) <$> worker_nodes size.

(** [_dispatch_processing_mpi_master_node] up to its last barrier: the
    loop from the start of the master, and the shutdown of the workers
    when the loop has ended by itself. *)
Definition _dispatch_processing_mpi_master_node (passes size : nat)
    (sync : nat → outcome unit) (station_tags : list station_tag)
    (msgs : list (nat * msg_tag * payload))
  : ending * list sent * list (nat * msg_tag * payload) * state :=
  let '(e, out, rest, m) :=
    run passes size sync 0 msgs (start station_tags size) in
  (e, out ++ match e with AllDone => shutdown size | _ => [] end, rest, m).

(** The replies to requests for an item among the messages sent, and
    the other messages. *)
Definition replies (out : list sent) : list sent :=
  filter (λ s, s_tag s = MASTER_SENDS_ITEM) out.

Definition broadcasts (out : list sent) : list sent :=
  filter (λ s, s_tag s ≠ MASTER_SENDS_ITEM) out.

(** The workers that asked for a job, in the order of their requests. *)
Definition requesters (msgs : list (nat * msg_tag * payload)) : list nat :=
  omap (λ '(source, tag, _),
          if decide (tag = WORKER_REQUESTS_ITEM) then Some source else None)
       msgs.
End MasterReplies.

(** ** What a worker reports *)

Module WorkerReports.
(** The job a [WORKER_DONE_WITH_ITEM] message reports. *)
Definition reported (s : sent) : option station_tag :=
  match s_obj s with
  | PDone key _ => Some key
  | _ => None
  end.

(** The messages sent for the items of a flushed buffer. *)
Definition reports (str_stream : Store.Stream → string)
    (items : list (station_tag * Store.Stream)) : list sent :=
  (λ kv, mkSent (PDone kv.1 (str_stream kv.2)) 0 WORKER_DONE_WITH_ITEM)
    <$> items.
End WorkerReports.

(** ** Looking into the waveform group *)

Module Contents.
Import Store.

(** [self._waveform_group[station_name][data_name]], [None] when the
    group or the dataset is missing. *)
Definition dataset_at (station_name data_name : string) (ds : ASDFDataSet)
  : option Dataset :=
  waveform_group ds !! station_name ≫= (.!! data_name).

(** The warning of [_add_trace_get_collective_information]. *)
Definition duplicate_warning (t : Trace) (tag : string) : string :=
  ("Data '" ++ (trace_station_name t ++ "/" ++ trace_data_name t tag)
   ++ "' already exists in file. Will not be added!")%string.

(** The id that one round of the loop over [ids.items()] settles on:
    the value passed by the caller when it is not [None], else the one
    of [trace.stats.asdf]; an empty value counts as none. *)
Definition kept_id (passed own : option string) : option string :=
  match (match passed with Some _ => passed | None => own end) with
  | Some s => if String.eqb s "" then None else Some s
  | None => None
  end.

(** The attribute written for an id, as one round of the loop over
    [ids.items()] decides it: the value passed by the caller when it is
    not [None], else the one of [trace.stats.asdf]; nothing is written
    for an empty value. *)
Definition written_id (passed own : option string) : option attr_value :=
  match (match passed with Some _ => passed | None => own end) with
  | Some s => if String.eqb s "" then None else Some (_zeropad_ascii_string s)
  | None => None
  end.

(** The ids that [_get_waveform] sets on a trace read from the dataset
    written for [t]; [rid] is what [ResourceIdentifier] makes of a stored
    id. *)
Definition read_back_ids (rid : string → string) (t : Trace) (i : ids)
  : list (string * string) :=
  omap (λ item, (λ s, (item.1, rid s)) <$> kept_id item.2 (asdf t !! item.1))
       (ids_items i).
End Contents.

(** ** More of Python's string methods *)

Module PyText.
Local Open Scope string_scope.

(** [s.replace(a, b)] for one-character strings [a] and [b]. *)
Fixpoint replace_char (a b : ascii) (s : string) : string :=
  match s with
  | EmptyString => EmptyString
  | String c s' =>
      String (if Ascii.eqb c a then b else c) (replace_char a b s')
  end.

(** [a in s] for a one-character string [a]. *)
Fixpoint contains_char (a : ascii) (s : string) : bool :=
  match s with
  | EmptyString => false
  | String c s' => Ascii.eqb c a || contains_char a s'
  end.

(** [s.split(".")]. *)
Fixpoint split_dot (s : string) : list string :=
  match s with
  | EmptyString => [""]
  | String c rest =>
      if Ascii.eqb c "." then "" :: split_dot rest
      else match split_dot rest with
           | field :: fields => String c field :: fields
           | [] => [String c ""]
           end
  end.

(** [s.find("__")]; [None] stands for the result -1. *)
Fixpoint find_dunder (s : string) : option nat :=
  match s with
  | EmptyString => None
  | String "_" (String "_" _) => Some 0%nat
  | String _ rest => S <$> find_dunder rest
  end.

(** [s[:-1]]. *)
Fixpoint but_last (s : string) : string :=
  match s with
  | EmptyString => EmptyString
  | String c EmptyString => EmptyString
  | String c rest => String c (but_last rest)
  end.

(** [s[:k]] for the result [k] of [find]. *)
Definition slice_to (k : option nat) (s : string) : string :=
  match k with
  | Some k => substring 0 k s
  | None => but_last s
  end.

(** The names that h5py looks up in a group as one link: not empty, not
    ["."] (HDF5's name for the group itself), and without a ["/"].  For
    any other name [in] and [[]] on a group follow a path. *)
Definition plain_name (s : string) : bool :=
  negb (String.eqb s "") && negb (String.eqb s ".")
  && negb (contains_char "/" s).

(** [s.endswith(suffix)]. *)
Fixpoint endswith (s suffix : string) : bool :=
  String.eqb s suffix
  || match s with
     | EmptyString => false
     | String _ rest => endswith rest suffix
     end.
End PyText.

(** ** Reading: [_get_waveform], [_get_station], the accessors of
    [utils.py], [get_data_for_tag], [validate], and writing station
    information *)

Module Reading.
Import Store Processing.
Local Open Scope string_scope.

(** What [_get_waveform] assigns to the trace it returns: the samples,
    the start time (a [UTCDateTime], held as its timestamp), the sampling
    rate, the four codes, and the ids under [tr.stats.asdf] in the order
    they are set. *)
Record Waveform : Type := mkWaveform {
  w_data : list pyfloat;
  w_starttime : pyfloat;
  w_sampling_rate : pyfloat;
  w_network : string;
  w_station : string;
  w_location : string;
  w_channel : string;
  w_details : list (string * string)
}.

Definition id_names : list string :=
  ["event_id"; "origin_id"; "magnitude_id"; "focal_mechanism_id"].

(** The counters that [validate] prints. *)
Record Summary : Type := mkSummary {
  no_station_information : nat;
  no_waveforms : nat;
  good_stations : nat
}.

Section reading.
(** numpy's and ObsPy's conversions:
    [obspy.UTCDateTime(float(a) / 1.0E9)], [float(a)] and
    [str(ResourceIdentifier(a.tostring().decode()))] for an attribute
    value [a]; an [Inventory], [obspy.read_inventory] on the bytes of a
    dataset and [inv.write] into a buffer. *)
Variable utc_datetime : attr_value → outcome pyfloat.
Variable to_float : attr_value → outcome pyfloat.
Variable resource_identifier : attr_value → outcome string.
Variable Inventory : Type.
Variable read_inventory : list pyfloat → outcome Inventory.
Variable write_inventory : Inventory → list pyfloat.
(** Python finds an attribute on the object and its class before it
    calls [__getattr__]: the names for which that lookup succeeds on a
    [StationAccessor] and on a [WaveformAccessor] (their methods and
    their two private fields). *)
Variable station_accessor_has : string → bool.
Variable waveform_accessor_has : string → bool.

(** "Read all the ids if they are there." *)
Fixpoint read_ids (names : list string) (attrs : gmap string attr_value)
  : outcome (list (string * string)) :=
  match names with
  | [] => Returned []
  | name :: rest =>
      match attrs !! name with
      | None => read_ids rest attrs
      | Some a =>
          match resource_identifier a with
          | Raised e => Raised e
          | Returned rid =>
              match read_ids rest attrs with
              | Raised e => Raised e
              | Returned details => Returned ((name, rid) :: details)
              end
          end
      end
  end.

(** [_get_waveform].  Unpacking [waveform_name.split(".")[:4]] into four
    names raises [ValueError] when there are fewer fields. *)
Definition _get_waveform (waveform_name : string) (ds : ASDFDataSet)
  : outcome Waveform :=
  match take 4 (PyText.split_dot waveform_name) with
  | [network; station; location; channel] =>
      let channel := PyText.slice_to (PyText.find_dunder channel) channel in
      match waveform_group ds !! (network ++ "." ++ station) with
      | None => Raised KeyError
      | Some group =>
          match group !! waveform_name with
          | None => Raised KeyError
          | Some data =>
              match ds_attrs data !! "starttime" with
              | None => Raised KeyError
              | Some a =>
                  match utc_datetime a with
                  | Raised e => Raised e
                  | Returned starttime =>
                      match ds_attrs data !! "sampling_rate" with
                      | None => Raised KeyError
                      | Some r =>
                          match to_float r with
                          | Raised e => Raised e
                          | Returned rate =>
                              match read_ids id_names (ds_attrs data) with
                              | Raised e => Raised e
                              | Returned details =>
                                  Returned
                                    (mkWaveform (ds_value data) starttime rate
                                       network station location channel
                                       details)
                              end
                          end
                      end
                  end
              end
          end
      end
  | _ => Raised ValueError
  end.

(** [_get_station]. *)
Definition _get_station (station_name : string) (ds : ASDFDataSet)
  : outcome (option Inventory) :=
  match waveform_group ds !! station_name with
  | None => Returned None
  | Some group =>
      match group !! "StationXML" with
      | None => Returned None
      | Some data =>
          match read_inventory (ds_value data) with
          | Raised e => Raised e
          | Returned inv => Returned (Some inv)
          end
      end
  end.

(** [_add_inventory_object].  The new dataset is created from the bytes
    of the inventory with [fletcher32=True] and without compression; an
    existing one is resized (every dataset of the model is extendable:
    [maxshape] is always [(None,)]) and overwritten. *)
Definition _add_inventory_object (inv : Inventory)
    (network_id station_id : string) (ds : ASDFDataSet) : ASDFDataSet :=
  let station_name := network_id ++ "." ++ station_id in
  let data := write_inventory inv in
  let station_group := default ∅ (waveform_group ds !! station_name) in
  let dataset :=
    match station_group !! "StationXML" with
    | Some old =>
        let p := ds_params old in
        mkDataset (mkParams (cp_name p) (length data) (cp_dtype p)
                            (cp_compression p) (cp_compression_opts p)
                            (cp_fletcher32 p))
                  (ds_attrs old) data
    | None =>
        mkDataset (mkParams "StationXML" (length data) "int8" None None true)
                  ∅ data
    end in
  set_waveform_group
    (<[station_name := <["StationXML" := dataset]> station_group]>
       (waveform_group ds)) ds.

(** What an attribute of a [WaveformAccessor] can be: a stream of the
    traces read, the station information, or an attribute of the object
    itself. *)
Inductive attribute : Type :=
  | Waveforms (st : list Waveform)
  | StationInformation (inv : option Inventory)
  | OwnAttribute.

(** [[self.__data_set()._get_waveform(_i) for _i in keys]]. *)
Fixpoint get_waveforms (keys : list string) (ds : ASDFDataSet)
  : outcome (list Waveform) :=
  match keys with
  | [] => Returned []
  | key :: rest =>
      match _get_waveform key ds with
      | Raised e => Raised e
      | Returned tr =>
          match get_waveforms rest ds with
          | Raised e => Raised e
          | Returned traces => Returned (tr :: traces)
          end
      end
  end.

(** The keys that [WaveformAccessor.__getattr__] selects; a group lists
    its keys in an order that the model leaves open. *)
Definition keys_for (item : string) (station : gmap string Dataset)
  : list string :=
  filter (λ k, PyText.endswith k ("__" ++ item) = true)
         (map_to_list station).*1.

(** [WaveformAccessor.__getattr__] of the accessor for [station_name]. *)
Definition waveform_getattr (station_name item : string) (ds : ASDFDataSet)
  : outcome attribute :=
  if decide (item ≠ "StationXML") then
    match waveform_group ds !! station_name with
    | None => Raised KeyError
    | Some station =>
        match get_waveforms (keys_for item station) ds with
        | Raised e => Raised e
        | Returned traces => Returned (Waveforms traces)
        end
    end
  else
    match _get_station station_name ds with
    | Raised e => Raised e
    | Returned inv => Returned (StationInformation inv)
    end.

(** [sorted(set(l))]. *)
Definition sorted_set (l : list string) : list string :=
  merge_sort string_le (remove_dups l).

(** [WaveformAccessor.__dir__]. *)
Definition waveform_dir (station_name : string) (ds : ASDFDataSet)
  : outcome (list string) :=
  match waveform_group ds !! station_name with
  | None => Raised KeyError
  | Some station =>
      let directory :=
        ((if bool_decide (is_Some (station !! "StationXML"))
          then ["StationXML"] else [])
         ++ (PyStr.last_field
               <$> filter (λ k, k ≠ "StationXML")
                          (map_to_list station).*1))%list in
      Returned (sorted_set directory)
  end.

(** [StationAccessor.__getattr__]: the station name that the returned
    [WaveformAccessor] is built for.  The test [in __waveforms] is h5py's:
    for a plain name it tells whether the group [/Waveforms] has a member
    of that name; any other name is resolved as a path, which the model
    does not follow: the result is then [None]. *)
Definition station_getattr (item : string) (ds : ASDFDataSet)
  : option (outcome string) :=
  let name := PyText.replace_char "_" "." item in
  if PyText.plain_name name then
    Some (if bool_decide (is_Some (waveform_group ds !! name))
          then Returned name else Raised AttributeError)
  else None.

(** [StationAccessor.__dir__]. *)
Definition station_dir (ds : ASDFDataSet) : list string :=
  sorted_set (PyText.replace_char "." "_"
                <$> (map_to_list (waveform_group ds)).*1).

(** [get_data_for_tag].  When [getattr(self.waveforms, station_name)]
    finds an attribute of the accessor object itself, that object (a
    method, the weak reference, the class, its dictionary, a string or
    [None]) has no attribute [StationXML], and one of the two lookups
    that follow raises [AttributeError].  The result is [None] where
    [station_getattr] is. *)
Definition get_data_for_tag (station_name tag : string) (ds : ASDFDataSet)
  : option (outcome (attribute * attribute)) :=
  let station_name := PyText.replace_char "." "_" station_name in
  if station_accessor_has station_name then Some (Raised AttributeError)
  else
    match station_getattr station_name ds with
    | None => None
    | Some (Raised e) => Some (Raised e)
    | Some (Returned station) =>
        match (if waveform_accessor_has tag then Returned OwnAttribute
               else waveform_getattr station tag ds) with
        | Raised e => Some (Raised e)
        | Returned st =>
            match waveform_getattr station "StationXML" ds with
            | Raised e => Some (Raised e)
            | Returned inv => Some (Returned (st, inv))
            end
        end
    end.

(** One round of the loop of [validate].  [dir] of an attribute of the
    accessor object itself is a non-empty list without ["StationXML"].
    The result is [None] where [station_getattr] is. *)
Definition validate_station (station_id : string) (ds : ASDFDataSet)
    (summary : Summary) : option (outcome Summary) :=
  let count_no_information :=
    mkSummary (S (no_station_information summary)) (no_waveforms summary)
              (good_stations summary) in
  if station_accessor_has station_id then Some (Returned count_no_information)
  else
    match station_getattr station_id ds with
    | None => None
    | Some (Raised e) => Some (Raised e)
    | Some (Returned station) =>
        match waveform_dir station ds with
        | Raised e => Some (Raised e)
        | Returned contents =>
            match contents with
            | [] => Some (Returned summary)
            | _ :: _ =>
                if bool_decide ("StationXML" ∈ contents) then
                  match filter (λ c, c ≠ "StationXML") contents with
                  | [] =>
                      Some (Returned
                        (mkSummary (no_station_information summary)
                                   (S (no_waveforms summary))
                                   (good_stations summary)))
                  | _ :: _ =>
                      Some (Returned
                        (mkSummary (no_station_information summary)
                                   (no_waveforms summary)
                                   (S (good_stations summary))))
                  end
                else Some (Returned count_no_information)
            end
        end
    end.

Fixpoint validate_loop (station_ids : list string) (ds : ASDFDataSet)
    (summary : Summary) : option (outcome Summary) :=
  match station_ids with
  | [] => Some (Returned summary)
  | station_id :: rest =>
      match validate_station station_id ds summary with
      | None => None
      | Some (Raised e) => Some (Raised e)
      | Some (Returned summary') => validate_loop rest ds summary'
      end
  end.

(** [validate]: the summary that is printed at the end. *)
Definition validate (ds : ASDFDataSet) : option (outcome Summary) :=
  validate_loop (station_dir ds) ds (mkSummary 0 0 0).
End reading.

Arguments Waveforms {Inventory} st.
Arguments StationInformation {Inventory} inv.
Arguments OwnAttribute {Inventory}.
End Reading.

(** ** [process_two_files_without_parallel_output] *)

Module TwoFiles.

(** What ends the function early: the [ASDFException] of a data set
    without MPI, the [ValueError] of [range] with a step of zero, the
    [IndexError] of [all_chunks[self.mpi.rank]], and the
    [UnboundLocalError] of [result]. *)
Inductive error : Set :=
  | NotMPI
  | RangeStepZero
  | NoChunk
  | ResultUnbound.

Inductive result (T : Type) : Type :=
  | Done (v : T)
  | Failed (e : error).
Arguments Done {T} v.
Arguments Failed {T} e.

(** [range(0, stop, step)] for a positive [step]. *)
Definition range_step (stop step : nat) : list nat :=
  (λ k, k * step) <$> seq 0 ((stop + step - 1) / step).

(** [list(chunks(l, n))]: the slices [l[i:i+n]]. *)
Definition chunks {A} (l : list A) (n : nat) : list (list A) :=
  (λ i, take n (drop i l)) <$> range_step (length l) n.

(** [int(math.ceil(len(usable_stations) / self.mpi.size))] for the size
    of a communicator, which is at least 1; the quotient is a binary64
    number, which gives the exact ceiling for every length below 2^53. *)
Definition chunksize (len size : nat) : nat := (len + size - 1) / size.

(** [all_chunks[self.mpi.rank]]. *)
Definition rank_stations (usable_stations : list string) (size rank : nat)
  : result (list string) :=
  let chunksize := chunksize (length usable_stations) size in
  if (chunksize =? 0)%nat then Failed RangeStepZero
  else
    match chunks usable_stations chunksize !! rank with
    | Some stations => Done stations
    | None => Failed NoChunk
    end.

Section two_files.
Context {R : Type}.
(** The body of the [try]: both [getattr] calls and the call of
    [process_function] for a station; [None] when it raises an
    [Exception], which the [except] branch prints. *)
Variable attempt : string → option R.

(** The loop over the stations of the rank: [result] is the local
    variable of that name, unbound before the first assignment, and
    [results[station] = result] follows the [try] statement. *)
Fixpoint loop (stations : list string) (results : gmap string R)
    (result : option R) : TwoFiles.result (gmap string R) :=
  match stations with
  | [] => Done results
  | station :: rest =>
      let result :=
        match attempt station with
        | Some r => Some r
        | None => result
        end in
      match result with
      | None => Failed ResultUnbound
      | Some r => loop rest (<[station := r]> results) (Some r)
      end
  end.

(** The function up to the dictionary [results] that the rank hands to
    [allgather]; [usable_stations] is the list made of the set of common
    stations. *)
Definition process_two_files (mpi : bool) (usable_stations : list string)
    (size rank : nat) : TwoFiles.result (gmap string R) :=
  if mpi then
    match rank_stations usable_stations size rank with
    | Failed e => Failed e
    | Done stations => loop stations ∅ None
    end
  else Failed NotMPI.
End two_files.
End TwoFiles.

(** ** Counting the messages of a worker *)

Module WorkerProtocol.
Import Worker WorkerRun.

(** The messages with a given tag that the worker has sent, that wait in
    its inbox, and that arrive in the course of a run. *)
Definition sent_with (tag : msg_tag) (w : state) : nat :=
  length (filter (λ s, s_tag s = tag) (outbox w)).

Definition waiting_with (tag : msg_tag) (w : state) : nat :=
  length (filter (λ m, m.1 = tag) (inbox w)).

Definition arrived_with (tag : msg_tag) (run : list surroundings) : nat :=
  length (filter (λ m, m.1 = tag) (run ≫= arriving)).

(** The requests for an item are the items taken from the inbox, plus
    one while [waiting_for_item] is set; [delivered] counts the items
    that have arrived. *)
Definition requests_balanced (delivered : nat) (w : state) : Prop :=
  sent_with WORKER_REQUESTS_ITEM w + waiting_with MASTER_SENDS_ITEM w
  = delivered + (if waiting_for_item (worker_state w) then 1 else 0).
End WorkerProtocol.

(** ** [add_stationxml] *)

Module Stations.
Import Store Reading.
Local Open Scope string_scope.

Section stations.
Variable Inventory : Type.
Variable read_inventory : list pyfloat → outcome Inventory.
Variable write_inventory : Inventory → list pyfloat.
(** [isolate_and_merge_station] and [merge_inventories] of
    [pyasdf/inventory_utils.py]. *)
Variable isolate_and_merge_station :
  Inventory → string → string → outcome Inventory.
Variable merge_inventories :
  Inventory → Inventory → string → string → outcome Inventory.

(** The loop over [network_station_codes]. *)
Fixpoint add_stations (stationxml : Inventory)
    (network_station_codes : list (string * string)) (ds : ASDFDataSet)
  : outcome unit * ASDFDataSet :=
  match network_station_codes with
  | [] => (Returned tt, ds)
  | (network_id, station_id) :: rest =>
      let station_name := network_id ++ "." ++ station_id in
      match _get_station Inventory read_inventory station_name ds with
      | Raised e => (Raised e, ds)
      | Returned existing_inventory =>
          let inv :=
            match existing_inventory with
            | None =>
                isolate_and_merge_station stationxml network_id station_id
            | Some existing =>
                merge_inventories existing stationxml network_id station_id
            end in
          match inv with
          | Raised e => (Raised e, ds)
          | Returned inv =>
              add_stations stationxml rest
                (_add_inventory_object Inventory write_inventory inv
                                       network_id station_id ds)
          end
      end
  end.

(** [add_stationxml].  [stationxml] is the inventory passed or the
    outcome of [obspy.read_inventory] on the argument; [codes] lists the
    set [network_station_codes] of an inventory in the order in which
    Python iterates over it. *)
Definition add_stationxml (stationxml : outcome Inventory)
    (codes : Inventory → list (string * string)) (ds : ASDFDataSet)
  : outcome unit * ASDFDataSet :=
  match stationxml with
  | Raised e => (Raised e, ds)
  | Returned inv => add_stations inv (codes inv) ds
  end.
End stations.
End Stations.

(** * Properties *)

(** ** The string helpers on concrete inputs *)

Section string_examples.
Local Open Scope string_scope.

Example strip_tag : PyStr.strip "  StationXML " = "StationXML".
Proof. reflexivity. Qed.

Example strip_inner_space : PyStr.strip " raw data " = "raw data".
Proof. reflexivity. Qed.

Example lower_tag : PyStr.lower "StationXML" = "stationxml".
Proof. reflexivity. Qed.

Example split_three : PyStr.split_dunder "a__b__c" = ["a"; "b"; "c"].
Proof. reflexivity. Qed.

Example split_leftmost : PyStr.split_dunder "a___b" = ["a"; "_b"].
Proof. reflexivity. Qed.

Example split_no_separator : PyStr.split_dunder "StationXML" = ["StationXML"].
Proof. reflexivity. Qed.

Example last_field_of_name :
  PyStr.last_field (Examples.name_A "raw") = "raw".
Proof. reflexivity. Qed.

Lemma split_dunder_aux_other cur c s :
  c ≠ "_"%char →
  PyStr.split_dunder_aux cur (String c s) = PyStr.split_dunder_aux (c :: cur) s.
Proof. intros Hc. destruct c as [[] [] [] [] [] [] [] []]; done. Qed.

Lemma split_dunder_aux_single cur c s :
  c ≠ "_"%char →
  PyStr.split_dunder_aux cur (String "_" (String c s))
  = PyStr.split_dunder_aux ("_"%char :: cur) (String c s).
Proof. intros Hc. destruct c as [[] [] [] [] [] [] [] []]; done. Qed.

(** [split] never returns an empty list, so that [[-1]] is defined. *)
Lemma split_dunder_aux_nonempty s :
  (∀ cur, PyStr.split_dunder_aux cur s ≠ [])
  ∧ (∀ c cur, PyStr.split_dunder_aux cur (String c s) ≠ []).
Proof.
  induction s as [|c' s' [IH1 IH2]].
  - split; [done|]. intros c cur.
    destruct c as [[] [] [] [] [] [] [] []]; done.
  - split; [apply IH2|]. intros c cur.
    destruct (Ascii.ascii_dec c "_") as [->|Hc].
    + destruct (Ascii.ascii_dec c' "_") as [->|Hc']; [done|].
      rewrite split_dunder_aux_single by done. apply IH2.
    + rewrite split_dunder_aux_other by done. apply IH2.
Qed.
End string_examples.

(** ** The job ledger *)

Section job_queue_facts.
Import JobQueue Ledger.
Context {A R : Type} `{EqDecision A}.
Implicit Types (q : JobQueueHelper A R) (j job : Job A) (l : list (Job A)).

Lemma list_remove_elem_of job l :
  job ∈ l →
  ∃ l1 l2, l = l1 ++ (job :: l2) ∧ (job ∉ l1)
           ∧ list_remove job l = Some (l1 ++ l2).
Proof.
  induction l as [|y l IH]; intros Hin; [by apply elem_of_nil in Hin|].
  cbn [list_remove]. destruct (decide (y = job)) as [->|Hne].
  - exists [], l. split_and!; [done|apply not_elem_of_nil|done].
  - apply elem_of_cons in Hin as [->|Hin]; [done|].
    destruct (IH Hin) as (l1 & l2 & -> & Hl1 & ->).
    exists (y :: l1), l2. split_and!; [done| |done].
    rewrite elem_of_cons. intros [?|?]; by subst.
Qed.

Lemma list_remove_Some job l act :
  list_remove job l = Some act →
  ∃ l1 l2, l = l1 ++ (job :: l2) ∧ (job ∉ l1) ∧ act = l1 ++ l2.
Proof.
  intros Hrm. assert (job ∈ l) as Hin.
  { revert act Hrm. induction l as [|y l IH]; intros act; cbn [list_remove];
      [done|].
    destruct (decide (y = job)) as [->|]; [intros _; apply list_elem_of_here|].
    destruct (list_remove job l) eqn:E; [|done].
    intros _. apply list_elem_of_further. by eapply IH. }
  destruct (list_remove_elem_of _ _ Hin) as (l1 & l2 & ? & ? & Hrm').
  exists l1, l2. split_and!; [done..|congruence].
Qed.

Lemma matching_jobs_elem_of args (w : Worker A) job :
  job ∈ matching_jobs args w ↔ job ∈ active_jobs w ∧ arguments job = args.
Proof. unfold matching_jobs. rewrite list_elem_of_filter. tauto. Qed.

Lemma imap_job_ids (jobs : list A) k :
  job_id <$> imap (λ i, mkJob (k + i)) jobs = seq k (length jobs).
Proof.
  revert k. induction jobs as [|a jobs IH]; intros k; [done|].
  cbn. rewrite Nat.add_0_r. f_equal.
  rewrite <- (IH (S k)). f_equal. apply imap_ext. intros i x _. cbn.
  f_equal. lia.
Qed.

Lemma make_jobs_ids (jobs : list A) :
  job_id <$> make_jobs jobs = seq 0 (length jobs).
Proof. apply (imap_job_ids jobs 0). Qed.

Lemma make_jobs_NoDup (jobs : list A) : NoDup (make_jobs jobs).
Proof.
  apply (NoDup_fmap_1 job_id). rewrite make_jobs_ids. apply NoDup_seq.
Qed.

Lemma make_jobs_arguments (jobs : list A) :
  arguments <$> make_jobs jobs = jobs.
Proof.
  unfold make_jobs.
  assert (∀ k, arguments <$> imap (λ i, mkJob (k + i)) jobs = jobs) as Hk.
  { induction jobs as [|a jobs IH]; intros k; [done|].
    cbn. f_equal. rewrite <- (IH (S k)) at 2. f_equal.
    apply imap_ext. intros i x _. cbn. f_equal. lia. }
  apply (Hk 0).
Qed.

Lemma make_workers_lookup (names : list nat) w :
  make_workers (A:=A) names !! w
  = if decide (w ∈ names) then Some (mkWorker [] 0) else None.
Proof.
  unfold make_workers.
  assert (∀ (m : gmap nat (Worker A)),
    foldl (λ m w, <[w := mkWorker [] 0]> m) m names !! w
    = if decide (w ∈ names) then Some (mkWorker [] 0) else m !! w) as Hg.
  { induction names as [|x names IH]; intros m; cbn.
    - by rewrite decide_False by apply not_elem_of_nil.
    - rewrite IH. destruct (decide (w ∈ names)) as [Hin|Hin].
      + rewrite decide_True; [done|by apply list_elem_of_further].
      + destruct (decide (w = x)) as [->|Hne].
        * rewrite lookup_insert_eq.
          rewrite decide_True; [done|apply list_elem_of_here].
        * rewrite lookup_insert_ne by done.
          rewrite decide_False; [done|].
          rewrite elem_of_cons. tauto. }
  rewrite Hg. by destruct (decide _).
Qed.

Lemma make_workers_dom (names : list nat) :
  dom (make_workers (A:=A) names) = list_to_set names.
Proof.
  apply set_eq. intros w. rewrite elem_of_dom, make_workers_lookup.
  rewrite elem_of_list_to_set.
  destruct (decide (w ∈ names)) as [Hin|Hin]; split; done.
Qed.

Lemma active_on_insert (m : gmap nat (Worker A)) w wk' w' j :
  active_on (<[w:=wk']> m) w' j
  ↔ (w' = w ∧ j ∈ active_jobs wk') ∨ (w' ≠ w ∧ active_on m w' j).
Proof.
  unfold active_on. destruct (decide (w' = w)) as [->|Hne].
  - rewrite lookup_insert_eq. split.
    + intros (wk & [= <-] & Hj). by left.
    + intros [[_ Hj]|[? _]]; [|done]. by exists wk'.
  - rewrite lookup_insert_ne by done. split.
    + intros Hj. by right.
    + by intros [[? _]|[_ Hj]].
Qed.

(** What a successful [get_job_for_worker] does to the three places. *)
Lemma get_job_transfer q w a q' :
  partition q → get_job_for_worker w q = (Returned a, q') →
  ∃ job, pending q job ∧ arguments job = a
    ∧ _all_jobs q' = _all_jobs q
    ∧ (∀ j, pending q' j ↔ pending q j ∧ j ≠ job)
    ∧ (∀ w' j, active_on (_workers q') w' j
               ↔ active_on (_workers q) w' j ∨ (w' = w ∧ j = job))
    ∧ _finished_jobs q' = _finished_jobs q
    ∧ NoDup (_in_queue q')
    ∧ (∀ w' wk, _workers q' !! w' = Some wk → NoDup (active_jobs wk)).
Proof.
  intros Hp. unfold get_job_for_worker.
  destruct (_in_queue q) as [|job rest] eqn:Hq; [done|]. cbn.
  destruct (_workers q !! w) as [wk|] eqn:Hw; [|done].
  intros [= <- <-]. exists job. cbn.
  pose proof (part_queue_once q Hp) as Hnd. rewrite Hq in Hnd.
  apply NoDup_cons in Hnd as [Hjob Hrest].
  assert (pending q job) as Hpend.
  { unfold pending. rewrite Hq. apply list_elem_of_here. }
  assert (job ∉ active_jobs wk) as Hna.
  { intros Hin. apply (part_pending_active q Hp job Hpend).
    exists w, wk. done. }
  split_and!; try done.
  - intros j. unfold pending; cbn. rewrite Hq, elem_of_cons.
    split; [intros Hj; split; [by right|by intros ->]|].
    intros [[->|?] ?]; done.
  - intros w' j. rewrite active_on_insert. cbn.
    rewrite elem_of_app, list_elem_of_singleton.
    destruct (decide (w' = w)) as [->|Hne].
    + split.
      * intros [[_ [Hin| ->]]|[? _]]; [|by right|done].
        left. by exists wk.
      * intros [(wk' & Hwk' & Hin)|[_ ->]]; [|left; split; [done|by right]].
        left. split; [done|]. left. congruence.
    + split; [intros [[? _]|[_ ?]]; [done|by left]|].
      intros [?|[? _]]; [|done]. by right.
  - intros w' wk'. destruct (decide (w' = w)) as [->|Hne].
    + rewrite lookup_insert_eq. intros [= <-]. cbn.
      apply NoDup_app. split_and!.
      * by eapply (part_active_once q Hp).
      * intros x Hx ->%list_elem_of_singleton. done.
      * apply NoDup_singleton.
    + rewrite lookup_insert_ne by done. apply (part_active_once q Hp).
Qed.

(** What a successful [received_job_from_worker] does. *)
Lemma received_job_transfer q args result w q' :
  partition q → received_job_from_worker args result w q = (Returned tt, q') →
  ∃ job, active_on (_workers q) w job ∧ arguments job = args
    ∧ _all_jobs q' = _all_jobs q
    ∧ _in_queue q' = _in_queue q
    ∧ (∀ w' j, active_on (_workers q') w' j
               ↔ active_on (_workers q) w' j ∧ j ≠ job)
    ∧ _finished_jobs q' = _finished_jobs q ++ [job]
    ∧ (∀ w' wk, _workers q' !! w' = Some wk → NoDup (active_jobs wk))
    ∧ result_of q' job = result.
Proof.
  intros Hp. unfold received_job_from_worker.
  destruct (_workers q !! w) as [wk|] eqn:Hw; [|done].
  destruct (matching_jobs args wk) as [|job [|]] eqn:Hm; [done| |done].
  assert (job ∈ active_jobs wk ∧ arguments job = args) as [Hin Hargs].
  { apply matching_jobs_elem_of. rewrite Hm. apply list_elem_of_here. }
  destruct (list_remove_elem_of _ _ Hin) as (l1 & l2 & Hact & Hl1 & ->).
  cbn. intros [= <-]. exists job. cbn.
  pose proof (part_active_once q Hp w wk Hw) as Hnd.
  rewrite Hact in Hnd. apply NoDup_app in Hnd as (Hnd1 & Hdisj & Hnd2).
  apply NoDup_cons in Hnd2 as [Hl2 Hnd2].
  assert (active_on (_workers q) w job) as Hon by (by exists wk).
  split_and!; try done.
  - intros w' j. rewrite active_on_insert. cbn. rewrite elem_of_app.
    destruct (decide (w' = w)) as [->|Hne].
    + split.
      * intros [[_ Hj]|[? _]]; [|done]. split.
        -- exists wk. split; [done|]. rewrite Hact, elem_of_app, elem_of_cons.
           tauto.
        -- intros ->. tauto.
      * intros [(wk' & Hwk' & Hj) Hne]. left. split; [done|].
        assert (wk' = wk) as -> by congruence.
        rewrite Hact, elem_of_app, elem_of_cons in Hj. tauto.
    + split.
      * intros [[? _]|[_ Hj]]; [done|]. split; [done|]. intros ->.
        apply Hne. by eapply (part_one_worker q Hp).
      * intros [Hj _]. by right.
  - intros w' wk'. destruct (decide (w' = w)) as [->|Hne].
    + rewrite lookup_insert_eq. intros [= <-]. cbn.
      apply NoDup_app. split_and!; [done| |done].
      intros x Hx1 Hx2. apply (Hdisj x Hx1). by apply list_elem_of_further.
    + rewrite lookup_insert_ne by done. apply (part_active_once q Hp).
  - unfold result_of, store_result. cbn. destruct result.
    + apply lookup_insert_eq.
    + apply lookup_delete_eq.
Qed.

Lemma partition_init (jobs : list A) (names : list nat) :
  partition (init (R:=R) jobs names).
Proof.
  assert (∀ j, ¬ active (init (R:=R) jobs names) j) as Hna.
  { intros j (w & wk & Hw & Hj). cbn in Hw.
    rewrite make_workers_lookup in Hw. destruct (decide _); [|done].
    injection Hw as <-. by apply elem_of_nil in Hj. }
  constructor; cbn.
  - intros j. unfold pending, is_finished. cbn. split; [by left|].
    intros [?|[?%Hna|?%elem_of_nil]]; done.
  - intros j _. apply Hna.
  - intros j _ ?%elem_of_nil. done.
  - intros j ?%Hna. done.
  - intros j w1 w2 (wk & Hw & Hj). cbn in Hw.
    rewrite make_workers_lookup in Hw. destruct (decide _); [|done].
    injection Hw as <-. by apply elem_of_nil in Hj.
  - apply make_jobs_NoDup.
  - intros w wk. rewrite make_workers_lookup. destruct (decide _); [|done].
    intros [= <-]. apply NoDup_nil_2.
  - apply NoDup_nil_2.
Qed.

Lemma partition_get q w a q' :
  partition q → get_job_for_worker w q = (Returned a, q') →
  partition q' ∧ moves_one q q'.
Proof.
  intros Hp Hget.
  destruct (get_job_transfer _ _ _ _ Hp Hget)
    as (job & Hpend & _ & Hall & Hpq & Hact & Hfin & Hnd & Hnda).
  assert (∀ j, active q' j ↔ active q j ∨ j = job) as Hact'.
  { intros j. unfold active. split.
    - intros [w' Hw']. apply Hact in Hw' as [?|[_ ->]];
        [left; by exists w'|by right].
    - intros [[w' Hw']| ->]; [exists w'|exists w]; apply Hact; auto. }
  assert (∀ j, is_finished q' j ↔ is_finished q j) as Hfin'.
  { intros j. unfold is_finished. by rewrite Hfin. }
  destruct Hp as [Hc Hpa Hpf Haf Hone Hq1 Hq2 Hq3]. split.
  - constructor; try done.
    + intros j. rewrite Hall, Hc, Hpq, Hact', Hfin'.
      destruct (decide (j = job)) as [->|]; intuition.
    + intros j [Hj Hne]%Hpq [?| ->]%Hact'; [by eapply Hpa|done].
    + intros j [Hj Hne]%Hpq ?%Hfin'. by eapply Hpf.
    + intros j [?| ->]%Hact' ?%Hfin'; [by eapply Haf|by eapply Hpf].
    + intros j w1 w2 [H1|[-> ->]]%Hact [H2|[-> E2]]%Hact; try done.
      * by eapply Hone.
      * subst j. exfalso. eapply Hpa; [done|]. by exists w1.
      * exfalso. eapply Hpa; [done|]. by exists w2.
    + by rewrite Hfin.
  - exists job. split.
    + left. split_and!; [done| |done]. apply Hact'. by right.
    + intros j' Hne. split_and!.
      * rewrite Hpq. tauto.
      * intros w'. rewrite Hact. tauto.
      * by rewrite Hfin'.
Qed.

Lemma partition_received q args result w q' :
  partition q → received_job_from_worker args result w q = (Returned tt, q') →
  partition q' ∧ moves_one q q'.
Proof.
  intros Hp Hrec.
  destruct (received_job_transfer _ _ _ _ _ Hp Hrec)
    as (job & Hon & _ & Hall & Hq & Hact & Hfin & Hnda & _).
  assert (active q job) as Hactive by (by exists w).
  assert (∀ j, pending q' j ↔ pending q j) as Hpq.
  { intros j. unfold pending. by rewrite Hq. }
  assert (∀ j, active q' j ↔ active q j ∧ j ≠ job) as Hact'.
  { intros j. unfold active. split.
    - intros [w' [? ?]%Hact]. split; [by exists w'|done].
    - intros [[w' Hw'] ?]. exists w'. by apply Hact. }
  assert (∀ j, is_finished q' j ↔ is_finished q j ∨ j = job) as Hfin'.
  { intros j. unfold is_finished.
    rewrite Hfin, elem_of_app, list_elem_of_singleton. done. }
  destruct Hp as [Hc Hpa Hpf Haf Hone Hq1 Hq2 Hq3].
  assert (job ∉ _finished_jobs q) as Hnf by (by apply Haf).
  split.
  - constructor; try done.
    + intros j. rewrite Hall, Hc, Hpq, Hact', Hfin'.
      destruct (decide (j = job)) as [->|]; intuition.
    + intros j Hj%Hpq [? _]%Hact'. by eapply Hpa.
    + intros j Hj%Hpq [?| ->]%Hfin'; [by eapply Hpf|by eapply Hpa].
    + intros j [? ?]%Hact' [?| ->]%Hfin'; [by eapply Haf|done].
    + intros j w1 w2 [H1 _]%Hact [H2 _]%Hact. by eapply Hone.
    + by rewrite Hq.
    + rewrite Hfin. apply NoDup_app. split_and!; [done| |apply NoDup_singleton].
      intros x Hx ->%list_elem_of_singleton. done.
  - exists job. split.
    + right. done.
    + intros j' Hne. split_and!.
      * by rewrite Hpq.
      * intros w'. rewrite Hact. tauto.
      * rewrite Hfin'. tauto.
Qed.

Lemma partition_step o q q' :
  partition q → step o q = (Returned tt, q') → partition q' ∧ moves_one q q'.
Proof.
  intros Hp. destruct o as [w|args result w]; cbn.
  - destruct (get_job_for_worker w q) as [[a|e] q1] eqn:Hget; [|done].
    intros [= <-]. by eapply partition_get.
  - by apply partition_received.
Qed.

Lemma run_invariant ops q q' :
  partition q → run ops q = Some q' →
  partition q' ∧ _all_jobs q' = _all_jobs q.
Proof.
  revert q. induction ops as [|o ops IH]; intros q Hp; cbn.
  - by intros [= <-].
  - destruct (step o q) as [[[]|e] q1] eqn:Hstep; [|done].
    intros Hrun. destruct (partition_step _ _ _ Hp Hstep) as [Hp1 _].
    destruct (IH _ Hp1 Hrun) as [? ->]. split; [done|].
    destruct o as [w|args result w]; cbn in Hstep.
    + destruct (get_job_for_worker w q) as [[a|e] q2] eqn:Hget; [|done].
      injection Hstep as <-.
      by destruct (get_job_transfer _ _ _ _ Hp Hget) as (? & _ & _ & ? & _).
    + by destruct (received_job_transfer _ _ _ _ _ Hp Hstep)
        as (? & _ & _ & ? & _).
Qed.
End job_queue_facts.

Section job_queue_claims.
Import JobQueue Ledger.
Context {A R : Type} `{EqDecision A}.
Implicit Types (q : JobQueueHelper A R) (j job : Job A).

(** C5.  From every initial job list, after every sequence of
    [get_job_for_worker] and [received_job_from_worker] calls that all
    succeed, the jobs in the queue, the jobs active on the workers and
    the finished jobs are pairwise disjoint, no job occurs twice, and
    together they are exactly the jobs made from the initial list; every
    further successful operation moves exactly one job, from pending to
    active or from active to the end of the finished list (where it was
    not before), and leaves a partition again. *)
Theorem ledger_partition (jobs : list A) (names : list nat)
    (ops : list (op A R)) q :
  run ops (init jobs names) = Some q →
  _all_jobs q = make_jobs jobs
  ∧ arguments <$> _all_jobs q = jobs
  ∧ partition q
  ∧ ∀ o q', step o q = (Returned tt, q') → moves_one q q' ∧ partition q'.
Proof.
  intros Hrun.
  destruct (run_invariant _ _ _ (partition_init jobs names) Hrun) as [Hp Hall].
  cbn in Hall. split_and!; [done| |done|].
  - rewrite Hall. apply make_jobs_arguments.
  - intros o q' Hstep. destruct (partition_step _ _ _ Hp Hstep). done.
Qed.

(** C6, as amended.  [get_job_for_worker] raises on an empty queue and
    leaves the ledger as it was; on a non-empty queue and for a worker
    registered at construction it removes the head job, appends it to
    that worker's active jobs, changes nothing else, and returns the
    job's arguments; requests of registered workers are therefore served
    in the order of the queue, which starts as the original job list. *)
Theorem get_job_for_worker_registered q :
  (∀ w, _in_queue q = [] → get_job_for_worker w q = (Raised IndexError, q))
  ∧ (∀ w job rest wk,
       _in_queue q = job :: rest → _workers q !! w = Some wk →
       get_job_for_worker w q
       = (Returned (arguments job),
          mkQueue (_all_jobs q) rest (_finished_jobs q)
            (_poison_pills_received q)
            (<[w := mkWorker (active_jobs wk ++ [job])
                             (completed_jobs_count wk)]> (_workers q))
            (job_result q)))
  ∧ (∀ ws, Forall (λ w, is_Some (_workers q !! w)) ws →
       length ws ≤ length (_in_queue q) →
       hand_out ws q
       = Returned <$> take (length ws) (@arguments A <$> _in_queue q))
  ∧ (∀ (jobs : list A) names,
       arguments <$> _in_queue (init (R:=R) jobs names) = jobs).
Proof.
  split_and!.
  - intros w Hq. unfold get_job_for_worker. by rewrite Hq.
  - intros w job rest wk Hq Hw. unfold get_job_for_worker. rewrite Hq. cbn.
    by rewrite Hw.
  - intros ws. revert q. induction ws as [|w ws IH]; intros q Hreg Hlen;
      [done|].
    apply Forall_cons in Hreg as [[wk Hw] Hreg].
    destruct (_in_queue q) as [|job rest] eqn:Hq; [cbn in Hlen; lia|].
    cbn [hand_out]. unfold get_job_for_worker. rewrite Hq. cbn.
    rewrite Hw. cbn. f_equal.
    rewrite IH; cbn.
    + done.
    + eapply Forall_impl; [exact Hreg|]. intros w' [wk' Hw']. cbn.
      destruct (decide (w' = w)) as [->|Hne].
      * rewrite lookup_insert_eq. by eexists.
      * rewrite lookup_insert_ne by done. by eexists.
    + cbn in Hlen. lia.
  - intros jobs names. cbn. apply make_jobs_arguments.
Qed.

(** C7.  For a call of [received_job_from_worker args result worker] on
    a registered worker: when exactly one job of the worker's active list
    has the arguments [args], that job leaves the active list (its first
    occurrence is removed), its result slot becomes [result], the
    worker's completed count grows by one and the job is appended to the
    finished jobs, nothing else changes; when no job or more than one job
    matches, [ValueError] is raised and the ledger is as before the
    call.  For a worker without an entry the call raises and changes
    nothing either. *)
Theorem received_job_from_worker_spec q args result w :
  (∀ wk job, _workers q !! w = Some wk → matching_jobs args wk = [job] →
     ∃ l1 l2 q',
       active_jobs wk = l1 ++ (job :: l2) ∧ (job ∉ l1) ∧ arguments job = args
       ∧ received_job_from_worker args result w q = (Returned tt, q')
       ∧ q' = mkQueue (_all_jobs q) (_in_queue q) (_finished_jobs q ++ [job])
                (_poison_pills_received q)
                (<[w := mkWorker (l1 ++ l2) (completed_jobs_count wk + 1)]>
                   (_workers q))
                (store_result job result (job_result q))
       ∧ result_of q' job = result)
  ∧ (∀ wk, _workers q !! w = Some wk → length (matching_jobs args wk) ≠ 1 →
       received_job_from_worker args result w q = (Raised ValueError, q))
  ∧ (_workers q !! w = None →
       received_job_from_worker args result w q = (Raised KeyError, q)).
Proof.
  split_and!.
  - intros wk job Hw Hm.
    assert (job ∈ active_jobs wk ∧ arguments job = args) as [Hin Hargs].
    { apply matching_jobs_elem_of. rewrite Hm. apply list_elem_of_here. }
    destruct (list_remove_elem_of _ _ Hin) as (l1 & l2 & Hact & Hl1 & Hrm).
    exists l1, l2. eexists. split_and!; [done..| |reflexivity|].
    + unfold received_job_from_worker. rewrite Hw, Hm, Hrm. reflexivity.
    + unfold result_of, store_result. cbn. destruct result.
      * apply lookup_insert_eq.
      * apply lookup_delete_eq.
  - intros wk Hw Hlen. unfold received_job_from_worker. rewrite Hw.
    by destruct (matching_jobs args wk) as [|? [|]].
  - intros Hw. unfold received_job_from_worker. by rewrite Hw.
Qed.
End job_queue_claims.

Local Open Scope string_scope.

Lemma ledger_partition_witness :
  ∃ q, Ledger.run [Ledger.GetJob 1; Ledger.GetJob 2;
                   Ledger.ReceivedJob ("BW.A", "raw") (Some "2 Trace(s)") 1]
         (JobQueue.init [("BW.A", "raw"); ("BW.B", "raw")] [1; 2]) = Some q
       ∧ Ledger.partition q.
Proof.
  eexists. split; [vm_compute; reflexivity|].
  refine (proj1 (proj2 (proj2
    (ledger_partition (R:=string) [("BW.A", "raw"); ("BW.B", "raw")] [1; 2]
       [Ledger.GetJob 1; Ledger.GetJob 2;
        Ledger.ReceivedJob ("BW.A", "raw") (Some "2 Trace(s)") 1] _ _)))).
  vm_compute. reflexivity.
Defined.

(** C6 as stated fails: with a job waiting, a request in the name of a
    worker that was not registered raises [KeyError] (after the head job
    was popped). *)
Lemma get_job_for_worker_unregistered :
  ¬ (∀ (q : JobQueue.JobQueueHelper station_tag string) w job rest,
       JobQueue._in_queue q = job :: rest →
       ∃ q', JobQueue.get_job_for_worker w q
             = (Returned (JobQueue.arguments job), q')).
Proof.
  intros Hall.
  destruct (Hall (JobQueue.init [("BW.A", "raw")] [1]) 2
              (JobQueue.mkJob 0 ("BW.A", "raw")) [] eq_refl) as [q' Hq'].
  vm_compute in Hq'. discriminate Hq'.
Qed.

Lemma get_job_for_worker_registered_witness :
  JobQueue.get_job_for_worker 1
    (JobQueue.init (R:=string) [("BW.A", "raw"); ("BW.B", "raw")] [1])
  = (Returned ("BW.A", "raw"),
     JobQueue.mkQueue
       [JobQueue.mkJob 0 ("BW.A", "raw"); JobQueue.mkJob 1 ("BW.B", "raw")]
       [JobQueue.mkJob 1 ("BW.B", "raw")] [] 0
       {[1 := JobQueue.mkWorker [JobQueue.mkJob 0 ("BW.A", "raw")] 0]} ∅).
Proof.
  pose proof (get_job_for_worker_registered
    (JobQueue.init (R:=string) [("BW.A", "raw"); ("BW.B", "raw")] [1]))
    as (_ & Hget & _).
  rewrite (Hget 1 (JobQueue.mkJob 0 ("BW.A", "raw"))
             [JobQueue.mkJob 1 ("BW.B", "raw")] (JobQueue.mkWorker [] 0)
             eq_refl eq_refl).
  vm_compute. reflexivity.
Defined.

Lemma received_job_from_worker_spec_witness :
  ∃ q', JobQueue.received_job_from_worker ("BW.A", "raw") (Some "1 Trace(s)") 1
          (JobQueue.get_job_for_worker 1
             (JobQueue.init (R:=string) [("BW.A", "raw")] [1])).2
        = (Returned tt, q')
        ∧ JobQueue.result_of q' (JobQueue.mkJob 0 ("BW.A", "raw"))
          = Some "1 Trace(s)".
Proof.
  destruct (proj1 (received_job_from_worker_spec
                     (JobQueue.get_job_for_worker 1
                        (JobQueue.init (R:=string) [("BW.A", "raw")] [1])).2
                     ("BW.A", "raw") (Some "1 Trace(s)") 1)
              (JobQueue.mkWorker [JobQueue.mkJob 0 ("BW.A", "raw")] 0)
              (JobQueue.mkJob 0 ("BW.A", "raw"))
              ltac:(vm_compute; reflexivity) ltac:(vm_compute; reflexivity))
    as (l1 & l2 & q' & _ & _ & _ & Hr & _ & Hres).
  exists q'. split; [exact Hr|exact Hres].
Defined.

(** ** The master *)

Section master_facts.
Import JobQueue Master MasterRun.

Lemma get_job_for_worker_counters {A R} `{EqDecision A}
    (q : JobQueueHelper A R) w :
  let q' := (get_job_for_worker w q).2 in
  dom (_workers q') = dom (_workers q)
  ∧ _poison_pills_received q' = _poison_pills_received q.
Proof.
  unfold get_job_for_worker. destruct (_in_queue q); [done|]. cbn.
  destruct (_workers q !! w) eqn:Hw; [|done]. cbn. split; [|done].
  apply dom_insert_lookup_L. by eexists.
Qed.

Lemma received_job_counters {A R} `{EqDecision A}
    (q : JobQueueHelper A R) args result w :
  let q' := (received_job_from_worker args result w q).2 in
  dom (_workers q') = dom (_workers q)
  ∧ _poison_pills_received q' = _poison_pills_received q.
Proof.
  unfold received_job_from_worker.
  destruct (_workers q !! w) eqn:Hw; [|done].
  destruct (matching_jobs _ _) as [|job [|]]; [done| |done].
  destruct (list_remove _ _); [|done]. cbn. split; [|done].
  apply dom_insert_lookup_L. by eexists.
Qed.

Lemma dispatch_counters source tag msg m :
  let m' := (dispatch source tag msg m).2 in
  dom (_workers (jobs m')) = dom (_workers (jobs m))
  ∧ _poison_pills_received (jobs m')
    = _poison_pills_received (jobs m)
      + (if decide (tag = POISON_PILL_RECEIVED) then 1 else 0).
Proof.
  destruct (decide (tag = POISON_PILL_RECEIVED)) as [->|Hne];
    [cbn; split; [done|lia]|].
  rewrite Nat.add_0_r.
  destruct tag; cbn; try done.
  - destruct (queue_empty (jobs m)); [done|].
    pose proof (get_job_for_worker_counters (jobs m) source) as Hc.
    cbn in Hc. by destruct (get_job_for_worker source (jobs m)) as [[a|e] q].
  - destruct msg as [|st0| |st result]; try done;
      [by destruct (_workers (jobs m) !! source)|].
    pose proof (received_job_counters (jobs m) st (Some result) source) as Hc.
    cbn in Hc.
    by destruct (received_job_from_worker st (Some result) source (jobs m))
      as [[a|e] q].
Qed.

Lemma handle_counters msgs m m' :
  handle msgs m = (Returned tt, m') →
  dom (_workers (jobs m')) = dom (_workers (jobs m))
  ∧ _poison_pills_received (jobs m')
    = _poison_pills_received (jobs m) + length (acknowledged msgs).
Proof.
  revert m. induction msgs as [|[[source tag] msg] msgs IH]; intros m; cbn.
  - intros [= <-]. split; [done|lia].
  - pose proof (dispatch_counters source tag msg m) as [Hd Hp]. cbn in Hd, Hp.
    destruct (dispatch source tag msg m) as [[out|e] m1]; [|done].
    intros [Hd' Hp']%IH. cbn in Hd, Hp. rewrite Hd', Hd, Hp', Hp.
    split; [done|]. unfold acknowledged. cbn.
    destruct (decide (tag = POISON_PILL_RECEIVED)); cbn; lia.
Qed.

Lemma start_workers_size station_tags size :
  base.size (_workers (jobs (start station_tags size)))
  = length (worker_nodes size).
Proof.
  cbn. rewrite <- size_dom, make_workers_dom.
  apply size_list_to_set, NoDup_seq.
Qed.

Lemma NoDup_same_length (l k : list nat) :
  NoDup l → NoDup k → (∀ x, x ∈ l → x ∈ k) →
  length l = length k ↔ ∀ x, x ∈ k → x ∈ l.
Proof.
  intros Hl Hk Hsub. pose proof (NoDup_submseteq _ _ Hl Hsub) as Hlk. split.
  - intros Hlen x Hx.
    assert (l ≡ₚ k) as ->; [|done].
    apply submseteq_length_Permutation; [done|lia].
  - intros Hsup. pose proof (NoDup_submseteq _ _ Hk Hsup) as Hkl.
    apply submseteq_length in Hlk, Hkl. lia.
Qed.
End master_facts.

Section master_claims.
Import JobQueue Master MasterRun.

(** C3, as amended.  After the master has handled any sequence of
    messages without an exception, [all_poison_pills_received] is true
    exactly when the number of [POISON_PILL_RECEIVED] messages handled
    equals the number of workers; when no worker acknowledged twice and
    only workers acknowledged (which is how the worker loop behaves, see
    [worker_acknowledges_once] below), this is the case exactly when every
    worker has acknowledged. *)
Theorem all_poison_pills_received_counts station_tags size msgs m :
  handle msgs (start station_tags size) = (Returned tt, m) →
  (all_poison_pills_received (jobs m) = true
   ↔ length (acknowledged msgs) = length (worker_nodes size))
  ∧ (NoDup (acknowledged msgs) →
     (∀ w, w ∈ acknowledged msgs → w ∈ worker_nodes size) →
     (all_poison_pills_received (jobs m) = true
      ↔ ∀ w, w ∈ worker_nodes size → w ∈ acknowledged msgs)).
Proof.
  intros Hrun. apply handle_counters in Hrun as [Hd Hp].
  assert (all_poison_pills_received (jobs m) = true
          ↔ length (acknowledged msgs) = length (worker_nodes size)) as Hcount.
  { unfold all_poison_pills_received. rewrite bool_decide_eq_true.
    rewrite <- size_dom, Hd, size_dom, start_workers_size, Hp. cbn.
    split; intros; lia. }
  split; [done|]. intros Hnd Hsub. rewrite Hcount.
  apply NoDup_same_length; [done|apply NoDup_seq|done].
Qed.

(** C4, as amended.  For a rank count up to 2^53, where [0.5 * N] is
    exact: in a pass through the master's loop body the collective phase
    is entered exactly when the number [w] of workers waiting to write
    is at least the ceiling of half the number of ranks, or when [w] is
    at least one and [all_poison_pills_received] holds, which after any
    messages handled without an exception means that as many
    [POISON_PILL_RECEIVED] messages were handled as there are workers;
    when no worker acknowledged twice and only workers acknowledged, it
    means that every worker has acknowledged.  The test [w >= 0.5 * N]
    is the ceiling threshold for all integers [w] and all [N] in that
    range. *)
Theorem collective_phase_threshold (size : nat)
    (incoming : nat * msg_tag * payload) (m : state) :
  (Z.of_nat size ≤ 2 ^ 53)%Z →
  let w := Z.of_nat (length (workers_requesting_write m)) in
  ((∃ forced m', loop_body size incoming m = (CollectivePhase forced, m'))
   ↔ (Qceiling (Z.of_nat size # 2) ≤ w)%Z
     ∨ ((1 ≤ w)%Z ∧ all_poison_pills_received (jobs m) = true))
  ∧ (enters_collective size m = true
     ↔ (Qceiling (Z.of_nat size # 2) ≤ w)%Z
       ∨ ((1 ≤ w)%Z ∧ all_poison_pills_received (jobs m) = true))
  ∧ (∀ station_tags msgs,
       handle msgs (start station_tags size) = (Returned tt, m) →
       (enters_collective size m = true
        ↔ (Qceiling (Z.of_nat size # 2) ≤ w)%Z
          ∨ ((1 ≤ w)%Z
             ∧ length (acknowledged msgs) = length (worker_nodes size)))
       ∧ (NoDup (acknowledged msgs) →
          (∀ a, a ∈ acknowledged msgs → a ∈ worker_nodes size) →
          (enters_collective size m = true
           ↔ (Qceiling (Z.of_nat size # 2) ≤ w)%Z
             ∨ ((1 ≤ w)%Z
                ∧ ∀ a, a ∈ worker_nodes size → a ∈ acknowledged msgs))))
  ∧ ∀ w N : Z, (- 2 ^ 53 ≤ N ≤ 2 ^ 53)%Z →
      (half_fleet_waiting w N = true ↔ (Qceiling (N # 2) ≤ w)%Z).
Proof.
  intros _ w.
  assert (∀ w N : Z, half_fleet_waiting w N = true ↔ (Qceiling (N # 2) ≤ w)%Z)
    as Hhalf.
  { intros w' N. unfold half_fleet_waiting. rewrite Qle_bool_iff.
    unfold Qle, Qceiling, Qfloor, Qopp. cbn.
    rewrite Z.mul_1_r. change (Z.pos (1 * 2)) with 2%Z.
    destruct N as [|p|p]; cbn [Z.opp Z.mul];
      Z.to_euclidean_division_equations; lia. }
  assert (enters_collective size m = true
          ↔ (Qceiling (Z.of_nat size # 2) ≤ w)%Z
            ∨ ((1 ≤ w)%Z ∧ all_poison_pills_received (jobs m) = true)) as Hent.
  { unfold enters_collective. rewrite orb_true_iff, andb_true_iff, Hhalf.
    rewrite negb_true_iff, Nat.eqb_neq. subst w. split.
    - intros [?|[? ?]]; [by left|right; split; [lia|done]].
    - intros [?|[? ?]]; [by left|right; split; [lia|done]]. }
  split_and!; [|done| |intros w' N _; apply Hhalf].
  - rewrite <- Hent. unfold loop_body.
    destruct (enters_collective size m).
    + split; [done|]. intros _. by do 2 eexists.
    + split; [|done]. intros (forced & m' & Heq).
      destruct incoming as [[source tag] msg].
      by destruct (dispatch source tag msg m).
  - intros station_tags msgs Hrun. apply handle_counters in Hrun as [Hd Hp].
    assert (all_poison_pills_received (jobs m) = true
            ↔ length (acknowledged msgs) = length (worker_nodes size))
      as Hcount.
    { unfold all_poison_pills_received. rewrite bool_decide_eq_true.
      rewrite <- size_dom, Hd, size_dom, start_workers_size, Hp. cbn.
      split; intros; lia. }
    split; [by rewrite Hent, Hcount|].
    intros Hnd Hsub. rewrite Hent, Hcount.
    by rewrite (NoDup_same_length _ _ Hnd (NoDup_seq _ _) Hsub).
Qed.
End master_claims.

(** C3 as stated fails: with two workers, two acknowledgements of worker 1
    make the predicate true although worker 2 never acknowledged. *)
Lemma all_poison_pills_received_not_per_worker :
  ¬ (∀ station_tags size msgs m,
       MasterRun.handle msgs (Master.start station_tags size) = (Returned tt, m) →
       (JobQueue.all_poison_pills_received (Master.jobs m) = true
        ↔ ∀ w, w ∈ Master.worker_nodes size → w ∈ MasterRun.acknowledged msgs)).
Proof.
  intros Hall.
  pose (msgs := [(1, POISON_PILL_RECEIVED, PNone); (1, POISON_PILL_RECEIVED, PNone)]).
  destruct (MasterRun.handle msgs (Master.start [("BW.A", "raw")] 3))
    as [o m] eqn:Hrun.
  vm_compute in Hrun. injection Hrun as <- <-.
  specialize (Hall [("BW.A", "raw")] 3 msgs _ eq_refl) as [Hall _].
  specialize (Hall ltac:(vm_compute; reflexivity) 2
                   ltac:(vm_compute; apply list_elem_of_further, list_elem_of_here)).
  vm_compute in Hall.
  apply elem_of_cons in Hall as [[=]|Hall].
  apply elem_of_cons in Hall as [[=]|Hall].
  by apply elem_of_nil in Hall.
Qed.

Lemma all_poison_pills_received_counts_witness :
  JobQueue.all_poison_pills_received
    (Master.jobs
       (MasterRun.handle
          [(2, POISON_PILL_RECEIVED, PNone); (1, POISON_PILL_RECEIVED, PNone)]
          (Master.start [("BW.A", "raw")] 3)).2) = true
  ↔ ∀ w, w ∈ Master.worker_nodes 3
         → w ∈ MasterRun.acknowledged
               [(2, POISON_PILL_RECEIVED, PNone); (1, POISON_PILL_RECEIVED, PNone)].
Proof.
  refine (proj2 (all_poison_pills_received_counts [("BW.A", "raw")] 3
            [(2, POISON_PILL_RECEIVED, PNone); (1, POISON_PILL_RECEIVED, PNone)]
            _ _) _ _).
  - vm_compute. reflexivity.
  - vm_compute. apply NoDup_cons. split.
    + intros [[=]|?%elem_of_nil]%elem_of_cons. done.
    + apply NoDup_singleton.
  - intros w. vm_compute.
    intros [->|[->|?%elem_of_nil]%elem_of_cons]%elem_of_cons; [| |done].
    + apply list_elem_of_further, list_elem_of_here.
    + apply list_elem_of_here.
Defined.

(** C4 as stated fails where C3 does: with three ranks, after two
    acknowledgements of worker 1 and one request to write the master
    enters the collective phase with one worker waiting, below the
    threshold of two, although worker 2 never acknowledged. *)
Lemma collective_phase_not_per_worker :
  ¬ (∀ size station_tags msgs m incoming,
       (2 ≤ size)%nat →
       MasterRun.handle msgs (Master.start station_tags size)
       = (Returned tt, m) →
       let w := Z.of_nat (length (Master.workers_requesting_write m)) in
       ((∃ forced m',
           Master.loop_body size incoming m
           = (Master.CollectivePhase forced, m'))
        ↔ (Qceiling (Z.of_nat size # 2) ≤ w)%Z
          ∨ ((1 ≤ w)%Z
             ∧ ∀ a, a ∈ Master.worker_nodes size
                    → a ∈ MasterRun.acknowledged msgs))).
Proof.
  intros Hall.
  pose (msgs := [(1, POISON_PILL_RECEIVED, PNone);
                 (1, POISON_PILL_RECEIVED, PNone);
                 (1, WORKER_REQUESTS_WRITE, PNone)]).
  destruct (MasterRun.handle msgs (Master.start [("BW.A", "raw")] 3))
    as [o m] eqn:Hrun.
  vm_compute in Hrun. injection Hrun as <- <-.
  specialize (Hall 3 [("BW.A", "raw")] msgs _
                   (1, WORKER_REQUESTS_ITEM, PNone) ltac:(lia) eq_refl).
  cbv zeta in Hall. destruct Hall as [Hall _].
  destruct Hall as [Hlow|[_ Hack]].
  - do 2 eexists. vm_compute. reflexivity.
  - vm_compute in Hlow. by apply Hlow.
  - specialize (Hack 2 ltac:(vm_compute;
                  apply list_elem_of_further, list_elem_of_here)).
    vm_compute in Hack.
    apply elem_of_cons in Hack as [[=]|Hack].
    apply elem_of_cons in Hack as [[=]|Hack].
    by apply elem_of_nil in Hack.
Qed.

Lemma collective_phase_threshold_witness :
  Master.enters_collective 3
    (MasterRun.handle
       [(2, POISON_PILL_RECEIVED, PNone); (1, POISON_PILL_RECEIVED, PNone);
        (1, WORKER_REQUESTS_WRITE, PNone)]
       (Master.start [("BW.A", "raw")] 3)).2 = true.
Proof.
  pose proof (collective_phase_threshold 3 (1, WORKER_REQUESTS_ITEM, PNone)
    (MasterRun.handle
       [(2, POISON_PILL_RECEIVED, PNone); (1, POISON_PILL_RECEIVED, PNone);
        (1, WORKER_REQUESTS_WRITE, PNone)]
       (Master.start [("BW.A", "raw")] 3)).2) as Hthm.
  destruct Hthm as (_ & _ & Hrun & _); [vm_compute; discriminate|].
  destruct (Hrun [("BW.A", "raw")]
              [(2, POISON_PILL_RECEIVED, PNone); (1, POISON_PILL_RECEIVED, PNone);
               (1, WORKER_REQUESTS_WRITE, PNone)]) as [_ Hper];
    [vm_compute; reflexivity|].
  apply Hper.
  - vm_compute. apply NoDup_cons. split.
    + intros Hin%list_elem_of_singleton. discriminate Hin.
    + apply NoDup_singleton.
  - intros a Ha. vm_compute in Ha. vm_compute.
    apply elem_of_cons in Ha as [->|Ha].
    + apply list_elem_of_further, list_elem_of_here.
    + apply list_elem_of_singleton in Ha as ->. apply list_elem_of_here.
  - right. split; [vm_compute; discriminate|].
    intros a Ha. vm_compute in Ha. vm_compute.
    apply elem_of_cons in Ha as [->|Ha].
    + apply list_elem_of_further, list_elem_of_here.
    + apply list_elem_of_singleton in Ha as ->. apply list_elem_of_here.
Defined.

(** ** The waveform store *)

Section store_claims.
Import Store.

Lemma extract_id_outcome (a : id_arg) :
  (a = IdOther None ∧ extract_id a = Raised TypeError)
  ∨ (a ≠ IdOther None ∧ ∃ v, extract_id a = Returned v).
Proof.
  destruct a as [| | | |[rid|]]; cbn; first [by left|right; split; [done|by eexists]].
Qed.

(** C10, as amended.  For every waveform argument, every four id
    arguments and every tag whose stripped, lower-cased form is
    ["stationxml"], [add_waveforms] raises before a trace is extracted or
    written: the outcome does not depend on the waveform argument and
    the data set is left as it was.  The exception is [ValueError] when
    the four ids are absent or convertible, and the [TypeError] of the id
    blocks when one of them is not. *)
Theorem add_waveforms_rejects_stationxml waveform tag
    (event_id origin_id magnitude_id focal_mechanism_id : id_arg) ds :
  PyStr.lower (PyStr.strip tag) = "stationxml" →
  add_waveforms waveform tag event_id origin_id magnitude_id
                focal_mechanism_id ds
  = (Raised (if bool_decide (IdOther None ∈ [event_id; origin_id; magnitude_id;
                                              focal_mechanism_id])
             then TypeError else ValueError), ds).
Proof.
  intros Htag. unfold add_waveforms.
  destruct (extract_id_outcome event_id) as [[-> ->]|[He [? ->]]];
    [by rewrite bool_decide_eq_true_2 by apply list_elem_of_here|].
  destruct (extract_id_outcome origin_id) as [[-> ->]|[Ho [? ->]]].
  { rewrite bool_decide_eq_true_2; [done|].
    apply list_elem_of_further, list_elem_of_here. }
  destruct (extract_id_outcome magnitude_id) as [[-> ->]|[Hm [? ->]]].
  { rewrite bool_decide_eq_true_2; [done|].
    do 2 apply list_elem_of_further. apply list_elem_of_here. }
  destruct (extract_id_outcome focal_mechanism_id) as [[-> ->]|[Hf [? ->]]].
  { rewrite bool_decide_eq_true_2; [done|].
    do 3 apply list_elem_of_further. apply list_elem_of_here. }
  rewrite Htag. cbn.
  rewrite bool_decide_eq_false_2; [done|].
  rewrite !elem_of_cons, elem_of_nil. intros [?|[?|[?|[?|[]]]]]; congruence.
Qed.

End store_claims.

(** C10 as stated fails: with an id argument that cannot be converted the
    call raises [TypeError], not [ValueError]. *)
Lemma add_waveforms_stationxml_type_error :
  ¬ (∀ waveform tag event_id origin_id magnitude_id focal_mechanism_id ds,
       PyStr.lower (PyStr.strip tag) = "stationxml" →
       (Store.add_waveforms waveform tag event_id origin_id magnitude_id
                            focal_mechanism_id ds).1 = Raised ValueError).
Proof.
  intros Hall.
  specialize (Hall (Store.WStream []) " StationXML " (Store.IdOther None)
                   Store.IdNone Store.IdNone Store.IdNone
                   (Store.mkDataSet ∅ (None, None) false []) eq_refl).
  vm_compute in Hall. discriminate Hall.
Qed.

Lemma add_waveforms_rejects_stationxml_witness :
  Store.add_waveforms (Store.WStream []) " StationXML " Store.IdNone
    (Store.IdResource "smi:local/origin") Store.IdNone Store.IdNone
    (Store.mkDataSet ∅ (Some "gzip", Some 3%Z) false [])
  = (Raised ValueError, Store.mkDataSet ∅ (Some "gzip", Some 3%Z) false []).
Proof.
  exact (add_waveforms_rejects_stationxml (Store.WStream []) " StationXML "
           Store.IdNone (Store.IdResource "smi:local/origin") Store.IdNone
           Store.IdNone (Store.mkDataSet ∅ (Some "gzip", Some 3%Z) false [])
           eq_refl).
Defined.



(** ** The workers *)

Section worker_facts.
Import Store Worker.
Variable process_function :
  Stream → option (list Z) → Stream * outcome (option Stream).
Variable get_data_for_tag :
  string → string → outcome (Stream * option (list Z)).
Variable tag_map : gmap string string.
Variable buffer_full : gmap station_tag Stream → bool.

(** The [except] branch of the worker only prints: whatever the user
    function raises, the stream is put into the buffer. *)
Lemma process_item_after_raise (st : station_tag) w stream inv stream' e :
  get_data_for_tag st.1 st.2 = Returned (stream, inv) →
  process_function stream inv = (stream', Raised e) →
  ∃ w', process_item process_function get_data_for_tag buffer_full st w
        = (Returned tt, w')
        ∧ stream_buffer w' !! st = Some stream'
        ∧ log w' = (log w ++ [ErrorDuringProcessing e])%list.
Proof.
  intros Hget Hpf. unfold process_item. rewrite Hget, Hpf.
  destruct (buffer_full _); eexists; (split; [reflexivity|]); cbn;
    by rewrite lookup_insert_eq.
Qed.

(** The process of the local scheduler does not guard the call: the
    exception ends [run], nothing is written for the job and the items
    behind it stay in the queue. *)
Lemma local_run_after_raise station tag rest out stream inv stream' e :
  get_data_for_tag station tag = Returned (stream, inv) →
  process_function stream inv = (stream', Raised e) →
  LocalScheduler.run process_function get_data_for_tag tag_map
                     (PItem (station, tag) :: rest) out
  = (Raised e, rest, out).
Proof. intros Hget Hpf. cbn. by rewrite Hget, Hpf. Qed.
End worker_facts.

Section worker_acknowledgements.
Import Store Worker WorkerRun.
Variable process_function :
  Stream → option (list Z) → Stream * outcome (option Stream).
Variable get_data_for_tag :
  string → string → outcome (Stream * option (list Z)).
Variable tag_map : gmap string string.
Variable buffer_full : gmap station_tag Stream → bool.
Variable str_stream : Stream → string.

(** Counting the acknowledgements of a state built from [w]. *)
Ltac count_acknowledgements :=
  unfold acknowledged_once, acknowledgements in *; cbn in *;
  rewrite ?filter_app, ?length_app, ?filter_cons_True, ?filter_cons_False,
    ?filter_nil by done;
  cbn; rewrite ?decide_True, ?decide_False by done; cbn; try lia.

Lemma flush_items_keeps items w :
  let w' := (flush_items str_stream items w).2 in
  acknowledgements w' = acknowledgements w ∧ worker_state w' = worker_state w.
Proof.
  revert w. induction items as [|[key value] rest IH]; intros w; [done|].
  cbn [flush_items].
  destruct (write_stream value (output_dataset w)) as [[[]|e] ds]; [|done].
  destruct (IH (_send_mpi (PDone key (str_stream value)) WORKER_DONE_WITH_ITEM
                          (set_output ds w))) as [Ha Hf].
  cbv zeta. rewrite Ha, Hf. split; [|done]. count_acknowledgements.
Qed.

Lemma sync_metadata_keeps lo hi w :
  let w' := (_sync_metadata tag_map lo hi w).2 in
  outbox w' = outbox w ∧ worker_state w' = worker_state w.
Proof.
  unfold _sync_metadata.
  destruct (describe_buffer _ _ _) as [[[items sendobj]|e] ds]; [|done].
  by destruct (write_collective _ _) as [[[]|e] ds'].
Qed.

Lemma forced_write_keeps lo hi w :
  let w' := (forced_write tag_map str_stream lo hi w).2 in
  acknowledgements w' = acknowledgements w
  ∧ poison_pill_received (worker_state w')
    = poison_pill_received (worker_state w).
Proof.
  unfold forced_write.
  pose proof (sync_metadata_keeps lo hi w) as [Ho Hf]. cbv zeta in Ho, Hf.
  destruct (_sync_metadata tag_map lo hi w) as [[[]|e] w1]; cbn [snd] in *.
  - pose proof (flush_items_keeps (map_to_list (stream_buffer w1)) w1)
      as [Ha Hf']. cbv zeta in Ha, Hf'.
    destruct (flush_items _ _ _) as [[[]|e] w2]; cbn [snd] in *.
    + rewrite <- Hf, <- Hf'. split; [|done].
      transitivity (acknowledgements w2); [done|].
      rewrite Ha. unfold acknowledgements. by rewrite Ho.
    + rewrite Hf', Hf, Ha. unfold acknowledgements. by rewrite Ho.
  - unfold acknowledgements. by rewrite Ho, Hf.
Qed.

Lemma process_item_keeps st w :
  let w' := (process_item process_function get_data_for_tag buffer_full st w).2 in
  acknowledgements w' = acknowledgements w
  ∧ poison_pill_received (worker_state w')
    = poison_pill_received (worker_state w).
Proof.
  unfold process_item.
  destruct (get_data_for_tag st.1 st.2) as [[stream inv]|e]; [|done].
  destruct (process_function stream inv) as [stream' [r|e]];
    destruct (buffer_full _); cbv zeta; cbn [snd];
    (split; [count_acknowledgements|done]).
Qed.

Lemma request_or_receive_once w :
  acknowledged_once w →
  acknowledged_once
    (request_or_receive process_function get_data_for_tag buffer_full w).2.
Proof.
  unfold request_or_receive. intros Hw.
  destruct (worker_state w) as [pill write item] eqn:Hf. cbn [waiting_for_write
    poison_pill_received waiting_for_item].
  destruct write; [done|]. destruct pill; [done|].
  assert (acknowledgements w = 0) as Hzero.
  { unfold acknowledged_once in Hw. by rewrite Hf in Hw. }
  destruct item; cbn [negb snd].
  2:{ revert Hzero. clear. count_acknowledgements. }
  unfold _get_msg. destruct (take_msg MASTER_SENDS_ITEM (inbox w)) as [[msg|] i];
    cbn [snd].
  2:{ revert Hzero. clear -Hf. intros. count_acknowledgements.
      rewrite Hf. cbn. done. }
  destruct msg as [|st| |]; cbn [snd].
  - revert Hzero. clear. count_acknowledgements.
  - pose proof (process_item_keeps st
                  (set_flags (mkFlags false false false) (set_inbox i w)))
      as [Ha Hp]. cbv zeta in Ha, Hp. unfold acknowledged_once.
    rewrite Ha, Hp. revert Hzero. clear. count_acknowledgements.
  - revert Hzero. clear.
    destruct (decide (stream_buffer (set_flags _ _) = ∅)); intros;
      count_acknowledgements.
  - revert Hzero. clear. count_acknowledgements.
Qed.

Lemma loop_body_once lo hi w :
  acknowledged_once w →
  acknowledged_once
    (loop_body process_function get_data_for_tag tag_map buffer_full
               str_stream lo hi w).2.
Proof.
  intros Hw. unfold loop_body, _get_msg.
  destruct (take_msg MASTER_FORCES_WRITE (inbox w)) as [[msg|] i].
  - pose proof (forced_write_keeps lo hi (set_inbox i w)) as [Ha Hp].
    cbn in Ha, Hp.
    assert (acknowledged_once
              (forced_write tag_map str_stream lo hi (set_inbox i w)).2) as Hfw.
    { unfold acknowledged_once. by rewrite Ha, Hp. }
    destruct (forced_write _ _ _ _ _) as [[[]|e] w2]; [|done].
    by apply request_or_receive_once.
  - by apply request_or_receive_once.
Qed.

(** Whatever the master sends and whenever it sends it, a worker
    acknowledges the poison pill at most once. *)
Lemma worker_acknowledges_once run ds :
  (acknowledgements
     (passes process_function get_data_for_tag tag_map buffer_full str_stream
             run (start ds)).2 ≤ 1)%nat.
Proof.
  assert (∀ w, acknowledged_once w →
    acknowledged_once
      (passes process_function get_data_for_tag tag_map buffer_full
              str_stream run w).2) as Hrun.
  { induction run as [|here rest IH]; intros w Hw; [done|]. cbn.
    pose proof (loop_body_once (lower here) (higher here)
                  (set_inbox (inbox w ++ arriving here) w) Hw) as Hb.
    destruct (loop_body _ _ _ _ _ _ _ _) as [[[]|e] w']; [|done].
    by apply IH. }
  specialize (Hrun (start ds) eq_refl). unfold acknowledged_once in Hrun.
  rewrite Hrun. destruct (poison_pill_received _); lia.
Qed.
End worker_acknowledgements.

(** C1 fails on the code.  A worker of a two-rank fleet asks for a job,
    receives the job (BW.A, raw) and applies a user function that raises:
    it prints the message "Will be skipped" and then puts the stream into
    its buffer all the same; at the next forced write the trace is created
    and written in the output file under the tag [processed], and the job
    is reported as done. *)
Theorem raising_job_is_written :
  let w1 := Examples.worker_pass (Worker.start (Examples.fresh true)) in
  let w2 := Examples.worker_pass
              (Examples.deliver MASTER_SENDS_ITEM (PItem ("BW.A", "raw")) w1) in
  let w3 := Examples.worker_pass (Examples.deliver MASTER_FORCES_WRITE PNone w2) in
  Worker.log w2 = [Worker.ErrorDuringProcessing ValueError]
  ∧ Worker.stream_buffer w2 !! ("BW.A", "raw") = Some [Examples.trace_A]
  ∧ Store.path_exists "BW.A" (Examples.name_A "processed")
                      (Worker.output_dataset w3) = true
  ∧ (Store.ds_value
       <$> (Store.waveform_group (Worker.output_dataset w3) !! "BW.A"
            ≫= (.!! Examples.name_A "processed")))
    = Some (Store.data Examples.trace_A)
  ∧ mkSent (PDone ("BW.A", "raw") "1 Trace(s) in Stream") 0 WORKER_DONE_WITH_ITEM
    ∈ Worker.outbox w3.
Proof.
  vm_compute. split_and!; try reflexivity.
  do 1 apply list_elem_of_further. apply list_elem_of_here.
Qed.

(** ** The entry point and the local scheduler *)

Section processing_claims.
Import Store Processing.

Lemma elem_of_map_keys {V} (g : gmap string V) k :
  k ∈ (map_to_list g).*1 ↔ is_Some (g !! k).
Proof.
  rewrite list_elem_of_fmap. split.
  - intros ([k' v] & -> & Hin). apply elem_of_map_to_list in Hin. by eexists.
  - intros [v Hv]. exists (k, v). split; [done|].
    by apply elem_of_map_to_list.
Qed.

Lemma elem_of_sorted_stations ds s g :
  (s, g) ∈ sorted_stations ds ↔ waveform_group ds !! s = Some g.
Proof.
  unfold sorted_stations. rewrite merge_sort_Permutation.
  apply elem_of_map_to_list.
Qed.

Lemma elem_of_tags_of (waveforms : list string) t :
  t ∈ tags_of waveforms
  ↔ ∃ w, w ∈ waveforms ∧ w ≠ "StationXML" ∧ t = PyStr.last_field w.
Proof.
  unfold tags_of. rewrite elem_of_remove_dups, list_elem_of_fmap.
  split.
  - intros (w & -> & [Hne Hin]%list_elem_of_filter). by exists w.
  - intros (w & Hin & Hne & ->). exists w. split; [done|].
    by apply list_elem_of_filter.
Qed.

Lemma elem_of_station_tags_of tag_map station (g : gmap string Dataset) s t :
  (s, t) ∈ station_tags_of tag_map station g
  ↔ s = station ∧ is_Some (g !! "StationXML")
    ∧ (∃ w, is_Some (g !! w) ∧ w ≠ "StationXML" ∧ t = PyStr.last_field w)
    ∧ is_Some (tag_map !! t).
Proof.
  unfold station_tags_of. case_bool_decide as Hxml.
  - rewrite list_elem_of_fmap. setoid_rewrite list_elem_of_filter.
    setoid_rewrite elem_of_tags_of. setoid_rewrite elem_of_map_keys.
    apply elem_of_map_keys in Hxml. split.
    + intros (t' & [= -> ->] & Hmap & Hw). done.
    + intros (-> & _ & Hw & Hmap). by exists t.
  - rewrite elem_of_nil. rewrite elem_of_map_keys in Hxml. tauto.
Qed.

Lemma elem_of_enumerate tag_map ds s t :
  (s, t) ∈ enumerate tag_map ds
  ↔ ∃ g, waveform_group ds !! s = Some g
         ∧ is_Some (g !! "StationXML")
         ∧ (∃ w, is_Some (g !! w) ∧ w ≠ "StationXML"
                 ∧ t = PyStr.last_field w)
         ∧ is_Some (tag_map !! t).
Proof.
  unfold enumerate. rewrite list_elem_of_bind. split.
  - intros ([s' g] & Hin & Hs). cbn in Hin.
    apply elem_of_station_tags_of in Hin as (-> & ? & ? & ?).
    apply elem_of_sorted_stations in Hs. by exists g.
  - intros (g & Hg & ? & ? & ?). exists (s, g). split.
    + cbn. by apply elem_of_station_tags_of.
    + by apply elem_of_sorted_stations.
Qed.

End processing_claims.

Section local_scheduler_claims.
Import LocalScheduler.

Lemma put_all_fits xs q :
  (maxsize q ≤ 0 ∨ Z.of_nat (length (items q) + length xs) ≤ maxsize q)%Z →
  put_all xs q = Some (mkBounded (maxsize q) (items q ++ xs)%list).
Proof.
  revert q. induction xs as [|x xs IH]; intros [mx its] Hfit; cbn in *.
  - by rewrite app_nil_r.
  - unfold put. cbn. rewrite decide_False by lia.
    rewrite IH; cbn.
    + by rewrite <- app_assoc.
    + rewrite length_app. cbn. lia.
Qed.

(** C9.  For every job list the local scheduler creates
    [min(cpu_count(), len(station_tags))] processes, and the input queue
    holds every job in the order of the list followed by one
    [POISON_PILL] per process; the queue bound [ceil(1.1 * k)] is at
    least [k], so no [put] blocks. *)
Theorem local_scheduler_seeding (hardware_threads : nat) (queue_bound : nat → Z)
    in_file out_file (station_tags : list station_tag) :
  (∀ k, (Z.of_nat k ≤ queue_bound k)%Z) →
  let n := hardware_threads `min` length station_tags in
  ∃ q processes,
    setup hardware_threads queue_bound in_file out_file station_tags
    = (Some q, processes)
    ∧ length processes = n
    ∧ items q = ((PItem <$> station_tags) ++ replicate n POISON_PILL)%list.
Proof.
  intros Hbound n. unfold setup, cpu_count. fold n.
  rewrite put_all_fits; cbn.
  - rewrite put_all_fits; cbn.
    + do 2 eexists. split_and!; [reflexivity| |reflexivity].
      apply length_replicate.
    + right. rewrite length_fmap, length_replicate. apply Hbound.
  - right. rewrite length_fmap.
    specialize (Hbound (length station_tags + n)). lia.
Qed.
End local_scheduler_claims.

Lemma local_scheduler_seeding_witness :
  ∃ q processes,
    LocalScheduler.setup 4 (λ k, Z.of_nat (k + (k + 9) / 10)) "in.h5" "out.h5"
      [("BW.A", "raw"); ("BW.B", "raw")] = (Some q, processes)
    ∧ length processes = 2
    ∧ LocalScheduler.items q
      = [PItem ("BW.A", "raw"); PItem ("BW.B", "raw"); POISON_PILL; POISON_PILL].
Proof.
  apply (local_scheduler_seeding 4 (λ k, Z.of_nat (k + (k + 9) / 10))
           "in.h5" "out.h5" [("BW.A", "raw"); ("BW.B", "raw")]).
  intros k. lia.
Defined.

Example enumerate_input_file :
  Processing.enumerate Examples.tag_map Examples.input_file = [("BW.A", "raw")].
Proof. vm_compute. reflexivity. Qed.


(** The guard of [add_waveforms] looks at the whole tag: a tag that only
    ends in ["__StationXML"] passes, and the tag derived from the name of
    the dataset it creates is ["StationXML"]. *)
Example tag_ending_in_stationxml :
  let ds := (Store.add_waveforms (Store.WTrace Examples.trace_A) "x__StationXML"
               Store.IdNone Store.IdNone Store.IdNone Store.IdNone
               (Examples.fresh false)).2 in
  Store.path_exists "BW.A" (Examples.name_A "x__StationXML") ds = true
  ∧ PyStr.last_field (Examples.name_A "x__StationXML") = "StationXML".
Proof. vm_compute. split; reflexivity. Qed.


(** * Further properties of the code *)

Local Close Scope string_scope.

(** ** The ledger: termination test and counters *)

Section ledger_counting.
Import JobQueue Ledger Counting.
Context {A R : Type} `{EqDecision A}.
Implicit Types (q : JobQueueHelper A R) (j job : Job A).

Lemma list_remove_length job (l act : list (Job A)) :
  list_remove job l = Some act → length l = S (length act).
Proof.
  intros (l1 & l2 & -> & _ & ->)%list_remove_Some.
  rewrite !length_app. cbn. lia.
Qed.

Lemma run_all_jobs (jobs : list A) names (ops : list (op A R)) q :
  run ops (init jobs names) = Some q →
  partition q ∧ _all_jobs q = make_jobs jobs.
Proof.
  intros Hrun.
  by destruct (run_invariant _ _ _ (partition_init jobs names) Hrun).
Qed.

(** [all_done] holds exactly when nothing is queued and nothing is
    active. *)
Theorem all_done_iff_idle (jobs : list A) names (ops : list (op A R)) q :
  run ops (init jobs names) = Some q →
  all_done q = true
  ↔ _in_queue q = []
    ∧ ∀ w wk, _workers q !! w = Some wk → active_jobs wk = [].
Proof.
  intros [Hp Hall]%run_all_jobs. unfold all_done.
  rewrite bool_decide_eq_true.
  pose proof (make_jobs_NoDup jobs) as Hnd. rewrite <- Hall in Hnd.
  assert (∀ j, j ∈ _finished_jobs q → j ∈ _all_jobs q) as Hsub.
  { intros j Hj. apply (part_cover q Hp). by do 2 right. }
  pose proof (NoDup_submseteq _ _ (part_finished_once q Hp) Hsub) as Hfa.
  split.
  - intros Hlen.
    assert (_finished_jobs q ≡ₚ _all_jobs q) as Hperm.
    { apply submseteq_length_Permutation; [done|lia]. }
    assert (∀ j, j ∈ _all_jobs q → is_finished q j) as Hfin.
    { intros j Hj. unfold is_finished. by rewrite Hperm. }
    split.
    + apply elem_of_nil_inv. intros j Hj.
      apply (part_pending_finished q Hp j Hj), Hfin, (part_cover q Hp).
      by left.
    + intros w wk Hw. apply elem_of_nil_inv. intros j Hj.
      assert (active q j) as Hact by (exists w, wk; done).
      apply (part_active_finished q Hp j Hact), Hfin, (part_cover q Hp).
      right. by left.
  - intros [Hq Hidle].
    assert (∀ j, j ∈ _all_jobs q → j ∈ _finished_jobs q) as Hsup.
    { intros j [Hj|[(w & wk & Hw & Hj)|Hj]]%(part_cover q Hp).
      - unfold pending in Hj. rewrite Hq in Hj. by apply elem_of_nil in Hj.
      - rewrite (Hidle w wk Hw) in Hj. by apply elem_of_nil in Hj.
      - done. }
    pose proof (NoDup_submseteq _ _ Hnd Hsup) as Haf.
    apply submseteq_length in Hfa, Haf. lia.
Qed.

Lemma count_true_cons {X} (f : X → bool) x (l : list X) :
  length (filter (λ o, f o = true) (x :: l))
  = (if f x then 1 else 0) + length (filter (λ o, f o = true) l).
Proof.
  rewrite filter_cons.
  destruct (f x); [rewrite decide_True by done|rewrite decide_False by done];
    done.
Qed.

Lemma count_false_cons {X} (f : X → bool) x (l : list X) :
  length (filter (λ o, f o = false) (x :: l))
  = (if f x then 0 else 1) + length (filter (λ o, f o = false) l).
Proof.
  rewrite filter_cons.
  destruct (f x); [rewrite decide_False by done|rewrite decide_True by done];
    done.
Qed.

Lemma gets_cons (o : op A R) ops :
  gets (o :: ops) = (if is_any_get o then 1 else 0) + gets ops.
Proof. apply count_true_cons. Qed.

Lemma receptions_cons (o : op A R) ops :
  receptions (o :: ops) = (if is_any_get o then 0 else 1) + receptions ops.
Proof. apply count_false_cons. Qed.

Lemma gets_by_cons w (o : op A R) ops :
  gets_by w (o :: ops) = (if is_get w o then 1 else 0) + gets_by w ops.
Proof. apply count_true_cons. Qed.

Lemma received_by_cons w (o : op A R) ops :
  received_by w (o :: ops)
  = (if is_received w o then 1 else 0) + received_by w ops.
Proof. apply count_true_cons. Qed.

(** The effect of one successful operation on the lengths and counts. *)
Lemma step_counters (o : op A R) q q' :
  step o q = (Returned tt, q') →
  length (_in_queue q') + (if is_any_get o then 1 else 0) = length (_in_queue q)
  ∧ length (_finished_jobs q')
    = length (_finished_jobs q) + (if is_any_get o then 0 else 1)
  ∧ ∀ w wk', _workers q' !! w = Some wk' →
      ∃ wk, _workers q !! w = Some wk
        ∧ completed_jobs_count wk'
          = completed_jobs_count wk + (if is_received w o then 1 else 0)
        ∧ length (active_jobs wk') + (if is_received w o then 1 else 0)
          = length (active_jobs wk) + (if is_get w o then 1 else 0).
Proof.
  destruct o as [w0|args result w0]; cbn.
  - unfold get_job_for_worker.
    destruct (_in_queue q) as [|job rest]; [done|]. cbn.
    destruct (_workers q !! w0) as [wk0|] eqn:Hw0; [|done].
    intros [= <-]. cbn. split_and!; [lia..|].
    intros w wk'. case_bool_decide as Hw; [subst w0|].
    + rewrite lookup_insert_eq. intros [= <-]. exists wk0. cbn.
      rewrite length_app. cbn. split_and!; [done|lia..].
    + rewrite lookup_insert_ne by done. intros Hwk. exists wk'.
      split_and!; [done|lia..].
  - unfold received_job_from_worker.
    destruct (_workers q !! w0) as [wk0|] eqn:Hw0; [|done].
    destruct (matching_jobs args wk0) as [|job [|]]; [done| |done].
    destruct (list_remove job (active_jobs wk0)) as [act|] eqn:Hrm; [|done].
    apply list_remove_length in Hrm.
    intros [= <-]. cbn. rewrite length_app. cbn. split_and!; [lia..|].
    intros w wk'. case_bool_decide as Hw; [subst w0|].
    + rewrite lookup_insert_eq. intros [= <-]. exists wk0. cbn.
      split_and!; [done|lia..].
    + rewrite lookup_insert_ne by done. intros Hwk. exists wk'.
      split_and!; [done|lia..].
Qed.

Lemma run_counters (ops : list (op A R)) q q' :
  run ops q = Some q' →
  length (_in_queue q') + gets ops = length (_in_queue q)
  ∧ length (_finished_jobs q') = length (_finished_jobs q) + receptions ops
  ∧ ∀ w wk', _workers q' !! w = Some wk' →
      ∃ wk, _workers q !! w = Some wk
        ∧ completed_jobs_count wk'
          = completed_jobs_count wk + received_by w ops
        ∧ length (active_jobs wk') + received_by w ops
          = length (active_jobs wk) + gets_by w ops.
Proof.
  revert q. induction ops as [|o ops IH]; intros q; cbn [run].
  - intros [= <-]. split_and!; [cbn; lia..|].
    intros w wk' Hw. exists wk'. cbn. split_and!; [done|lia..].
  - destruct (step o q) as [[[]|e] q1] eqn:Hstep; [|done].
    intros (Hq & Hf & Hw)%IH.
    destruct (step_counters _ _ _ Hstep) as (Hq1 & Hf1 & Hw1).
    split_and!.
    + rewrite gets_cons. destruct (is_any_get o); lia.
    + rewrite receptions_cons. destruct (is_any_get o); lia.
    + intros w wk' Hwk'. destruct (Hw w wk' Hwk') as (wk1 & Hwk1 & Hc & Ha).
      destruct (Hw1 w wk1 Hwk1) as (wk & Hwk & Hc1 & Ha1).
      exists wk. rewrite gets_by_cons, received_by_cons.
      split_and!; [done|..]; destruct (is_received w o), (is_get w o); lia.
Qed.

(** After every successful run the counters agree with the operations:
    the queue has shrunk by the number of requests, the finished jobs are
    as many as the completions, a worker's count is the number of its
    completions, and its active jobs are its requests that it has not
    completed. *)
Theorem ledger_counters (jobs : list A) names (ops : list (op A R)) q :
  run ops (init jobs names) = Some q →
  length (_in_queue q) + gets ops = length jobs
  ∧ finished q = receptions ops
  ∧ ∀ w wk, _workers q !! w = Some wk →
      completed_jobs_count wk = received_by w ops
      ∧ length (active_jobs wk) + received_by w ops = gets_by w ops.
Proof.
  intros (Hq & Hf & Hw)%run_counters. cbn in Hq, Hf.
  unfold make_jobs in Hq. rewrite length_imap in Hq.
  split_and!; [done|done|].
  intros w wk Hwk. destruct (Hw w wk Hwk) as (wk0 & Hwk0 & Hc & Ha).
  cbn in Hwk0. rewrite make_workers_lookup in Hwk0.
  destruct (decide _); [|done]. injection Hwk0 as <-. cbn in *. lia.
Qed.
End ledger_counting.

Local Open Scope string_scope.

Lemma all_done_iff_idle_witness :
  JobQueue.all_done
    (JobQueue.received_job_from_worker ("BW.A", "raw") (Some "s") 1
       (JobQueue.get_job_for_worker 1
          (JobQueue.init [("BW.A", "raw")] [1])).2).2 = true.
Proof.
  refine (proj2 (all_done_iff_idle (R:=string) [("BW.A", "raw")] [1]
            [Ledger.GetJob 1;
             Ledger.ReceivedJob ("BW.A", "raw") (Some "s") 1] _ _) _).
  - vm_compute. reflexivity.
  - split; [vm_compute; reflexivity|].
    intros w wk Hw.
    match type of Hw with
    | ?m !! _ = _ =>
        assert (m = {[1 := JobQueue.mkWorker [] 1]}) as Heq
          by (vm_compute; reflexivity)
    end.
    rewrite Heq in Hw. by apply lookup_singleton_Some in Hw as [_ <-].
Defined.

Lemma ledger_counters_witness :
  ∃ q, Ledger.run [Ledger.GetJob 1; Ledger.GetJob 2;
                   Ledger.ReceivedJob ("BW.A", "raw") (Some "s") 1]
         (JobQueue.init [("BW.A", "raw"); ("BW.B", "raw"); ("BW.C", "raw")]
                        [1; 2]) = Some q
       ∧ length (JobQueue._in_queue q) = 1 ∧ JobQueue.finished q = 1.
Proof.
  eexists. split; [vm_compute; reflexivity|].
  edestruct (ledger_counters (R:=string)
               [("BW.A", "raw"); ("BW.B", "raw"); ("BW.C", "raw")] [1; 2]
               [Ledger.GetJob 1; Ledger.GetJob 2;
                Ledger.ReceivedJob ("BW.A", "raw") (Some "s") 1])
    as (Hq & Hf & _); [vm_compute; reflexivity|].
  split; [|exact Hf]. vm_compute in Hq. vm_compute. lia.
Defined.

Local Close Scope string_scope.

(** ** The master: what it replies, and when it synchronises *)

Section master_replies.
Import JobQueue Master MasterReplies.

Lemma received_job_queue {A R} `{EqDecision A} (q : JobQueueHelper A R)
    args result w :
  _in_queue (received_job_from_worker args result w q).2 = _in_queue q.
Proof.
  unfold received_job_from_worker. destruct (_workers q !! w); [|done].
  destruct (matching_jobs _ _) as [|job [|]]; [done| |done].
  by destruct (list_remove _ _).
Qed.

Lemma requesters_cons source tag msg msgs :
  requesters ((source, tag, msg) :: msgs)
  = if decide (tag = WORKER_REQUESTS_ITEM) then source :: requesters msgs
    else requesters msgs.
Proof. unfold requesters. cbn. by destruct (decide _). Qed.

Lemma replies_forced size : replies (forced size) = [].
Proof.
  unfold replies, forced. induction (worker_nodes size) as [|r l IH]; [done|].
  cbn [fmap list_fmap]. by rewrite filter_cons_False.
Qed.

Lemma broadcasts_forced size : broadcasts (forced size) = forced size.
Proof.
  unfold broadcasts, forced. induction (worker_nodes size) as [|r l IH]; [done|].
  cbn [fmap list_fmap]. rewrite filter_cons_True by done. by f_equal.
Qed.

Lemma dispatch_replies source tag msg m out m' :
  dispatch source tag msg m = (Returned out, m') →
  replies out = out ∧ broadcasts out = []
  ∧ if decide (tag = WORKER_REQUESTS_ITEM)
    then match _in_queue (jobs m) with
         | [] => out = [mkSent POISON_PILL source MASTER_SENDS_ITEM]
                 ∧ _in_queue (jobs m') = []
         | job :: queue =>
             out = [mkSent (PItem (arguments job)) source MASTER_SENDS_ITEM]
             ∧ _in_queue (jobs m') = queue
         end
    else out = [] ∧ _in_queue (jobs m') = _in_queue (jobs m).
Proof.
  intros Hd. destruct tag; cbn in Hd; try done.
  - rewrite decide_True by done. unfold queue_empty in Hd.
    case_bool_decide as Hempty.
    + injection Hd as <- <-. rewrite Hempty. done.
    + unfold get_job_for_worker in Hd.
      destruct (_in_queue (jobs m)) as [|job rest] eqn:Hqm; [done|].
      cbn in Hd. destruct (_workers (jobs m) !! source); [|done].
      injection Hd as <- <-. done.
  - rewrite decide_False by done. by injection Hd as <- <-.
  - rewrite decide_False by done.
    destruct msg as [|?| |st result]; try done;
      [by destruct (_workers (jobs m) !! source)|].
    pose proof (received_job_queue (jobs m) st (Some result) source) as Hrq.
    destruct (received_job_from_worker _ _ _ _) as [[[]|e] q1]; [|done].
    injection Hd as <- <-. done.
  - rewrite decide_False by done. by injection Hd as <- <-.
Qed.

Lemma half_fleet_nobody (N : Z) : (1 ≤ N)%Z → half_fleet_waiting 0 N = false.
Proof.
  intros HN. destruct (half_fleet_waiting 0 N) eqn:Hh; [|done].
  unfold half_fleet_waiting in Hh. apply Qle_bool_iff in Hh.
  unfold Qle in Hh. cbn in Hh. lia.
Qed.

Lemma dispatch_raised_queue source tag msg m e m' :
  dispatch source tag msg m = (Raised e, m') →
  _in_queue (jobs m') = _in_queue (jobs m)
  ∨ _in_queue (jobs m') = drop 1 (_in_queue (jobs m)).
Proof.
  intros Hd. destruct tag; cbn in Hd; try done;
    try (injection Hd as <- <-; by left).
  - destruct (queue_empty (jobs m)); [done|].
    unfold get_job_for_worker in Hd.
    destruct (_in_queue (jobs m)) as [|job rest] eqn:Hqm.
    + injection Hd as <- <-. left. cbn. by rewrite Hqm.
    + cbn in Hd. destruct (_workers (jobs m) !! source); [done|].
      injection Hd as <- <-. by right.
  - destruct msg as [|?| |st result]; try done;
      try (injection Hd as <- <-; by left);
      [destruct (_workers (jobs m) !! source); injection Hd as <- <-; by left|].
    pose proof (received_job_queue (jobs m) st (Some result) source) as Hrq.
    destruct (received_job_from_worker _ _ _ _) as [[[]|e1] q1]; [done|].
    injection Hd as <- <-. by left.
Qed.

(** The passes of the loop, from any state: what is sent in reply to
    requests, what else is sent, which messages were received. *)
Lemma run_replies passes size sync phase msgs m e out rest m' :
  run passes size sync phase msgs m = (e, out, rest, m') →
  ∃ handled answered k p n,
    msgs = handled ++ rest
    ∧ (answered = handled
       ∨ ∃ x e', e = Failed e' ∧ handled = answered ++ [x])
    ∧ k ≤ length (_in_queue (jobs m))
    ∧ s_obj <$> replies out
      = ((λ j, PItem (arguments j)) <$> take k (_in_queue (jobs m)))
        ++ replicate p POISON_PILL
    ∧ (0 < p → k = length (_in_queue (jobs m)))
    ∧ s_dest <$> replies out = requesters answered
    ∧ broadcasts out = concat (replicate n (forced size))
    ∧ (_in_queue (jobs m') = drop k (_in_queue (jobs m))
       ∨ ∃ e', e = Failed e'
               ∧ _in_queue (jobs m') = drop (S k) (_in_queue (jobs m)))
    ∧ (e = AllDone → all_done (jobs m') = true).
Proof.
  revert phase msgs m e out rest m'.
  induction passes as [|passes IH]; intros phase msgs m e out rest m';
    cbn [run].
  { intros [= <- <- <- <-]. exists [], [], 0, 0, 0.
    split_and!; try done; try (by left); try lia. }
  destruct (all_done (jobs m)) eqn:Hdone.
  { intros [= <- <- <- <-]. exists [], [], 0, 0, 0.
    split_and!; try done; try (by left); try lia. }
  destruct (enters_collective size m).
  - destruct (sync phase) as [[]|e0].
    + destruct (run passes size sync (S phase) msgs (mkMaster (jobs m) []))
        as [[[e1 out1] rest1] m1] eqn:Hrun.
      intros [= <- <- <- <-].
      destruct (IH _ _ _ _ _ _ _ Hrun)
        as (handled & answered & k & p & n & Hm & Ha & Hk & Hobj & Hp & Hdest
            & Hb & Hq & He).
      cbn [jobs] in *. exists handled, answered, k, p, (S n).
      unfold replies, broadcasts in *.
      rewrite !filter_app. fold (replies (forced size)).
      fold (broadcasts (forced size)).
      rewrite replies_forced, broadcasts_forced. cbn [app replicate concat].
      rewrite Hb. done.
    + intros [= <- <- <- <-]. exists [], [], 0, 0, 1.
      rewrite replies_forced, broadcasts_forced. cbn [replicate concat].
      split_and!; try done; try (by left); try lia.
      by rewrite app_nil_r.
  - destruct msgs as [|[[source tag] msg] msgs].
    { intros [= <- <- <- <-]. exists [], [], 0, 0, 0.
      split_and!; try done; try (by left); try lia. }
    destruct (dispatch source tag msg m) as [[o1|e0] m1] eqn:Hd.
    2:{ intros [= <- <- <- <-]. exists [(source, tag, msg)], [], 0, 0, 0.
        apply dispatch_raised_queue in Hd.
        split_and!; try done; try lia.
        - right. by exists (source, tag, msg), e0.
        - destruct Hd as [Hd|Hd]; [by left|]. right. by exists e0. }
    destruct (run passes size sync phase msgs m1)
      as [[[e1 out1] rest1] m2] eqn:Hrun.
    intros [= <- <- <- <-].
    destruct (IH _ _ _ _ _ _ _ Hrun)
      as (handled & answered & k & p & n & Hm & Ha & Hk & Hobj & Hp & Hdest
          & Hb & Hq & He).
    apply dispatch_replies in Hd as (Hr1 & Hb1 & Hcase).
    assert (replies (o1 ++ out1) = o1 ++ replies out1) as Hrep.
    { unfold replies in *. by rewrite filter_app, Hr1. }
    assert (broadcasts (o1 ++ out1) = broadcasts out1) as Hbro.
    { unfold broadcasts in *. by rewrite filter_app, Hb1. }
    rewrite Hrep, Hbro.
    assert ((source, tag, msg) :: answered = (source, tag, msg) :: handled
            ∨ ∃ x e', e1 = Failed e'
                      ∧ (source, tag, msg) :: handled
                        = ((source, tag, msg) :: answered) ++ [x]) as Ha'.
    { destruct Ha as [->|(x & e' & -> & ->)]; [by left|].
      right. by exists x, e'. }
    destruct (decide (tag = WORKER_REQUESTS_ITEM)) as [->|Hne].
    + destruct (_in_queue (jobs m)) as [|job queue] eqn:Hqm.
      * destruct Hcase as [-> Hq1]. rewrite Hq1 in *. cbn in Hk.
        assert (k = 0) as -> by lia.
        exists ((source, WORKER_REQUESTS_ITEM, msg) :: handled),
               ((source, WORKER_REQUESTS_ITEM, msg) :: answered), 0, (S p), n.
        rewrite requesters_cons, decide_True by done.
        cbn in *. rewrite Hobj, Hdest, Hm.
        split_and!; done.
      * destruct Hcase as [-> Hq1]. rewrite Hq1 in *.
        exists ((source, WORKER_REQUESTS_ITEM, msg) :: handled),
               ((source, WORKER_REQUESTS_ITEM, msg) :: answered), (S k), p, n.
        rewrite requesters_cons, decide_True by done.
        cbn in *. rewrite Hobj, Hdest, Hm.
        split_and!; try done; [lia|intros ?; f_equal; auto].
    + destruct Hcase as [-> Hq1]. rewrite Hq1 in *.
      exists ((source, tag, msg) :: handled), ((source, tag, msg) :: answered),
             k, p, n.
      rewrite requesters_cons, decide_False by done.
      cbn [app]. rewrite Hm. done.
Qed.

Lemma enters_collective_waiting size m :
  1 ≤ size → enters_collective size m = true →
  workers_requesting_write m ≠ [].
Proof.
  intros Hsize Hent Hnil. unfold enters_collective in Hent.
  rewrite Hnil in Hent. cbn in Hent.
  rewrite half_fleet_nobody in Hent by lia. done.
Qed.

(** The loop stands still only for lack of a message: two passes for each
    message, one more, and another one when a worker waits to write, are
    enough to reach the end of the loop, a wait in [comm.recv] or an
    exception. *)
Lemma run_finishes passes size sync phase msgs m :
  1 ≤ size →
  2 * length msgs + 1
  + (if workers_requesting_write m is [] then 0 else 1) ≤ passes →
  (run passes size sync phase msgs m).1.1.1 ≠ Unfinished.
Proof.
  intros Hsize. revert phase msgs m.
  induction passes as [|passes IH]; intros phase msgs m Hle; [lia|].
  cbn [run]. destruct (all_done (jobs m)); [done|].
  destruct (enters_collective size m) eqn:Hent.
  - apply enters_collective_waiting in Hent; [|done].
    destruct (workers_requesting_write m) as [|w ws] eqn:Hw; [done|].
    destruct (sync phase) as [[]|e0]; [|done].
    specialize (IH (S phase) msgs (mkMaster (jobs m) [])).
    destruct (run passes size sync (S phase) msgs (mkMaster (jobs m) []))
      as [[[e1 out1] rest1] m1]. cbn [fst] in *. apply IH. cbn. lia.
  - destruct msgs as [|[[source tag] msg] msgs]; [done|].
    destruct (dispatch source tag msg m) as [[o1|e0] m1]; [|done].
    specialize (IH phase msgs m1).
    destruct (run passes size sync phase msgs m1) as [[[e1 out1] rest1] m2].
    cbn [fst] in *. apply IH. cbn [length] in Hle.
    destruct (workers_requesting_write m1); destruct (workers_requesting_write m);
      lia.
Qed.

Lemma replies_shutdown size : replies (shutdown size) = [].
Proof.
  unfold replies, shutdown. induction (worker_nodes size) as [|r l IH]; [done|].
  cbn [fmap list_fmap]. by rewrite filter_cons_False.
Qed.

Lemma broadcasts_shutdown size : broadcasts (shutdown size) = shutdown size.
Proof.
  unfold broadcasts, shutdown.
  induction (worker_nodes size) as [|r l IH]; [done|].
  cbn [fmap list_fmap]. rewrite filter_cons_True by done. by f_equal.
Qed.

(** The master node, from its start.  The messages it sends in
    reply to requests for an item go, in the order of the requests
    received, each to its requester: first the station tags in the order
    of the job list, and the poison pill only once the list is used up;
    every request received is answered unless handling it, or the last
    message, raised.  Everything else it sends is the
    [MASTER_FORCES_WRITE] of a collective phase, one per worker and
    phase, and after a loop that ended by itself the [ALL_DONE] for
    every worker.  The queue that remains is the rest of the job list
    (less the job that was taken for a requester that is no worker, when
    that raised); the messages that were not received are left alone,
    and when the loop ends by itself all jobs are done.  With at least
    one rank the loop cannot spin: two passes per message and one more
    bring it to its end, to a wait for a message, or to an exception. *)
Theorem master_replies_fifo passes size sync station_tags msgs e out rest m :
  1 ≤ size →
  _dispatch_processing_mpi_master_node passes size sync station_tags msgs
  = (e, out, rest, m) →
  (∃ handled answered k p n,
     msgs = handled ++ rest
     ∧ (answered = handled
        ∨ ∃ x e', e = Failed e' ∧ handled = answered ++ [x])
     ∧ k ≤ length station_tags
     ∧ s_obj <$> replies out
       = (PItem <$> take k station_tags) ++ replicate p POISON_PILL
     ∧ (0 < p → k = length station_tags)
     ∧ s_dest <$> replies out = requesters answered
     ∧ broadcasts out
       = concat (replicate n (forced size))
         ++ match e with AllDone => shutdown size | _ => [] end
     ∧ (arguments <$> _in_queue (jobs m) = drop k station_tags
        ∨ ∃ e', e = Failed e'
                ∧ arguments <$> _in_queue (jobs m)
                  = drop (S k) station_tags))
  ∧ (e = AllDone → all_done (jobs m) = true)
  ∧ (2 * length msgs + 1 ≤ passes → e ≠ Unfinished).
Proof.
  intros Hsize. unfold _dispatch_processing_mpi_master_node.
  destruct (run passes size sync 0 msgs (start station_tags size))
    as [[[e0 out0] rest0] m0] eqn:Hrun.
  intros Heq. injection Heq as -> <- -> ->.
  assert (replies (out0 ++ match e with AllDone => shutdown size | _ => [] end)
          = replies out0) as Hrep.
  { unfold replies at 1. rewrite filter_app. fold (replies out0).
    destruct e; cbn; rewrite ?app_nil_r; try done.
    fold (replies (shutdown size)). by rewrite replies_shutdown, app_nil_r. }
  assert (broadcasts
            (out0 ++ match e with AllDone => shutdown size | _ => [] end)
          = broadcasts out0
            ++ match e with AllDone => shutdown size | _ => [] end) as Hbr.
  { unfold broadcasts at 1. rewrite filter_app. fold (broadcasts out0).
    f_equal. destruct e; try done.
    fold (broadcasts (shutdown size)). apply broadcasts_shutdown. }
  rewrite Hrep, Hbr. split; [|split].
  - destruct (run_replies _ _ _ _ _ _ _ _ _ _ Hrun)
      as (handled & answered & k & p & n & Hm & Ha & Hk & Hobj & Hp & Hdest
          & Hb & Hq & _).
    cbn in Hk, Hobj, Hp, Hq.
    assert (length (make_jobs station_tags) = length station_tags) as Hlen.
    { by rewrite <- (make_jobs_arguments station_tags) at 2;
        rewrite length_fmap. }
    rewrite Hlen in *. exists handled, answered, k, p, n.
    split_and!; try done.
    + rewrite Hobj. f_equal.
      rewrite <- (make_jobs_arguments station_tags) at 2.
      by rewrite <- fmap_take, <- list_fmap_compose.
    + by rewrite Hb.
    + destruct Hq as [Hq|(e' & -> & Hq)]; [left|right; exists e'; split; [done|]];
        rewrite Hq, fmap_drop; by rewrite make_jobs_arguments.
  - by destruct (run_replies _ _ _ _ _ _ _ _ _ _ Hrun)
      as (_ & _ & _ & _ & _ & _ & _ & _ & _ & _ & _ & _ & _ & He).
  - intros Hle.
    pose proof (run_finishes passes size sync 0 msgs (start station_tags size)
                  Hsize) as Hfin.
    rewrite Hrun in Hfin. cbn in Hfin. apply Hfin. lia.
Qed.

(** A collective phase sends one [MASTER_FORCES_WRITE] to every worker,
    leaves the ledger alone and empties the list of waiting writers, so
    that with at least one rank the next pass through the loop is never a
    collective phase again. *)
Theorem collective_phase_resets size incoming m forced m' :
  1 ≤ size →
  loop_body size incoming m = (CollectivePhase forced, m') →
  jobs m' = jobs m
  ∧ workers_requesting_write m' = []
  ∧ forced = (λ rank, mkSent PNone rank MASTER_FORCES_WRITE) <$> worker_nodes size
  ∧ enters_collective size m' = false.
Proof.
  intros Hsize. unfold loop_body.
  destruct (enters_collective size m).
  - intros [= <- <-]. split_and!; try done.
    unfold enters_collective. cbn. rewrite half_fleet_nobody by lia. done.
  - destruct incoming as [[source tag] msg].
    by destruct (dispatch source tag msg m).
Qed.
End master_replies.

Local Open Scope string_scope.

Lemma master_replies_fifo_witness :
  ∃ e out rest m,
    MasterReplies._dispatch_processing_mpi_master_node 15 3
      (λ _, Returned tt) [("BW.A", "raw"); ("BW.B", "raw")]
      [(1, WORKER_REQUESTS_ITEM, PNone); (2, WORKER_REQUESTS_ITEM, PNone);
       (1, WORKER_REQUESTS_WRITE, PNone); (2, WORKER_REQUESTS_WRITE, PNone);
       (2, WORKER_DONE_WITH_ITEM, PDone ("BW.B", "raw") "ok");
       (1, WORKER_DONE_WITH_ITEM, PDone ("BW.A", "raw") "ok");
       (2, WORKER_REQUESTS_ITEM, PNone)]
    = (e, out, rest, m)
    ∧ e ≠ MasterReplies.Unfinished
    ∧ s_tag <$> out
      = [MASTER_SENDS_ITEM; MASTER_SENDS_ITEM; MASTER_FORCES_WRITE;
         MASTER_FORCES_WRITE; ALL_DONE; ALL_DONE]
    ∧ length rest = 1.
Proof.
  do 4 eexists. split; [vm_compute; reflexivity|].
  edestruct (master_replies_fifo 15 3 (λ _, Returned tt)
               [("BW.A", "raw"); ("BW.B", "raw")]
               [(1, WORKER_REQUESTS_ITEM, PNone); (2, WORKER_REQUESTS_ITEM, PNone);
                (1, WORKER_REQUESTS_WRITE, PNone); (2, WORKER_REQUESTS_WRITE, PNone);
                (2, WORKER_DONE_WITH_ITEM, PDone ("BW.B", "raw") "ok");
                (1, WORKER_DONE_WITH_ITEM, PDone ("BW.A", "raw") "ok");
                (2, WORKER_REQUESTS_ITEM, PNone)])
    as (_ & _ & Hfin); [lia|vm_compute; reflexivity|].
  split; [|split; vm_compute; reflexivity].
  apply Hfin. cbn. lia.
Defined.

Lemma collective_phase_resets_witness :
  Master.enters_collective 3
    (Master.loop_body 3 (1, WORKER_REQUESTS_ITEM, PNone)
       (Master.mkMaster (JobQueue.init [("BW.A", "raw")] [1; 2]) [1; 2])).2
  = false.
Proof.
  edestruct (collective_phase_resets 3 (1, WORKER_REQUESTS_ITEM, PNone)
               (Master.mkMaster (JobQueue.init [("BW.A", "raw")] [1; 2]) [1; 2]))
    as (_ & _ & _ & Hno); [lia|vm_compute; reflexivity|].
  vm_compute. reflexivity.
Defined.

Local Close Scope string_scope.

(** ** The worker: flushing and the end of the queue *)

Section worker_reports.
Import Store Worker WorkerRun WorkerReports.
Variable process_function :
  Stream → option (list Z) → Stream * outcome (option Stream).
Variable get_data_for_tag :
  string → string → outcome (Stream * option (list Z)).
Variable tag_map : gmap string string.
Variable buffer_full : gmap station_tag Stream → bool.
Variable str_stream : Stream → string.

Lemma reports_done items :
  Forall (λ s, s_tag s = WORKER_DONE_WITH_ITEM ∧ s_dest s = 0)
         (reports str_stream items).
Proof. unfold reports. apply Forall_fmap, Forall_true. done. Qed.

Lemma reports_keys items : omap reported (reports str_stream items) = items.*1.
Proof.
  unfold reports. induction items as [|[k v] items IH]; [done|].
  cbn. by rewrite IH.
Qed.

(** What [flush_items] has sent when it stops: the reports of the items
    it got through, all of them when it returns. *)
Lemma flush_items_outbox items w :
  ∃ flushed,
    outbox (flush_items str_stream items w).2
    = outbox w ++ reports str_stream flushed
    ∧ flushed `prefix_of` items
    ∧ ((flush_items str_stream items w).1 = Returned tt → flushed = items)
    ∧ stream_buffer (flush_items str_stream items w).2 = stream_buffer w
    ∧ worker_state (flush_items str_stream items w).2 = worker_state w.
Proof.
  revert w. induction items as [|[key value] rest IH]; intros w.
  - exists []. cbn. rewrite app_nil_r. done.
  - cbn [flush_items].
    destruct (write_stream value (output_dataset w)) as [[[]|e] ds].
    + destruct (IH (_send_mpi (PDone key (str_stream value))
                              WORKER_DONE_WITH_ITEM (set_output ds w)))
        as (flushed & Ho & Hpre & Hall & Hb & Hf).
      exists ((key, value) :: flushed). rewrite Ho, Hb, Hf. cbn.
      rewrite <- app_assoc. split_and!; try done.
      * by apply prefix_cons.
      * intros ?. f_equal. auto.
    + exists []. cbn. rewrite app_nil_r. split_and!; try done.
      apply prefix_nil.
Qed.

Lemma describe_stream_keeps key_tag st ds st' infos ds' :
  describe_stream tag_map key_tag st ds = (Returned (st', infos), ds') →
  length st' = length st ∧ length infos = length st.
Proof.
  revert ds st' infos ds'.
  induction st as [|t st IH]; intros ds st' infos ds'; cbn.
  - by intros [= <- <- <-].
  - destruct (tag_map !! key_tag) as [out_tag|]; [|done].
    destruct (_add_trace_get_collective_information t out_tag no_ids ds)
      as [info ds1].
    destruct (describe_stream tag_map key_tag st ds1)
      as [[[rest' infos']|e] ds2] eqn:Hd; [|done].
    intros [= <- <- <-]. cbn. destruct (IH _ _ _ _ Hd) as [-> ->]. done.
Qed.

Lemma describe_buffer_keys items ds items' sendobj ds' :
  describe_buffer tag_map items ds = (Returned (items', sendobj), ds') →
  items'.*1 = items.*1.
Proof.
  revert ds items' sendobj ds'.
  induction items as [|[key st] rest IH]; intros ds items' sendobj ds'; cbn.
  - by intros [= <- <- <-].
  - destruct (describe_stream tag_map key.2 st ds) as [[[st' infos]|e] ds1];
      [|done].
    destruct (describe_buffer tag_map rest ds1) as [[[rest' infos']|e] ds2] eqn:Hd;
      [|done].
    intros [= <- <- <-]. cbn. f_equal. by eapply IH.
Qed.

(** A forced write that succeeds empties the buffer, clears
    [waiting_for_write] and nothing else, and reports every buffered
    (station, tag) exactly once to the master. *)
Theorem forced_write_reports lo hi w w' :
  forced_write tag_map str_stream lo hi w = (Returned tt, w') →
  stream_buffer w' = ∅
  ∧ worker_state w'
    = mkFlags (poison_pill_received (worker_state w)) false
              (waiting_for_item (worker_state w))
  ∧ ∃ new,
      outbox w' = outbox w ++ new
      ∧ Forall (λ s, s_tag s = WORKER_DONE_WITH_ITEM ∧ s_dest s = 0) new
      ∧ omap reported new ≡ₚ (map_to_list (stream_buffer w)).*1.
Proof.
  unfold forced_write, _sync_metadata.
  destruct (describe_buffer tag_map (map_to_list (stream_buffer w))
              (output_dataset w)) as [[[items sendobj]|e] ds] eqn:Hdesc; [|done].
  destruct (write_collective _ ds) as [[[]|e] ds']; [|done].
  match goal with
  | |- context [flush_items str_stream ?its ?w1] =>
      destruct (flush_items_outbox its w1) as (flushed & Ho & _ & Hall & Hb & Hf);
      destruct (flush_items str_stream its w1) as [[[]|e] w2] eqn:Hfl; [|done]
  end.
  cbn in Ho, Hall, Hb, Hf. rewrite (Hall eq_refl) in Ho.
  intros [= <-]. cbn. rewrite Hf. cbn. split_and!; [done..|].
  eexists. split; [exact Ho|]. split; [apply reports_done|].
  rewrite reports_keys.
  apply describe_buffer_keys in Hdesc.
  rewrite <- Hdesc. apply fmap_Permutation, map_to_list_to_map.
  rewrite Hdesc. apply NoDup_fst_map_to_list.
Qed.

(** A worker that has received the poison pill keeps the flag, asks for
    nothing more and takes no further job: whatever arrives, the only
    messages it still sends are the reports of a forced write. *)
Theorem worker_after_poison_pill lo hi w :
  poison_pill_received (worker_state w) = true →
  let w' := (loop_body process_function get_data_for_tag tag_map buffer_full
                       str_stream lo hi w).2 in
  poison_pill_received (worker_state w') = true
  ∧ ∃ new,
      outbox w' = outbox w ++ new
      ∧ Forall (λ s, s_tag s = WORKER_DONE_WITH_ITEM ∧ s_dest s = 0) new.
Proof.
  intros Hpill.
  assert (∀ w1, poison_pill_received (worker_state w1) = true →
    (request_or_receive process_function get_data_for_tag buffer_full w1).2 = w1)
    as Hidle.
  { intros w1 H1. unfold request_or_receive. rewrite H1.
    by destruct (waiting_for_write (worker_state w1)). }
  cbv zeta. unfold loop_body, _get_msg.
  destruct (take_msg MASTER_FORCES_WRITE (inbox w)) as [[msg|] i];
    cbv beta iota.
  2:{ rewrite Hidle by done. cbn. split; [done|]. exists [].
      by rewrite app_nil_r. }
  unfold forced_write.
  pose proof (sync_metadata_keeps tag_map lo hi (set_inbox i w)) as [Ho Hf].
  cbv zeta in Ho, Hf.
  destruct (_sync_metadata tag_map lo hi (set_inbox i w)) as [[[]|e] w1];
    cbn [snd] in Ho, Hf; cbv beta iota.
  2:{ cbn [snd]. rewrite Hf, Ho. split; [done|]. exists [].
      by rewrite app_nil_r. }
  destruct (flush_items_outbox (map_to_list (stream_buffer w1)) w1)
    as (flushed & Ho2 & _ & _ & _ & Hf2).
  destruct (flush_items str_stream (map_to_list (stream_buffer w1)) w1)
    as [[[]|e] w2]; cbn [snd] in Ho2, Hf2; cbv beta iota.
  - rewrite Hidle; cbn; rewrite Hf2, Hf; [|done].
    split; [done|]. exists (reports str_stream flushed).
    rewrite Ho2, Ho. split; [done|apply reports_done].
  - cbn [snd]. rewrite Hf2, Hf. split; [done|].
    exists (reports str_stream flushed).
    rewrite Ho2, Ho. split; [done|apply reports_done].
Qed.
End worker_reports.

Local Open Scope string_scope.

Lemma forced_write_reports_witness :
  ∃ w',
    Worker.forced_write Examples.tag_map (λ _, "1 Trace(s) in Stream")
      [[None]] []
      (Worker.mkState {[("BW.A", "raw") := [Examples.trace_A]]}
                      (Worker.mkFlags false true false) [] [] []
                      (Examples.fresh true)) = (Returned tt, w')
    ∧ Worker.stream_buffer w' = ∅.
Proof.
  eexists. split; [vm_compute; reflexivity|].
  edestruct (forced_write_reports Examples.tag_map
               (λ _, "1 Trace(s) in Stream") [[None]] []
               (Worker.mkState {[("BW.A", "raw") := [Examples.trace_A]]}
                               (Worker.mkFlags false true false) [] [] []
                               (Examples.fresh true)))
    as (Hb & _ & _); [vm_compute; reflexivity|].
  exact Hb.
Defined.

Lemma worker_after_poison_pill_witness :
  Worker.poison_pill_received
    (Worker.worker_state
       (Examples.worker_pass
          (Worker.mkState ∅ (Worker.mkFlags true false false)
                          [(MASTER_SENDS_ITEM, PItem ("BW.A", "raw"))] [] []
                          (Examples.fresh true)))) = true.
Proof.
  edestruct (worker_after_poison_pill Examples.raising_function
               Examples.input_data Examples.tag_map (λ _, false)
               (λ _, "1 Trace(s) in Stream") [[None]] []
               (Worker.mkState ∅ (Worker.mkFlags true false false)
                          [(MASTER_SENDS_ITEM, PItem ("BW.A", "raw"))] [] []
                          (Examples.fresh true)))
    as (Hp & _); [vm_compute; reflexivity|].
  exact Hp.
Defined.

Local Close Scope string_scope.

(** ** Adding waveforms: what is written and what is kept *)

Section adding_waveforms.
Import Store Contents.
Implicit Types (t : Trace) (ds : ASDFDataSet).

Lemma path_exists_dataset_at s n ds :
  path_exists s n ds = true ↔ is_Some (dataset_at s n ds).
Proof.
  unfold path_exists, dataset_at.
  destruct (waveform_group ds !! s) as [g|]; cbn.
  - by rewrite bool_decide_eq_true.
  - split; [done|]. by intros [? ?].
Qed.

Lemma path_exists_false s n ds :
  path_exists s n ds = false ↔ dataset_at s n ds = None.
Proof.
  rewrite <- not_true_iff_false, path_exists_dataset_at.
  rewrite <- eq_None_not_Some. done.
Qed.

Lemma dataset_at_insert s n (d : Dataset) (g : gmap string Dataset) ds s' n' :
  dataset_at s' n'
    (set_waveform_group (<[s := <[n := d]> g]> (waveform_group ds)) ds)
  = if decide (s' = s) then (if decide (n' = n) then Some d else g !! n')
    else dataset_at s' n' ds.
Proof.
  unfold dataset_at. cbn. destruct (decide (s' = s)) as [->|Hs].
  - rewrite lookup_insert_eq. cbn. destruct (decide (n' = n)) as [->|Hn].
    + by rewrite lookup_insert_eq.
    + by rewrite lookup_insert_ne.
  - by rewrite lookup_insert_ne.
Qed.

(** One round of the loop of [add_waveforms]: the trace is skipped with a
    warning when its path exists, and otherwise its dataset is created
    and filled; neither the collective nor the independent write can
    fail. *)
Lemma add_traces_round t rest tag i ds :
  let s := trace_station_name t in
  let n := trace_data_name t tag in
  ∃ ds1,
    add_traces (t :: rest) tag i ds = add_traces rest tag i ds1
    ∧ compression ds1 = compression ds ∧ mpi ds1 = mpi ds
    ∧ ((dataset_at s n ds ≠ None
        ∧ ds1 = warn (duplicate_warning t tag) ds)
       ∨ (dataset_at s n ds = None
          ∧ warnings ds1 = warnings ds
          ∧ ∃ info d,
              _add_trace_get_collective_information t tag i ds = (Some info, ds)
              ∧ d = mkDataset (dataset_creation_params info)
                              (dataset_attrs info) (data t)
              ∧ ∀ s' n', dataset_at s' n' ds1
                         = if decide (s' = s ∧ n' = n) then Some d
                           else dataset_at s' n' ds)).
Proof.
  intros s n. cbn [add_traces].
  unfold _add_trace_get_collective_information. fold s n.
  destruct (path_exists s n ds) eqn:Hex.
  - eexists. split; [reflexivity|]. split; [done|]. split; [done|].
    left. split; [|done].
    apply path_exists_dataset_at in Hex as [d Hd]. by rewrite Hd.
  - apply path_exists_false in Hex.
    set (info := mkInfo s _ _ _).
    unfold _add_trace_write_collective_information. cbn [station_name info
      dataset_creation_params cp_name cp_shape].
    set (g := default ∅ (waveform_group ds !! s)).
    assert (g !! n = None) as Hgn.
    { unfold g. unfold dataset_at in Hex.
      destruct (waveform_group ds !! s) as [g0|]; [done|]. apply lookup_empty. }
    assert (default ∅ (waveform_group
              (match waveform_group ds !! s with
               | Some _ => ds
               | None => set_waveform_group (<[s:=∅]> (waveform_group ds)) ds
               end) !! s) = g) as Hg1.
    { unfold g. destruct (waveform_group ds !! s) as [g0|] eqn:Hs.
      - by rewrite Hs.
      - cbn. by rewrite lookup_insert_eq. }
    rewrite Hg1, Hgn.
    unfold _add_trace_write_independent_information. cbn [station_name info
      dataset_creation_params cp_name waveform_group set_waveform_group].
    rewrite lookup_insert_eq, lookup_insert_eq. cbn [ds_value].
    rewrite length_replicate. unfold npts. rewrite decide_True by done.
    eexists. split; [reflexivity|].
    split; [destruct (waveform_group ds !! s); reflexivity|].
    split; [destruct (waveform_group ds !! s); reflexivity|].
    right. split; [done|].
    split; [destruct (waveform_group ds !! s); reflexivity|].
    exists info. eexists. split; [done|]. split; [reflexivity|].
    intros s' n'. unfold dataset_at. cbn.
    destruct (decide (s' = s)) as [->|Hs].
    + rewrite lookup_insert_eq. cbn. rewrite insert_insert_eq.
      destruct (decide (n' = n)) as [->|Hn].
      * rewrite lookup_insert_eq. by rewrite decide_True.
      * rewrite lookup_insert_ne by done.
        rewrite decide_False by (by intros [_ ?]).
        unfold g. by destruct (waveform_group ds !! s).
    + rewrite !lookup_insert_ne by done.
      rewrite decide_False by (by intros [? _]).
      destruct (waveform_group ds !! s) as [g0|] eqn:Hs0; [done|].
      cbn. by rewrite lookup_insert_ne.
Qed.

Lemma get_information_same_settings t tag i ds1 ds info :
  compression ds1 = compression ds → mpi ds1 = mpi ds →
  dataset_at (trace_station_name t) (trace_data_name t tag) ds = None →
  _add_trace_get_collective_information t tag i ds1 = (Some info, ds1) →
  _add_trace_get_collective_information t tag i ds = (Some info, ds).
Proof.
  intros Hc Hm Habs. unfold _add_trace_get_collective_information.
  apply path_exists_false in Habs. rewrite Habs.
  destruct (path_exists _ _ ds1); [done|].
  intros [= <-]. by rewrite Hc, Hm.
Qed.

Lemma add_id_lookup t (attrs : gmap string attr_value) name passed k :
  add_id t attrs (name, passed) !! k
  = if decide (k = name)
    then match written_id passed (asdf t !! name) with
         | Some v => Some v
         | None => attrs !! k
         end
    else attrs !! k.
Proof.
  unfold add_id, written_id.
  destruct (match passed with Some _ => passed | None => asdf t !! name end)
    as [s|]; [destruct (String.eqb s "")|];
    destruct (decide (k = name)) as [->|Hk]; try done.
  - by rewrite lookup_insert_eq.
  - by rewrite lookup_insert_ne.
Qed.

(** The attributes that [_add_trace_get_collective_information] prepares
    for a dataset: the start time, the sampling rate, and each of the
    four ids for which there is a non-empty value, where a value passed
    by the caller shadows the one of [trace.stats.asdf], also when the
    passed one is empty. *)
Theorem trace_attributes t tag i ds info :
  _add_trace_get_collective_information t tag i ds = (Some info, ds) →
  dataset_attrs info !! "starttime"%string = Some (AInt (starttime_ns t))
  ∧ dataset_attrs info !! "sampling_rate"%string
    = Some (AFloat (sampling_rate t))
  ∧ (∀ name passed, (name, passed) ∈ ids_items i →
       dataset_attrs info !! name = written_id passed (asdf t !! name))
  ∧ (∀ k, is_Some (dataset_attrs info !! k) →
       k ∈ ["starttime"; "sampling_rate"]%string ++ (ids_items i).*1).
Proof.
  unfold _add_trace_get_collective_information.
  destruct (path_exists _ _ ds); [done|]. intros Hinfo.
  apply (f_equal fst) in Hinfo. cbn [fst] in Hinfo.
  apply (inj Some) in Hinfo. rewrite <- Hinfo. clear Hinfo.
  unfold ids_items. cbn [foldl dataset_attrs].
  split_and!.
  - rewrite !add_id_lookup. repeat (rewrite decide_False by done).
    rewrite lookup_insert_ne by done. by rewrite lookup_insert_eq.
  - rewrite !add_id_lookup. repeat (rewrite decide_False by done).
    by rewrite lookup_insert_eq.
  - intros name passed Hin. rewrite !add_id_lookup.
    repeat (apply elem_of_cons in Hin as [[= -> ->]|Hin]);
      [| | | |by apply elem_of_nil in Hin].
    all: repeat first [rewrite decide_True by done
                      |rewrite decide_False by done].
    all: repeat (rewrite lookup_insert_ne by done); rewrite lookup_empty.
    all: repeat match goal with
           | |- context [written_id ?p ?o] => destruct (written_id p o)
           end; done.
  - intros k. rewrite !add_id_lookup. cbn.
    repeat (destruct (decide (k = _)) as [->|?];
            [intros _; set_solver|]).
    destruct (decide (k = "sampling_rate"%string)) as [->|?];
      [intros _; set_solver|].
    destruct (decide (k = "starttime"%string)) as [->|?];
      [intros _; set_solver|].
    rewrite !lookup_insert_ne by congruence. rewrite lookup_empty.
    by intros [? ?].
Qed.



Lemma add_traces_round_keeps t tag i ds ds1 :
  let s := trace_station_name t in
  let n := trace_data_name t tag in
  ((dataset_at s n ds ≠ None ∧ ds1 = warn (duplicate_warning t tag) ds)
   ∨ (dataset_at s n ds = None
      ∧ warnings ds1 = warnings ds
      ∧ ∃ info d,
          _add_trace_get_collective_information t tag i ds = (Some info, ds)
          ∧ d = mkDataset (dataset_creation_params info)
                          (dataset_attrs info) (data t)
          ∧ ∀ s' n', dataset_at s' n' ds1
                     = if decide (s' = s ∧ n' = n) then Some d
                       else dataset_at s' n' ds)) →
  (∀ s' n' d, dataset_at s' n' ds = Some d → dataset_at s' n' ds1 = Some d)
  ∧ is_Some (dataset_at s n ds1).
Proof.
  intros s n [[Hex ->]|(Habs & _ & info & d0 & _ & _ & Hat)].
  - split; [done|]. by apply not_eq_None_Some in Hex.
  - split.
    + intros s' n' d Hd. rewrite Hat, decide_False; [done|].
      intros [-> ->]. congruence.
    + rewrite Hat, decide_True by done. by eexists.
Qed.

Lemma add_traces_covers traces tag i ds :
  let ds' := (add_traces traces tag i ds).2 in
  (∀ s n d, dataset_at s n ds = Some d → dataset_at s n ds' = Some d)
  ∧ (∀ t, t ∈ traces →
       is_Some (dataset_at (trace_station_name t) (trace_data_name t tag) ds')).
Proof.
  cbv zeta. revert ds. induction traces as [|t rest IH]; intros ds.
  - cbn. split; [done|]. by intros t ?%elem_of_nil.
  - destruct (add_traces_round t rest tag i ds)
      as (ds1 & -> & _ & _ & Hround).
    apply add_traces_round_keeps in Hround as [Hkeep1 [d Hd]].
    destruct (IH ds1) as [Hkeep Hall]. split.
    + intros s n d' Hd'. by apply Hkeep, Hkeep1.
    + intros t' [->|Hin]%elem_of_cons; [|by apply Hall].
      exists d. by apply Hkeep.
Qed.

(** What the loop of [add_waveforms] leaves in the file: every dataset
    that was there is still there, unchanged; every trace has a dataset
    under its name; and every new dataset is the one that
    [_add_trace_get_collective_information] describes for one of the
    traces on the original file, holding the samples of that trace. *)
Theorem add_traces_datasets traces tag i ds :
  let ds' := (add_traces traces tag i ds).2 in
  (∀ s n d, dataset_at s n ds = Some d → dataset_at s n ds' = Some d)
  ∧ (∀ t, t ∈ traces →
       is_Some (dataset_at (trace_station_name t) (trace_data_name t tag) ds'))
  ∧ (∀ s n d, dataset_at s n ds = None → dataset_at s n ds' = Some d →
       ∃ t info, t ∈ traces
            ∧ s = trace_station_name t ∧ n = trace_data_name t tag
            ∧ _add_trace_get_collective_information t tag i ds = (Some info, ds)
            ∧ d = mkDataset (dataset_creation_params info)
                            (dataset_attrs info) (data t)).
Proof.
  cbv zeta. split; [apply add_traces_covers|]. split; [apply add_traces_covers|].
  revert ds. induction traces as [|t rest IH]; intros ds s n d Habs Hd.
  - cbn in Hd. congruence.
  - destruct (add_traces_round t rest tag i ds)
      as (ds1 & Heq & Hc & Hm & Hround).
    rewrite Heq in Hd.
    destruct (add_traces_covers rest tag i ds1) as [Hkeep _].
    destruct (dataset_at s n ds1) as [d1|] eqn:Hd1.
    + destruct Hround as [[_ ->]|(_ & _ & info & d0 & Hinfo & -> & Hat)];
        [unfold dataset_at in *; cbn in *; congruence|].
      rewrite Hat in Hd1. case_decide as Hsn; [|congruence].
      destruct Hsn as [-> ->]. injection Hd1 as <-.
      rewrite (Hkeep _ _ _ (eq_trans (Hat _ _)
                 (decide_True _ _ (conj eq_refl eq_refl)))) in Hd.
      injection Hd as <-. exists t, info.
      split; [apply list_elem_of_here|]. done.
    + destruct (IH ds1 s n d Hd1 Hd)
        as (t' & info & Hin & -> & -> & Hinfo & ->).
      exists t', info. split; [by apply list_elem_of_further|].
      split_and!; try done.
      by apply (get_information_same_settings t' tag i ds1 ds).
Qed.

Lemma add_traces_all_present traces tag i ds :
  (∀ t, t ∈ traces →
     dataset_at (trace_station_name t) (trace_data_name t tag) ds ≠ None) →
  add_traces traces tag i ds
  = (Returned tt,
     mkDataSet (waveform_group ds) (compression ds) (mpi ds)
               (warnings ds ++ ((λ t, duplicate_warning t tag) <$> traces))).
Proof.
  revert ds. induction traces as [|t rest IH]; intros ds Hall.
  - cbn. rewrite app_nil_r. by destruct ds.
  - destruct (add_traces_round t rest tag i ds) as (ds1 & -> & _ & _ & Hround).
    destruct Hround as [[_ ->]|[Habs _]].
    + rewrite IH.
      * cbn. by rewrite <- app_assoc.
      * intros t' Hin. apply (Hall t'). by apply list_elem_of_further.
    + exfalso. by eapply Hall; [apply list_elem_of_here|].
Qed.

(** Adding the same traces a second time (with whatever ids) changes no
    dataset: every trace is skipped with its warning. *)
Theorem add_traces_twice traces tag i i' ds :
  let ds1 := (add_traces traces tag i ds).2 in
  add_traces traces tag i' ds1
  = (Returned tt,
     mkDataSet (waveform_group ds1) (compression ds1) (mpi ds1)
               (warnings ds1 ++ ((λ t, duplicate_warning t tag) <$> traces))).
Proof.
  cbv zeta. apply add_traces_all_present. intros t Hin.
  destruct (add_traces_covers traces tag i ds) as [_ Hall].
  destruct (Hall t Hin) as [d Hd]. cbv zeta in Hd. by rewrite Hd.
Qed.
End adding_waveforms.

Local Open Scope string_scope.

Lemma trace_attributes_witness :
  ∃ info,
    Store._add_trace_get_collective_information Examples.trace_A "raw"
      (Store.mkIds (Some "smi:local/event") (Some "") None None)
      (Examples.fresh false) = (Some info, Examples.fresh false)
    ∧ Store.dataset_attrs info !! "event_id"
      = Some (Store._zeropad_ascii_string "smi:local/event")
    ∧ Store.dataset_attrs info !! "origin_id" = None.
Proof.
  eexists. split; [vm_compute; reflexivity|].
  edestruct (trace_attributes Examples.trace_A "raw"
               (Store.mkIds (Some "smi:local/event") (Some "") None None)
               (Examples.fresh false))
    as (_ & _ & Hids & _); [vm_compute; reflexivity|].
  split.
  - rewrite (Hids "event_id" (Some "smi:local/event"));
      [reflexivity|apply list_elem_of_here].
  - rewrite (Hids "origin_id" (Some ""));
      [reflexivity|apply list_elem_of_further, list_elem_of_here].
Defined.

Local Close Scope string_scope.
(** ** The station list, the job list and the output file of [process] *)

Section processing_more.
Import Store Processing Contents.

#[local] Instance key_le_total {V} : Total (@key_le V).
Proof. intros a b. apply String.leb_total. Qed.

Lemma Sorted_fst {V} (l : list (string * V)) :
  Sorted key_le l → Sorted string_le l.*1.
Proof.
  induction 1 as [|x l Hs IH Hhd]; cbn; constructor; [done|].
  destruct Hhd; cbn; by constructor.
Qed.

(** [get_station_list] returns every station group of the file exactly
    once, in ascending order. *)
Theorem get_station_list_sorted ds :
  Sorted string_le (get_station_list ds)
  ∧ NoDup (get_station_list ds)
  ∧ ∀ s, s ∈ get_station_list ds ↔ is_Some (waveform_group ds !! s).
Proof.
  unfold get_station_list, sorted_stations. split_and!.
  - apply Sorted_fst, Sorted_merge_sort, _.
  - rewrite merge_sort_Permutation. apply NoDup_fst_map_to_list.
  - intros s. rewrite merge_sort_Permutation. apply elem_of_map_keys.
Qed.

(** [process] enumerates no job twice: the ledger of the master, which
    finds a job by its arguments, never sees two jobs with the same
    (station, tag). *)
Theorem enumerate_NoDup (tag_map : gmap string string) ds :
  NoDup (enumerate tag_map ds).
Proof.
  unfold enumerate. apply NoDup_bind.
  - intros [s1 g1] [s2 g2] [s t] H1 H2 Ht1 Ht2. cbn in Ht1, Ht2.
    apply elem_of_station_tags_of in Ht1 as (-> & _).
    apply elem_of_station_tags_of in Ht2 as (-> & _).
    apply elem_of_sorted_stations in H1, H2. congruence.
  - intros [s g] _. cbn. unfold station_tags_of. case_bool_decide; [|constructor].
    apply NoDup_fmap_2; [by intros ?? [= ->]|].
    apply NoDup_filter. unfold tags_of. apply NoDup_remove_dups.
  - unfold sorted_stations. rewrite merge_sort_Permutation.
    apply NoDup_map_to_list.
Qed.

Lemma dataset_at_copy ds out s n :
  waveform_group out = copy_station_xml ds →
  dataset_at s n out
  = if decide (n = "StationXML"%string) then dataset_at s n ds else None.
Proof.
  intros Hout. unfold dataset_at. rewrite Hout. unfold copy_station_xml.
  rewrite lookup_fmap, map_lookup_filter.
  destruct (waveform_group ds !! s) as [g|] eqn:Hg; cbn;
    [|by destruct (decide _)].
  destruct (g !! "StationXML"%string) as [x|] eqn:Hx.
  - rewrite option_guard_True by (by eexists). cbn.
    rewrite map_lookup_filter. destruct (g !! n) as [d|] eqn:Hd; cbn.
    + destruct (decide (n = "StationXML"%string)) as [->|Hn].
      * by rewrite option_guard_True.
      * by rewrite option_guard_False.
    + by destruct (decide _).
  - rewrite option_guard_False by (by intros [? ?]). cbn.
    destruct (decide (n = "StationXML"%string)) as [->|Hn]; done.
Qed.

(** When [process] hands over to a dispatcher, the job list is not
    empty and the output path did not exist before; reopening the output
    file fails only with the [RuntimeError] of an MPI environment without
    parallel HDF5; the reopened data set holds the [StationXML] dataset
    of every station of the input that has one, and no other dataset (so
    the station information of every job is there and no waveform is);
    its MPI flag is what [is_mpi_env] detects, whatever the input was
    opened with, and exactly when it is set and the default compression
    compresses, the data set has the warning of the constructor and no
    compression. *)
Theorem process_output gzip_3 no_compression mpi4py parallel_hdf5
    output_filename (tag_map : gmap string string) ds (fs fs' : gset string)
    jobs file :
  process gzip_3 output_filename tag_map ds fs = (Returned (jobs, file), fs') →
  jobs ≠ [] ∧ (output_filename ∉ fs)
  ∧ (∀ e, reopen gzip_3 no_compression mpi4py parallel_hdf5 file = Raised e →
          e = RuntimeError ∧ is_mpi_env mpi4py = true
          ∧ parallel_hdf5 = false)
  ∧ ∀ out,
      reopen gzip_3 no_compression mpi4py parallel_hdf5 file = Returned out →
      (∀ s n, dataset_at s n out
              = if decide (n = "StationXML"%string) then dataset_at s n ds
                else None)
      ∧ (∀ s t, (s, t) ∈ jobs → is_Some (dataset_at s "StationXML" out))
      ∧ mpi out = is_mpi_env mpi4py
      ∧ (warnings out, compression out)
        = if match gzip_3.1 with
             | Some name => negb (String.eqb name "")
             | None => false
             end && is_mpi_env mpi4py
          then ([compression_warning], no_compression)
          else ([], gzip_3).
Proof.
  unfold process. case_bool_decide as Hex; [done|].
  destruct (enumerate tag_map ds) as [|j js] eqn:He; [done|].
  intros [= <- <- <-]. split; [done|]. split; [done|].
  unfold reopen, mpi_property.
  assert (is_mpi_env mpi4py = true → is_Some mpi4py) as Hsome.
  { destruct mpi4py; [by eexists|done]. }
  destruct (is_mpi_env mpi4py) eqn:Henv.
  - destruct (Hsome eq_refl) as [env ->]. rewrite andb_true_r.
    destruct parallel_hdf5.
    + split; [by destruct (match gzip_3.1 with Some _ => _ | None => _ end)|].
      intros out Hout.
      assert (waveform_group out = copy_station_xml ds
              ∧ mpi out = true
              ∧ (warnings out, compression out)
                = if match gzip_3.1 with
                     | Some name => negb (String.eqb name "")
                     | None => false
                     end
                  then ([compression_warning], no_compression)
                  else ([], gzip_3)) as (Hg & Hm & Hw).
      { destruct (match gzip_3.1 with Some _ => _ | None => _ end);
          injection Hout as <-; done. }
      split_and!; [|  |done|done].
      * intros s n. by apply dataset_at_copy.
      * intros s t Hin. rewrite <- He in Hin.
        apply elem_of_enumerate in Hin as (g & Hg' & Hx & _).
        rewrite (dataset_at_copy ds out) by done.
        rewrite decide_True by done. unfold dataset_at. by rewrite Hg'.
    + split; [by intros e [= <-]|]. done.
  - rewrite andb_false_r. split; [done|]. intros out [= <-].
    split_and!; try done.
    + intros s n. by apply dataset_at_copy.
    + intros s t Hin. rewrite <- He in Hin.
      apply elem_of_enumerate in Hin as (g & Hg' & Hx & _).
      rewrite (dataset_at_copy ds) by done.
      rewrite decide_True by done. unfold dataset_at. by rewrite Hg'.
Qed.
End processing_more.

Local Open Scope string_scope.

Lemma process_output_witness :
  ∃ jobs file fs' out,
    Processing.process (Some "gzip", Some 3%Z) "out.h5" Examples.tag_map
      Examples.input_file ∅ = (Returned (jobs, file), fs')
    ∧ Processing.reopen (Some "gzip", Some 3%Z) (None, None) (Some (4, 1))
        true file = Returned out
    ∧ Store.warnings out = [Processing.compression_warning]
    ∧ Contents.dataset_at "BW.A" (Examples.name_A "raw") out = None.
Proof.
  do 4 eexists. split; [vm_compute; reflexivity|].
  split; [vm_compute; reflexivity|].
  edestruct (process_output (Some "gzip", Some 3%Z) (None, None)
               (Some (4, 1)) true "out.h5" Examples.tag_map
               Examples.input_file ∅) as (_ & _ & _ & Hout);
    [vm_compute; reflexivity|].
  edestruct Hout as (Hat & _ & _ & Hw); [vm_compute; reflexivity|].
  split; [reflexivity|]. rewrite Hat. reflexivity.
Defined.

Local Close Scope string_scope.
(** ** Names: what is written can be found and parsed again *)

Section names.
Import PyText.
Local Open Scope string_scope.

Lemma append_cons c (a r : string) : String c a ++ r = String c (a ++ r).
Proof. reflexivity. Qed.

Lemma append_nil (r : string) : "" ++ r = r.
Proof. reflexivity. Qed.

Lemma append_nil_r (s : string) : s ++ "" = s.
Proof. induction s as [|c s IH]; [done|]. by rewrite append_cons, IH. Qed.

Lemma replace_char_back s :
  contains_char "_" s = false →
  replace_char "_" "." (replace_char "." "_" s) = s.
Proof.
  induction s as [|c s IH]; cbn; [done|].
  intros [Hc Hs]%orb_false_iff. rewrite IH by done. f_equal.
  destruct (Ascii.eqb c ".") eqn:Hd; [by apply Ascii.eqb_eq in Hd|].
  by rewrite Hc.
Qed.

Lemma replace_char_idem a b s :
  replace_char a b (replace_char a b s) = replace_char a b s.
Proof.
  induction s as [|c s IH]; cbn; [done|]. rewrite IH. f_equal.
  destruct (Ascii.eqb c a) eqn:Hc; [|by rewrite Hc].
  destruct (Ascii.eqb b a) eqn:Hb; [|done]. by apply Ascii.eqb_eq in Hb.
Qed.

Lemma replace_char_after s :
  replace_char "_" "." (replace_char "." "_" s) = replace_char "_" "." s.
Proof.
  induction s as [|c s IH]; cbn; [done|]. rewrite IH. f_equal.
  destruct (Ascii.eqb c ".") eqn:Hd; cbn.
  - apply Ascii.eqb_eq in Hd as ->. done.
  - done.
Qed.

Lemma replace_char_noop a b s :
  contains_char a s = false → replace_char a b s = s.
Proof.
  induction s as [|c s IH]; cbn [contains_char replace_char]; [done|].
  intros [Hc Hs]%orb_false_iff. by rewrite Hc, IH.
Qed.

Lemma replace_char_contains s :
  contains_char "_" s = true → replace_char "_" "." s ≠ s.
Proof.
  induction s as [|c s IH]; cbn; [done|].
  destruct (Ascii.eqb c "_") eqn:Hc; cbn.
  - apply Ascii.eqb_eq in Hc as ->. intros _ [=].
  - intros Hs [= Heq]. by apply IH.
Qed.

Lemma split_dot_nonempty s : split_dot s ≠ [].
Proof.
  destruct s as [|c s]; cbn; [done|].
  destruct (Ascii.eqb c "."); [done|]. by destruct (split_dot s).
Qed.

Lemma split_dot_prefix a r :
  contains_char "." a = false →
  split_dot (a ++ r)
  = (a ++ List.hd "" (split_dot r)) :: List.tl (split_dot r).
Proof.
  induction a as [|c a IH]; cbn [contains_char].
  - intros _. rewrite !append_nil.
    destruct (split_dot r) eqn:E; [by apply split_dot_nonempty in E|done].
  - intros [Hc Ha]%orb_false_iff. rewrite !append_cons. cbn [split_dot].
    rewrite Hc, IH by done. done.
Qed.

Lemma split_dot_field a r :
  contains_char "." a = false →
  split_dot (a ++ "." ++ r) = a :: split_dot r.
Proof.
  intros Ha. rewrite split_dot_prefix by done.
  rewrite append_cons, append_nil. cbn [split_dot Ascii.eqb].
  replace (Ascii.eqb "." ".") with true by done. cbn [hd tail].
  by rewrite append_nil_r.
Qed.

Lemma find_dunder_other c s :
  c ≠ "_"%char → find_dunder (String c s) = S <$> find_dunder s.
Proof. intros Hc. destruct c as [[] [] [] [] [] [] [] []]; done. Qed.

Lemma find_dunder_single c s :
  c ≠ "_"%char →
  find_dunder (String "_" (String c s)) = S <$> find_dunder (String c s).
Proof. intros Hc. destruct c as [[] [] [] [] [] [] [] []]; done. Qed.

(** The first ["__"] of [c ++ "__" ++ x] is the one written after [c]
    when [c] holds none and does not end in an underscore. *)
Lemma find_dunder_app c x :
  find_dunder (c ++ "_") = None →
  find_dunder (c ++ "__" ++ x) = Some (String.length c).
Proof.
  assert (∀ c, (find_dunder (c ++ "_") = None →
                find_dunder (c ++ "__" ++ x) = Some (String.length c))
               ∧ ∀ a, find_dunder (String a c ++ "_") = None →
                      find_dunder (String a c ++ "__" ++ x)
                      = Some (String.length (String a c))) as H;
    [|intros; by apply H].
  clear c. induction c as [|b c [IH1 IH2]].
  - split; [done|]. intros a.
    destruct (Ascii.ascii_dec a "_") as [->|Ha]; [done|].
    rewrite !append_cons, !append_nil. rewrite !(find_dunder_other a) by done.
    done.
  - split; [apply IH2|]. intros a. set (y := "__" ++ x) in *.
    destruct (Ascii.ascii_dec a "_") as [->|Ha].
    + destruct (Ascii.ascii_dec b "_") as [->|Hb]; [done|].
      pose proof (IH2 b) as IHb. rewrite !(append_cons b) in IHb.
      rewrite !(append_cons "_"), !(append_cons b).
      rewrite !find_dunder_single by done.
      intros Hn. apply fmap_None in Hn. by rewrite (IHb Hn).
    + rewrite !(append_cons a). rewrite !(find_dunder_other a) by done.
      intros Hn. apply fmap_None in Hn. by rewrite (IH2 b Hn).
Qed.

Lemma substring_prefix c x : substring 0 (String.length c) (c ++ x) = c.
Proof.
  induction c as [|a c IH]; [by destruct x|].
  rewrite append_cons. cbn. by rewrite IH.
Qed.

Lemma endswith_refl s : endswith s s = true.
Proof. destruct s; cbn [endswith]; by rewrite String.eqb_refl. Qed.

Lemma endswith_cons c s suffix :
  endswith s suffix = true → endswith (String c s) suffix = true.
Proof. intros H. cbn [endswith]. rewrite H. apply orb_true_r. Qed.

Lemma endswith_app x s : endswith (x ++ s) s = true.
Proof.
  induction x as [|c x IH]; [apply endswith_refl|].
  rewrite append_cons. by apply endswith_cons.
Qed.

(** Either [s] holds no separator, or it ends in ["__"] followed by its
    last field. *)
Lemma split_dunder_aux_last s :
  ∀ cur,
    PyStr.split_dunder_aux cur s = [string_of_list_ascii (rev cur) ++ s]
    ∨ endswith s ("__" ++ List.last (PyStr.split_dunder_aux cur s) "") = true.
Proof.
  assert ((∀ cur,
    PyStr.split_dunder_aux cur s = [string_of_list_ascii (rev cur) ++ s]
    ∨ endswith s ("__" ++ List.last (PyStr.split_dunder_aux cur s) "") = true)
    ∧ (∀ c cur,
    PyStr.split_dunder_aux cur (String c s)
    = [string_of_list_ascii (rev cur) ++ String c s]
    ∨ endswith (String c s)
        ("__" ++ List.last (PyStr.split_dunder_aux cur (String c s)) "")
      = true)) as H; [|apply H].
  assert (∀ cur c s', string_of_list_ascii (rev (c :: cur)) ++ s'
                      = string_of_list_ascii (rev cur) ++ String c s') as Hrev.
  { intros cur c s'. cbn [rev].
    induction (rev cur) as [|a l IHl]; [reflexivity|].
    cbn [app string_of_list_ascii]. rewrite !append_cons. by rewrite IHl. }
  induction s as [|c' s' [IH1 IH2]].
  - split.
    + intros cur. left. cbn [PyStr.split_dunder_aux].
      by rewrite append_nil_r.
    + intros c cur. left.
      assert (PyStr.split_dunder_aux cur (String c "")
              = [string_of_list_ascii (rev (c :: cur))]) as ->.
      { destruct c as [[] [] [] [] [] [] [] []]; done. }
      by rewrite <- Hrev, append_nil_r.
  - split; [apply IH2|]. intros c cur.
    destruct (Ascii.ascii_dec c "_") as [->|Hc].
    + destruct (Ascii.ascii_dec c' "_") as [->|Hc'].
      * right. cbn [PyStr.split_dunder_aux].
        pose proof (proj1 (split_dunder_aux_nonempty s') []) as Hne.
        destruct (IH1 []) as [Hs|He].
        -- rewrite Hs. cbn [List.last rev string_of_list_ascii].
           rewrite append_nil. apply endswith_refl.
        -- destruct (PyStr.split_dunder_aux [] s') as [|f fs] eqn:Hf; [done|].
           change (List.last (?x :: f :: fs) "") with (List.last (f :: fs) "").
           by do 2 apply endswith_cons.
      * rewrite split_dunder_aux_single by done.
        destruct (IH2 c' ("_"%char :: cur)) as [Hs|He].
        -- left. by rewrite Hs, Hrev.
        -- right. by apply endswith_cons.
    + rewrite split_dunder_aux_other by done.
      destruct (IH2 c' (c :: cur)) as [Hs|He].
      * left. by rewrite Hs, Hrev.
      * right. by apply endswith_cons.
Qed.

Lemma last_field_endswith w :
  PyStr.last_field w = w
  ∨ endswith w ("__" ++ PyStr.last_field w) = true.
Proof.
  unfold PyStr.last_field, PyStr.split_dunder.
  destruct (split_dunder_aux_last w []) as [Hs|He]; [left|by right].
  by rewrite Hs.
Qed.
End names.

(** ** Reading back what was written *)

Section reading_back.
Import Store Contents PyText Reading.
Variable utc_datetime : attr_value → outcome pyfloat.
Variable to_float : attr_value → outcome pyfloat.
Variable resource_identifier : attr_value → outcome string.
Implicit Types (t : Trace) (ds : ASDFDataSet).

(** The name of a dataset gives the four codes of its trace back when the
    codes hold no dot and the channel code holds no ["__"] and does not
    end in an underscore. *)
Lemma parse_data_name t tag :
  contains_char "." (network t) = false →
  contains_char "." (station t) = false →
  contains_char "." (location t) = false →
  contains_char "." (channel t) = false →
  find_dunder (channel t ++ "_")%string = None →
  ∃ field,
    take 4 (split_dot (trace_data_name t tag))
    = [network t; station t; location t; field]
    ∧ slice_to (find_dunder field) field = channel t.
Proof.
  intros Hn Hs Hl Hc Hd. unfold trace_data_name.
  rewrite !split_dot_field by done.
  rewrite (split_dot_prefix (channel t)) by done.
  rewrite (split_dot_prefix "__") by done.
  eexists. split; [reflexivity|]. cbn [hd].
  rewrite find_dunder_app by done. cbn [slice_to].
  apply substring_prefix.
Qed.

Lemma written_id_kept passed own :
  written_id passed own = _zeropad_ascii_string <$> kept_id passed own.
Proof.
  unfold written_id, kept_id.
  destruct (match passed with Some _ => passed | None => own end) as [s|];
    [|done].
  by destruct (String.eqb s "").
Qed.

(** The dataset of the first trace of a path is the one described for it
    on the original file, whatever follows it in the list. *)
Lemma add_traces_first pre t post tag i ds :
  (∀ t', t' ∈ pre →
     (trace_station_name t', trace_data_name t' tag)
     ≠ (trace_station_name t, trace_data_name t tag)) →
  dataset_at (trace_station_name t) (trace_data_name t tag) ds = None →
  ∃ info,
    _add_trace_get_collective_information t tag i ds = (Some info, ds)
    ∧ dataset_at (trace_station_name t) (trace_data_name t tag)
        (add_traces (pre ++ t :: post) tag i ds).2
      = Some (mkDataset (dataset_creation_params info) (dataset_attrs info)
                        (data t)).
Proof.
  revert ds. induction pre as [|t0 pre IH]; intros ds Hfirst Habs.
  - cbn [app].
    destruct (add_traces_round t post tag i ds)
      as (ds1 & -> & Hc & Hm & Hround).
    destruct Hround as [[Hex _]|(_ & _ & info & d & Hinfo & -> & Hat)];
      [done|].
    exists info. split; [done|].
    apply (add_traces_covers post tag i ds1). by rewrite Hat, decide_True.
  - change ((t0 :: pre) ++ t :: post) with (t0 :: (pre ++ t :: post)).
    destruct (add_traces_round t0 (pre ++ t :: post) tag i ds)
      as (ds1 & -> & Hc & Hm & Hround).
    assert ((trace_station_name t0, trace_data_name t0 tag)
            ≠ (trace_station_name t, trace_data_name t tag)) as Hne.
    { apply Hfirst, list_elem_of_here. }
    assert (dataset_at (trace_station_name t) (trace_data_name t tag) ds1
            = None) as Habs1.
    { destruct Hround as [[_ ->]|(_ & _ & info & d & _ & _ & Hat)]; [done|].
      rewrite Hat, decide_False; [done|]. intros [Hs Hn]. apply Hne.
      by rewrite Hs, Hn. }
    destruct (IH ds1) as (info & Hinfo & Hd); [|done|].
    { intros t' Hin. by apply Hfirst, list_elem_of_further. }
    exists info. split; [|done].
    by apply (get_information_same_settings t tag i ds1 ds).
Qed.

Lemma info_attributes t tag i ds info :
  _add_trace_get_collective_information t tag i ds = (Some info, ds) →
  dataset_attrs info !! "starttime"%string = Some (AInt (starttime_ns t))
  ∧ dataset_attrs info !! "sampling_rate"%string
    = Some (AFloat (sampling_rate t))
  ∧ Forall (λ item, dataset_attrs info !! item.1
                    = written_id item.2 (asdf t !! item.1)) (ids_items i).
Proof.
  unfold _add_trace_get_collective_information.
  destruct (path_exists _ _ ds); [done|]. intros Hinfo.
  apply (f_equal fst) in Hinfo. cbn [fst] in Hinfo.
  apply (inj Some) in Hinfo. rewrite <- Hinfo. clear Hinfo.
  unfold ids_items. cbn [foldl dataset_attrs].
  split_and!.
  - rewrite !add_id_lookup. repeat (rewrite decide_False by done).
    rewrite lookup_insert_ne by done. by rewrite lookup_insert_eq.
  - rewrite !add_id_lookup. repeat (rewrite decide_False by done).
    by rewrite lookup_insert_eq.
  - repeat apply Forall_cons_2; [..|apply Forall_nil_2]; cbn [fst snd];
      rewrite !add_id_lookup.
    all: repeat first [rewrite decide_True by done
                      |rewrite decide_False by done].
    all: repeat (rewrite lookup_insert_ne by done); rewrite lookup_empty.
    all: repeat match goal with
           | |- context [written_id ?p ?o] => destruct (written_id p o)
           end; done.
Qed.

Lemma read_ids_written (rid : string → string) t (i : ids)
    (attrs : gmap string attr_value) :
  (∀ s, resource_identifier (_zeropad_ascii_string s) = Returned (rid s)) →
  Forall (λ item, attrs !! item.1 = written_id item.2 (asdf t !! item.1))
         (ids_items i) →
  read_ids resource_identifier id_names attrs = Returned (read_back_ids rid t i).
Proof.
  intros Hrid Hall. unfold read_back_ids, id_names, ids_items in *.
  repeat match goal with
         | H : Forall _ (_ :: _) |- _ =>
             apply Forall_cons in H as [? H]; cbn [fst snd] in *
         end.
  cbn [read_ids omap list_omap fst snd].
  repeat match goal with
         | H : attrs !! _ = _ |- _ => rewrite H; clear H
         end.
  rewrite !written_id_kept.
  repeat match goal with
         | |- context [kept_id ?p ?o] =>
             destruct (kept_id p o); cbn [fmap option_fmap option_map]
         end; rewrite ?Hrid; reflexivity.
Qed.

(** Reading back.  After the loop of [add_waveforms], [_get_waveform]
    on the name of a trace that is new to the file and the first of its
    path in the list (later traces of the same path are skipped), whose
    codes hold no dot and whose channel code holds no ["__"] and does not
    end in an underscore, returns the samples, the codes and the sampling
    rate of that trace, its start time as stored in nanoseconds, and the
    ids that were kept for it. *)
Theorem waveform_round_trip pre t post tag i ds starttime rate
    (rid : string → string) :
  (∀ t', t' ∈ pre →
     (trace_station_name t', trace_data_name t' tag)
     ≠ (trace_station_name t, trace_data_name t tag)) →
  dataset_at (trace_station_name t) (trace_data_name t tag) ds = None →
  contains_char "." (network t) = false →
  contains_char "." (station t) = false →
  contains_char "." (location t) = false →
  contains_char "." (channel t) = false →
  find_dunder (channel t ++ "_")%string = None →
  utc_datetime (AInt (starttime_ns t)) = Returned starttime →
  to_float (AFloat (sampling_rate t)) = Returned rate →
  (∀ s, resource_identifier (_zeropad_ascii_string s) = Returned (rid s)) →
  _get_waveform utc_datetime to_float resource_identifier
    (trace_data_name t tag) (add_traces (pre ++ t :: post) tag i ds).2
  = Returned (mkWaveform (data t) starttime rate (network t) (station t)
                         (location t) (channel t) (read_back_ids rid t i)).
Proof.
  intros Hfirst Habs Hn Hs Hl Hc Hd Hutc Hrate Hrid.
  destruct (add_traces_first pre t post tag i ds Hfirst Habs)
    as (info & Hinfo & Hat).
  destruct (parse_data_name t tag Hn Hs Hl Hc Hd) as (field & Hsplit & Hcha).
  destruct (info_attributes t tag i ds info Hinfo) as (Hstart & Hsr & Hids).
  unfold _get_waveform. rewrite Hsplit, Hcha.
  unfold dataset_at, trace_station_name in Hat.
  destruct (waveform_group (add_traces (pre ++ t :: post) tag i ds).2
              !! (network t ++ "." ++ station t)%string) as [g|];
    [|done].
  cbn in Hat. rewrite Hat. cbn [ds_attrs ds_value].
  rewrite Hstart, Hutc, Hsr, Hrate.
  by rewrite (read_ids_written rid t i).
Qed.
End reading_back.

(** ** The accessors, [get_data_for_tag], [validate] and the station
    information *)

Section accessors.
Import Store Contents PyText Reading Processing.
Variable utc_datetime : attr_value → outcome pyfloat.
Variable to_float : attr_value → outcome pyfloat.
Variable resource_identifier : attr_value → outcome string.
Variable Inventory : Type.
Variable read_inventory : list pyfloat → outcome Inventory.
Variable write_inventory : Inventory → list pyfloat.
Variable station_accessor_has : string → bool.
Variable waveform_accessor_has : string → bool.
Implicit Types (ds : ASDFDataSet) (g : gmap string Dataset).

(** [get_data_for_tag] looks for the group whose name is the station
    name with every underscore replaced by a dot: for a station name with
    an underscore that is another name.  Where that name is a plain one,
    the call raises [AttributeError] unless a group of that name exists,
    and what it returns is the station information of, and the waveforms
    selected in, that group. *)
Theorem get_data_for_tag_reads station_name tag ds :
  let name := replace_char "_" "." station_name in
  (contains_char "_" station_name = true → name ≠ station_name)
  ∧ (contains_char "_" station_name = false → name = station_name)
  ∧ (plain_name name = true → waveform_group ds !! name = None →
     get_data_for_tag utc_datetime to_float resource_identifier Inventory
       read_inventory station_accessor_has waveform_accessor_has
       station_name tag ds = Some (Raised AttributeError))
  ∧ (∀ st inv,
       get_data_for_tag utc_datetime to_float resource_identifier Inventory
         read_inventory station_accessor_has waveform_accessor_has
         station_name tag ds = Some (Returned (st, inv)) →
       plain_name name = true
       ∧ (∃ x, _get_station Inventory read_inventory name ds = Returned x
               ∧ inv = StationInformation x)
       ∧ (waveform_accessor_has tag = false → tag ≠ "StationXML"%string →
          ∃ g traces,
            waveform_group ds !! name = Some g
            ∧ get_waveforms utc_datetime to_float resource_identifier
                (keys_for tag g) ds = Returned traces
            ∧ st = Waveforms traces)).
Proof.
  cbv zeta. split; [apply replace_char_contains|].
  split.
  { intros Hs. rewrite <- (replace_char_back station_name) at 2 by done.
    by rewrite replace_char_after. }
  unfold get_data_for_tag, station_getattr.
  rewrite replace_char_after.
  destruct (station_accessor_has _).
  { split; [done|]. intros st inv [=]. }
  destruct (plain_name (replace_char "_" "." station_name)) eqn:Hplain.
  2:{ split; [done|]. intros st inv [=]. }
  case_bool_decide as Hg.
  2:{ split; [done|]. intros st inv [=]. }
  split; [intros _ Hn; rewrite Hn in Hg; by destruct Hg|].
  intros st inv.
  destruct (waveform_accessor_has tag) eqn:Hown.
  - destruct (waveform_getattr _ _ _ _ _ _ "StationXML" ds)
      as [a|e] eqn:Hinv; [|done].
    intros [= <- <-]. split; [done|]. split; [|done].
    unfold waveform_getattr in Hinv. rewrite decide_False in Hinv by (by intros ?).
    destruct (_get_station _ _ _ ds) as [x|e]; [|done].
    injection Hinv as <-. by exists x.
  - destruct (waveform_getattr _ _ _ _ _ _ tag ds) as [a|e] eqn:Hst; [|done].
    destruct (waveform_getattr _ _ _ _ _ _ "StationXML" ds)
      as [b|e] eqn:Hinv; [|done].
    intros [= <- <-]. split; [done|]. split.
    + unfold waveform_getattr in Hinv.
      rewrite decide_False in Hinv by (by intros ?).
      destruct (_get_station _ _ _ ds) as [x|e]; [|done].
      injection Hinv as <-. by exists x.
    + intros _ Htag. unfold waveform_getattr in Hst.
      rewrite decide_True in Hst by done.
      destruct Hg as [g Hg]. rewrite Hg in Hst.
      destruct (get_waveforms _ _ _ _ ds) as [traces|e] eqn:Htr; [|done].
      injection Hst as <-. by exists g, traces.
Qed.

#[local] Instance string_le_total : Total string_le.
Proof. intros a b. apply String.leb_total. Qed.

Lemma sorted_set_spec l :
  NoDup (sorted_set l) ∧ Sorted string_le (sorted_set l)
  ∧ ∀ x, x ∈ sorted_set l ↔ x ∈ l.
Proof.
  unfold sorted_set. split_and!.
  - rewrite merge_sort_Permutation. apply NoDup_remove_dups.
  - apply Sorted_merge_sort, _.
  - intros x. rewrite merge_sort_Permutation. apply elem_of_remove_dups.
Qed.

(** [dir] of a station: a sorted list without repetitions of
    ["StationXML"], when the group holds it, and of the last field of the
    name of every other dataset; each such tag is the whole name of the
    dataset it comes from or selects it in [__getattr__]. *)
Theorem waveform_dir_selects station_name ds g :
  waveform_group ds !! station_name = Some g →
  ∃ contents,
    waveform_dir station_name ds = Returned contents
    ∧ NoDup contents ∧ Sorted string_le contents
    ∧ ∀ item,
        item ∈ contents
        ↔ (item = "StationXML"%string ∧ is_Some (g !! "StationXML"%string))
          ∨ ∃ key, is_Some (g !! key) ∧ key ≠ "StationXML"%string
                   ∧ item = PyStr.last_field key
                   ∧ (key = item ∨ key ∈ keys_for item g).
Proof.
  intros Hg. unfold waveform_dir. rewrite Hg. eexists. split; [done|].
  destruct (sorted_set_spec
    ((if bool_decide (is_Some (g !! "StationXML"%string))
      then ["StationXML"%string] else [])
     ++ (PyStr.last_field
           <$> filter (λ k, k ≠ "StationXML"%string) (map_to_list g).*1)))
    as (Hnd & Hs & Hin).
  split; [done|]. split; [done|].
  intros item. rewrite Hin, elem_of_app, list_elem_of_fmap.
  setoid_rewrite list_elem_of_filter. setoid_rewrite elem_of_map_keys.
  split.
  - intros [Hx|(key & -> & Hne & Hkey)].
    + left. case_bool_decide as Hxml; [|by apply elem_of_nil in Hx].
      by apply list_elem_of_singleton in Hx as ->.
    + right. exists key. split_and!; try done.
      destruct (last_field_endswith key) as [Heq|Hends]; [by left|right].
      done.
  - intros [[-> Hx]|(key & Hkey & Hne & -> & _)].
    + left. rewrite bool_decide_eq_true_2 by done. apply list_elem_of_here.
    + right. by exists key.
Qed.

(** Station information, written and read: [_get_station] parses exactly
    the bytes that [_add_inventory_object] got from the inventory; no
    other dataset is touched, and an existing [StationXML] dataset keeps
    its attributes and creation settings. *)
Theorem inventory_round_trip inv network_id station_id ds :
  let name := (network_id ++ "." ++ station_id)%string in
  let ds' := _add_inventory_object Inventory write_inventory inv network_id
               station_id ds in
  _get_station Inventory read_inventory name ds'
  = match read_inventory (write_inventory inv) with
    | Raised e => Raised e
    | Returned x => Returned (Some x)
    end
  ∧ (∀ s n, (s, n) ≠ (name, "StationXML"%string) →
       dataset_at s n ds' = dataset_at s n ds)
  ∧ (∃ d, dataset_at name "StationXML" ds' = Some d
          ∧ ds_value d = write_inventory inv
          ∧ cp_shape (ds_params d) = length (write_inventory inv)
          ∧ match dataset_at name "StationXML" ds with
            | Some old =>
                ds_attrs d = ds_attrs old
                ∧ cp_fletcher32 (ds_params d) = cp_fletcher32 (ds_params old)
                ∧ cp_compression (ds_params d) = cp_compression (ds_params old)
            | None =>
                ds_attrs d = ∅ ∧ cp_fletcher32 (ds_params d) = true
                ∧ cp_compression (ds_params d) = None
            end)
  ∧ warnings ds' = warnings ds ∧ mpi ds' = mpi ds.
Proof.
  cbv zeta. unfold _add_inventory_object.
  set (name := (network_id ++ "." ++ station_id)%string).
  set (group := default ∅ (waveform_group ds !! name)).
  assert (dataset_at name "StationXML" ds = group !! "StationXML"%string)
    as Hold.
  { unfold dataset_at, group. by destruct (waveform_group ds !! name). }
  split_and!.
  - unfold _get_station. cbn. rewrite lookup_insert_eq, lookup_insert_eq.
    by destruct (group !! "StationXML"%string).
  - intros s n Hne. rewrite dataset_at_insert.
    destruct (decide (s = name)) as [->|Hs]; [|done].
    destruct (decide (n = "StationXML"%string)) as [->|Hn]; [done|].
    unfold dataset_at, group. by destruct (waveform_group ds !! name).
  - rewrite dataset_at_insert, !decide_True by done. eexists.
    split; [reflexivity|]. rewrite Hold.
    by destruct (group !! "StationXML"%string).
  - done.
  - done.
Qed.
Lemma forallb_false {A} (f : A → bool) (l : list A) :
  forallb f l = false ↔ ∃ x, x ∈ l ∧ f x = false.
Proof.
  induction l as [|y l IH]; cbn [forallb].
  - split; [done|]. by intros (x & ?%elem_of_nil & _).
  - rewrite andb_false_iff, IH. split.
    + intros [Hy|(x & Hin & Hx)].
      * exists y. split; [apply list_elem_of_here|done].
      * exists x. split; [by apply list_elem_of_further|done].
    + intros (x & [->|Hin]%elem_of_cons & Hx); [by left|].
      right. by exists x.
Qed.

(** One round of [validate], for a name that is an attribute of the
    accessor or is read back as a plain name: it raises exactly when that
    name is no group of the file (and no attribute of the accessor); it
    counts the station at most once. *)
Lemma validate_station_outcome station_id ds (summary : Summary) :
  let total (s : Summary) :=
    (no_station_information s + no_waveforms s + good_stations s)%nat in
  station_accessor_has station_id = true
  ∨ plain_name (replace_char "_" "." station_id) = true →
  if station_accessor_has station_id
     || bool_decide (is_Some (waveform_group ds
                                !! replace_char "_" "." station_id))
  then ∃ summary',
         validate_station station_accessor_has station_id ds summary
         = Some (Returned summary')
         ∧ (total summary' ≤ S (total summary))%nat
  else validate_station station_accessor_has station_id ds summary
       = Some (Raised AttributeError).
Proof.
  cbv zeta. unfold validate_station, station_getattr. intros Hplain.
  destruct (station_accessor_has station_id); cbn [orb].
  { eexists. split; [reflexivity|]. cbn. lia. }
  destruct Hplain as [? | ->]; [done|].
  case_bool_decide as Hg; [|done].
  unfold waveform_dir. destruct Hg as [g Hg]. rewrite Hg.
  match goal with
  | |- context [sorted_set ?l] => destruct (sorted_set l) as [|c contents]
  end.
  { eexists. split; [reflexivity|]. lia. }
  case_bool_decide.
  - destruct (filter _ (c :: contents));
      (eexists; split; [reflexivity|]; cbn; lia).
  - eexists. split; [reflexivity|]. cbn. lia.
Qed.

Lemma validate_loop_outcome station_ids ds (summary : Summary) :
  let total (s : Summary) :=
    (no_station_information s + no_waveforms s + good_stations s)%nat in
  let found id :=
    station_accessor_has id
    || bool_decide (is_Some (waveform_group ds !! replace_char "_" "." id)) in
  (∀ id, id ∈ station_ids →
     station_accessor_has id = true
     ∨ plain_name (replace_char "_" "." id) = true) →
  if forallb found station_ids
  then ∃ summary',
         validate_loop station_accessor_has station_ids ds summary
         = Some (Returned summary')
         ∧ (total summary' ≤ total summary + length station_ids)%nat
  else validate_loop station_accessor_has station_ids ds summary
       = Some (Raised AttributeError).
Proof.
  cbv zeta. revert summary.
  induction station_ids as [|id rest IH]; intros summary Hplain;
    cbn [forallb validate_loop].
  { eexists. split; [reflexivity|]. cbn. lia. }
  pose proof (validate_station_outcome id ds summary
                (Hplain id (list_elem_of_here _ _))) as Hone.
  cbv zeta in Hone.
  assert (∀ id', id' ∈ rest →
            station_accessor_has id' = true
            ∨ plain_name (replace_char "_" "." id') = true) as Hrest.
  { intros id' Hin. by apply Hplain, list_elem_of_further. }
  destruct (station_accessor_has id
            || bool_decide (is_Some (waveform_group ds
                                       !! replace_char "_" "." id)));
    cbn [andb].
  - destruct Hone as (s1 & -> & Hle). specialize (IH s1 Hrest).
    destruct (forallb _ rest).
    + destruct IH as (s2 & -> & Hle2). eexists. split; [reflexivity|].
      cbn [length]. lia.
    + done.
  - by rewrite Hone.
Qed.

(** [validate] on a file in which every station name, with its dots
    replaced by underscores, is an attribute of the accessor or is read
    back, every underscore turned into a dot, as a plain name.  It raises,
    and then an [AttributeError], exactly when the file holds a station
    whose name read back in that way is no group of the file (and the
    name with underscores is no attribute of the accessor): it returns
    for every file whose station names hold no underscore.  When it
    returns, it has counted every entry of [dir(self.waveforms)] at most
    once. *)
Theorem validate_outcome ds :
  (∀ s, is_Some (waveform_group ds !! s) →
        station_accessor_has (replace_char "." "_" s) = true
        ∨ plain_name (replace_char "_" "." s) = true) →
  ((∃ e, validate station_accessor_has ds = Some (Raised e))
   ↔ ∃ s, is_Some (waveform_group ds !! s)
          ∧ station_accessor_has (replace_char "." "_" s) = false
          ∧ waveform_group ds !! replace_char "_" "." s = None)
  ∧ (∀ e, validate station_accessor_has ds = Some (Raised e) →
          e = AttributeError)
  ∧ (∀ summary, validate station_accessor_has ds = Some (Returned summary) →
       (no_station_information summary + no_waveforms summary
        + good_stations summary ≤ length (station_dir ds))%nat)
  ∧ ((∀ s, is_Some (waveform_group ds !! s) → contains_char "_" s = false) →
     ∃ summary, validate station_accessor_has ds = Some (Returned summary))
  ∧ validate station_accessor_has ds ≠ None.
Proof.
  intros Hplain. unfold validate.
  pose proof (validate_loop_outcome (station_dir ds) ds (mkSummary 0 0 0))
    as Hloop. cbv zeta in Hloop.
  assert (∀ id, id ∈ station_dir ds →
            station_accessor_has id = true
            ∨ plain_name (replace_char "_" "." id) = true) as Hids.
  { intros id Hin. unfold station_dir in Hin.
    apply sorted_set_spec, list_elem_of_fmap in Hin as (s & -> & Hs).
    apply elem_of_map_keys in Hs. rewrite replace_char_after.
    by apply Hplain. }
  specialize (Hloop Hids).
  set (found := λ id, station_accessor_has id
    || bool_decide (is_Some (waveform_group ds !! replace_char "_" "." id)))
    in *.
  assert (forallb found (station_dir ds) = false
          ↔ ∃ s, is_Some (waveform_group ds !! s)
                 ∧ station_accessor_has (replace_char "." "_" s) = false
                 ∧ waveform_group ds !! replace_char "_" "." s = None)
    as Hmissing.
  { rewrite forallb_false. unfold station_dir. split.
    - intros (id & Hin & Hid).
      apply sorted_set_spec, list_elem_of_fmap in Hin as (s & -> & Hs).
      apply elem_of_map_keys in Hs. exists s.
      unfold found in Hid. rewrite replace_char_after in Hid.
      apply orb_false_iff in Hid as [Hown Hgr].
      rewrite bool_decide_eq_false in Hgr.
      split_and!; [done..|]. by apply eq_None_not_Some.
    - intros (s & Hs & Hown & Hgr). exists (replace_char "." "_" s). split.
      + apply sorted_set_spec, list_elem_of_fmap.
        exists s. split; [done|]. by apply elem_of_map_keys.
      + unfold found. rewrite replace_char_after, Hown, Hgr.
        cbn [orb]. apply bool_decide_eq_false_2. by intros [? ?]. }
  destruct (forallb found (station_dir ds)) eqn:Hall.
  - destruct Hloop as (summary & Hv & Hle). rewrite Hv. split_and!.
    + split; [by intros [e ?]|]. intros Hex. apply Hmissing in Hex. done.
    + done.
    + intros s [= <-]. cbn in Hle. lia.
    + intros _. by exists summary.
    + done.
  - rewrite Hloop. split_and!.
    + split; [intros _; by apply Hmissing|]. intros _. by eexists.
    + by intros e [= <-].
    + done.
    + intros Hclean. exfalso.
      destruct (proj1 Hmissing eq_refl) as (s & Hs & _ & Hgr).
      rewrite replace_char_noop in Hgr by (by apply Hclean).
      rewrite Hgr in Hs. by destruct Hs.
    + done.
Qed.
End accessors.

Local Open Scope string_scope.

Lemma waveform_round_trip_witness :
  ∃ tr,
    Reading._get_waveform (λ _, Returned 0%Z) (λ _, Returned 0%Z)
      (λ _, Returned "id")
      (Store.trace_data_name Examples.trace_A "raw")
      (Store.add_traces
         [Examples.trace_A;
          Store.mkTrace "BW" "A" "" "EHZ" "2009-08-24T00:20:03"
            "2009-08-24T00:20:03" 1251073203000000000%Z
            4636737291354636288%Z "float32" [0%Z] ∅ None]
         "raw" Store.no_ids (Examples.fresh false)).2 = Returned tr
    ∧ Reading.w_data tr = Store.data Examples.trace_A.
Proof.
  eexists. split.
  - apply (waveform_round_trip (λ _, Returned 0%Z) (λ _, Returned 0%Z)
             (λ _, Returned "id") [] Examples.trace_A
             [Store.mkTrace "BW" "A" "" "EHZ" "2009-08-24T00:20:03"
                "2009-08-24T00:20:03" 1251073203000000000%Z
                4636737291354636288%Z "float32" [0%Z] ∅ None]
             "raw" Store.no_ids (Examples.fresh false) 0%Z 0%Z (λ _, "id")).
    + intros t' Hin. by apply elem_of_nil in Hin.
    + vm_compute. reflexivity.
    + vm_compute. reflexivity.
    + vm_compute. reflexivity.
    + vm_compute. reflexivity.
    + vm_compute. reflexivity.
    + vm_compute. reflexivity.
    + reflexivity.
    + reflexivity.
    + intros s. reflexivity.
  - reflexivity.
Defined.

Local Close Scope string_scope.

Local Open Scope string_scope.

Lemma waveform_dir_selects_witness :
  ∃ contents,
    Reading.waveform_dir "BW.A" Examples.input_file = Returned contents
    ∧ NoDup contents.
Proof.
  assert (∃ g, Store.waveform_group Examples.input_file !! "BW.A" = Some g)
    as [g Hg].
  { eexists. vm_compute. reflexivity. }
  destruct (waveform_dir_selects "BW.A" Examples.input_file g Hg)
    as (contents & Hdir & Hnd & _ & _).
  exists contents. split; [exact Hdir|exact Hnd].
Defined.

Local Close Scope string_scope.

Local Open Scope string_scope.

Lemma validate_outcome_witness :
  ∃ summary,
    Reading.validate (λ _, false) Examples.input_file
    = Some (Returned summary).
Proof.
  assert (∀ s, is_Some (Store.waveform_group Examples.input_file !! s) →
               s = "BW.A" ∨ s = "BW.B") as Hkeys.
  { intros s Hs. unfold Examples.input_file in Hs.
    cbn [Store.waveform_group] in Hs.
    apply lookup_insert_is_Some in Hs as [<-|[_ Hs]]; [by left|].
    destruct Hs as [g Hs]. apply lookup_singleton_Some in Hs as [<- _].
    by right. }
  destruct (validate_outcome (λ _, false) Examples.input_file)
    as (_ & _ & _ & Hreturns & _).
  - intros s Hs. right. destruct (Hkeys s Hs) as [-> | ->]; reflexivity.
  - apply Hreturns. intros s Hs.
    destruct (Hkeys s Hs) as [-> | ->]; reflexivity.
Defined.

Local Close Scope string_scope.

(** ** Two files: the chunks of the ranks and the result that is kept *)

Section two_files_facts.
Import TwoFiles.

Lemma concat_slices {A} (l : list A) (n m j : nat) :
  concat ((λ i, take n (drop i l)) <$> ((λ k, k * n) <$> seq j m))
  = take (m * n) (drop (j * n) l).
Proof.
  revert j. induction m as [|m IH]; intros j; cbn [seq fmap list_fmap concat].
  - done.
  - rewrite IH. replace (S j * n) with (j * n + n) by lia.
    rewrite <- drop_drop, take_take_drop. reflexivity.
Qed.

Lemma div_up_bounds (len n : nat) :
  0 < n →
  len ≤ (len + n - 1) / n * n ∧ ((len + n - 1) / n - 1) * n < len + n
  ∧ (0 < len → ((len + n - 1) / n - 1) * n < len).
Proof.
  intros Hn.
  pose proof (Nat.div_mod (len + n - 1) n ltac:(lia)) as Hdm.
  pose proof (Nat.mod_upper_bound (len + n - 1) n ltac:(lia)) as Hmod.
  set (q := (len + n - 1) / n) in *. set (r := (len + n - 1) mod n) in *.
  nia.
Qed.

(** [chunks(l, n)] for a positive [n] cuts [l] into
    [ceil(len(l) / n)] consecutive pieces, none empty and none longer
    than [n]. *)
Lemma chunks_spec {A} (l : list A) (n : nat) :
  0 < n →
  concat (chunks l n) = l
  ∧ length (chunks l n) = (length l + n - 1) / n
  ∧ ∀ c, c ∈ chunks l n → 0 < length c ≤ n.
Proof.
  intros Hn. destruct (div_up_bounds (length l) n Hn) as (Hup & _ & Hlow).
  unfold chunks, range_step. split_and!.
  - rewrite concat_slices. change (0 * n) with 0. rewrite drop_0.
    apply take_ge. lia.
  - by rewrite !length_fmap, length_seq.
  - intros c (i & -> & (k & -> & Hk)%list_elem_of_fmap)%list_elem_of_fmap.
    apply elem_of_seq in Hk. rewrite length_take, length_drop.
    assert (0 < length l) as Hpos.
    { destruct (decide (length l = 0)) as [Hz|]; [|lia].
      rewrite Hz, Nat.div_small in Hk by lia. lia. }
    specialize (Hlow Hpos).
    assert (k * n < length l) by nia. lia.
Qed.

(** The ranks and their stations.  Without a common station the
    function ends in the [ValueError] of [range]; otherwise the list is
    cut into [ceil(n / ceil(n / size))] chunks, at most one per rank, that
    together hold every station once, and a rank beyond the last chunk
    ends in an [IndexError]. *)
Theorem rank_stations_cover (usable_stations : list string) (size : nat) :
  1 ≤ size →
  (usable_stations = [] →
   ∀ rank, rank_stations usable_stations size rank = Failed RangeStepZero)
  ∧ (usable_stations ≠ [] →
     ∃ all_chunks,
       concat all_chunks = usable_stations
       ∧ 1 ≤ length all_chunks ≤ size
       ∧ length all_chunks
         = (length usable_stations
            + chunksize (length usable_stations) size - 1)
           / chunksize (length usable_stations) size
       ∧ (∀ c, c ∈ all_chunks → c ≠ [])
       ∧ ∀ rank,
           rank_stations usable_stations size rank
           = match all_chunks !! rank with
             | Some stations => Done stations
             | None => Failed NoChunk
             end).
Proof.
  intros Hsize. split.
  - intros -> rank. unfold rank_stations, chunksize. cbn [length].
    rewrite Nat.div_small by lia. done.
  - intros Hne. set (len := length usable_stations).
    assert (0 < len) as Hlen by (unfold len; destruct usable_stations; cbn; [done|lia]).
    destruct (div_up_bounds len size ltac:(lia)) as (Hup & _ & _).
    assert (0 < chunksize len size) as Hcs by (unfold chunksize; nia).
    destruct (chunks_spec usable_stations (chunksize len size) Hcs)
      as (Hcat & Hnum & Hlens).
    exists (chunks usable_stations (chunksize len size)).
    split; [done|]. fold len in Hnum.
    destruct (div_up_bounds len (chunksize len size) Hcs) as (Hup2 & _ & Hlow2).
    specialize (Hlow2 Hlen). unfold chunksize in Hup. fold (chunksize len size) in Hup.
    split; [rewrite Hnum; nia|]. split; [done|]. split.
    + intros c Hc ->. apply Hlens in Hc. cbn in Hc. lia.
    + intros rank. unfold rank_stations. fold len.
      destruct (Nat.eqb_spec (chunksize len size) 0) as [Hz|_]; [lia|done].
Qed.
Section kept_result.
Context {R : Type}.
Variable attempt : string → option R.

Lemma last_omap_cons (r0 : R) s (l : list string) :
  default r0 (last (omap attempt (s :: l)))
  = default (default r0 (attempt s)) (last (omap attempt l)).
Proof.
  cbn [omap list_omap]. destruct (attempt s) as [r|]; cbn [default]; [|done].
  destruct (omap attempt l) as [|x xs] eqn:Hl; [done|].
  rewrite (last_cons r (x :: xs)). by destruct (last (x :: xs)).
Qed.

(** Once [result] is bound the loop cannot fail, and every station gets
    the result of the last attempt that succeeded before or at it. *)
Lemma loop_bound stations (results : gmap string R) (r0 : R) :
  NoDup stations →
  ∃ results',
    loop attempt stations results (Some r0) = Done results'
    ∧ (∀ s, s ∉ stations → results' !! s = results !! s)
    ∧ ∀ pre s post,
        stations = pre ++ s :: post →
        results' !! s
        = Some (default r0 (last (omap attempt (pre ++ [s])))).
Proof.
  revert results r0.
  induction stations as [|s0 rest IH]; intros results r0 Hnd.
  - exists results. split; [done|]. split; [done|].
    intros pre s post Heq. by destruct pre.
  - apply NoDup_cons in Hnd as [Hfresh Hnd]. cbn [loop].
    set (r1 := default r0 (attempt s0)).
    assert (match attempt s0 with Some r => Some r | None => Some r0 end
            = Some r1) as ->.
    { unfold r1. by destruct (attempt s0). }
    destruct (IH (<[s0 := r1]> results) r1 Hnd) as (results' & -> & Hout & Hin).
    exists results'. split; [done|]. split.
    + intros s Hs. apply not_elem_of_cons in Hs as [Hne Hs].
      rewrite Hout by done. by rewrite lookup_insert_ne.
    + intros pre s post Heq. destruct pre as [|p pre].
      * injection Heq as <- <-. rewrite Hout by done.
        rewrite lookup_insert_eq. cbn [app omap list_omap].
        unfold r1. by destruct (attempt s0).
      * injection Heq as <- ->. rewrite (Hin pre s post eq_refl).
        change ((s0 :: pre) ++ [s]) with (s0 :: (pre ++ [s])).
        by rewrite last_omap_cons.
Qed.

(** The result that is kept.  [results[station] = result] runs after the
    [try] statement whether or not the attempt succeeded: a station whose
    attempt raised is entered with the result of the last station before
    it that succeeded, and the loop ends in an [UnboundLocalError]
    exactly when the attempt for the first station raises.  In a
    dictionary that is returned every station of the chunk has an
    entry. *)
Theorem failed_station_keeps_result (stations : list string) :
  NoDup stations →
  (loop attempt stations ∅ None = Failed ResultUnbound
   ↔ ∃ s rest, stations = s :: rest ∧ attempt s = None)
  ∧ (∀ e, loop attempt stations ∅ None = Failed e → e = ResultUnbound)
  ∧ ∀ results,
      loop attempt stations ∅ None = Done results →
      (∀ s, is_Some (results !! s) ↔ s ∈ stations)
      ∧ ∀ pre s post,
          stations = pre ++ s :: post →
          results !! s = last (omap attempt (pre ++ [s])).
Proof.
  intros Hnd. destruct stations as [|s0 rest].
  - cbn [loop]. split_and!.
    + split; [done|]. by intros (s & rest & [=] & _).
    + done.
    + intros results [= <-]. split.
      * intros s. rewrite lookup_empty. split; [by intros [? ?]|].
        by intros ?%elem_of_nil.
      * intros pre s post Heq. by destruct pre.
  - cbn [loop]. destruct (attempt s0) as [r|] eqn:Hs0.
    + apply NoDup_cons in Hnd as [Hfresh Hnd].
      destruct (loop_bound rest (<[s0 := r]> ∅) r Hnd)
        as (results' & -> & Hout & Hin).
      split_and!.
      * split; [done|]. intros (s & rest' & [= <- <-] & Hn). congruence.
      * done.
      * intros results [= <-]. split.
        -- intros s. destruct (decide (s ∈ rest)) as [Hs|Hs].
           ++ apply list_elem_of_split in Hs as (pre & post & ->).
              rewrite (Hin pre s post eq_refl). split; [|by eexists].
              intros _. apply list_elem_of_further, elem_of_app. right.
              apply list_elem_of_here.
           ++ rewrite Hout by done. destruct (decide (s = s0)) as [->|Hne].
              ** rewrite lookup_insert_eq. split; [|by eexists].
                 intros _. apply list_elem_of_here.
              ** rewrite lookup_insert_ne, lookup_empty by done. split.
                 --- by intros [? ?].
                 --- by intros [?|?]%elem_of_cons.
        -- intros pre s post Heq. destruct pre as [|p pre].
           ++ injection Heq as <- <-. rewrite Hout by done.
              rewrite lookup_insert_eq. cbn [app omap list_omap].
              by rewrite Hs0.
           ++ injection Heq as <- ->. rewrite (Hin pre s post eq_refl).
              change ((s0 :: pre) ++ [s]) with (s0 :: (pre ++ [s])).
              cbn [omap list_omap]. rewrite Hs0.
              destruct (omap attempt (pre ++ [s])) as [|x xs] eqn:Hl;
                [done|].
              rewrite (last_cons r (x :: xs)). by destruct (last (x :: xs)).
    + split_and!.
      * split; [|done]. intros _. by exists s0, rest.
      * by intros e [= <-].
      * done.
Qed.
End kept_result.
End two_files_facts.

Local Open Scope string_scope.

Lemma rank_stations_cover_witness :
  TwoFiles.rank_stations ["A.1"; "A.2"; "A.3"; "A.4"; "A.5"] 4 3
  = TwoFiles.Failed TwoFiles.NoChunk
  ∧ TwoFiles.rank_stations [] 4 0 = TwoFiles.Failed TwoFiles.RangeStepZero.
Proof.
  destruct (rank_stations_cover ["A.1"; "A.2"; "A.3"; "A.4"; "A.5"] 4)
    as [_ Hsome]; [lia|].
  destruct (rank_stations_cover [] 4) as [Hnone _]; [lia|].
  split; [|by apply Hnone].
  destruct Hsome as (all_chunks & _ & _ & Hlen & _ & Hrank); [done|].
  rewrite Hrank.
  rewrite lookup_ge_None_2; [reflexivity|]. rewrite Hlen. vm_compute. lia.
Defined.

Lemma failed_station_keeps_result_witness :
  ∃ results,
    TwoFiles.loop (λ s, if String.eqb s "A.2" then None else Some s)
                  ["A.1"; "A.2"] ∅ None = TwoFiles.Done results
    ∧ results !! "A.2" = Some "A.1".
Proof.
  assert (NoDup ["A.1"; "A.2"]) as Hnd.
  { apply NoDup_cons. split; [|apply NoDup_singleton].
    intros Hin%list_elem_of_singleton. discriminate Hin. }
  assert (TwoFiles.loop (λ s, if String.eqb s "A.2" then None else Some s)
                        ["A.1"; "A.2"] ∅ None
          = TwoFiles.Done {["A.1" := "A.1"; "A.2" := "A.1"]}) as Hrun.
  { vm_compute. reflexivity. }
  destruct (failed_station_keeps_result
              (λ s, if String.eqb s "A.2" then None else Some s)
              ["A.1"; "A.2"] Hnd) as (_ & _ & Hdone).
  destruct (Hdone _ Hrun) as [_ Hkept].
  eexists. split; [exact Hrun|].
  rewrite (Hkept ["A.1"] "A.2" [] eq_refl). reflexivity.
Defined.

Local Close Scope string_scope.

(** ** A process of the local scheduler *)

Section local_run_facts.
Import Store Contents LocalScheduler.
Variable process_function :
  Stream → option (list Z) → Stream * outcome (option Stream).
Variable get_data_for_tag :
  string → string → outcome (Stream * option (list Z)).
Variable tag_map : gmap string string.

Lemma add_waveforms_keeps waveform tag e o m f ds s n d :
  dataset_at s n ds = Some d →
  dataset_at s n (add_waveforms waveform tag e o m f ds).2 = Some d.
Proof.
  intros Hd. unfold add_waveforms.
  destruct (extract_id e); [|done]. destruct (extract_id o); [|done].
  destruct (extract_id m); [|done]. destruct (extract_id f); [|done].
  cbv zeta. destruct (String.eqb _ _); [done|].
  destruct waveform as [t|st|[st|err]]; cbv beta iota; try done.
  all: by apply add_traces_covers.
Qed.

(** [Process.run] takes the items of the queue in order and stops at the
    first poison pill, at the first item it fails on, or when the queue
    is empty; whatever happens, every dataset that was in the output file
    is still there, unchanged. *)
Theorem local_run_outcome q out o rest out' :
  run process_function get_data_for_tag tag_map q out = (o, rest, out') →
  (∀ s n d, dataset_at s n out = Some d → dataset_at s n out' = Some d)
  ∧ ∃ items,
      match o with
      | Returned _ => q = ((PItem <$> items) ++ POISON_PILL :: rest)%list
      | Raised e =>
          (e = Empty ∧ q = PItem <$> items ∧ rest = [])
          ∨ ∃ x, q = ((PItem <$> items) ++ x :: rest)%list ∧ x ≠ POISON_PILL
      end.
Proof.
  revert out. induction q as [|x q IH]; intros out; cbn [run].
  - intros [= <- <- <-]. split; [done|]. exists []. by left.
  - assert (∀ out1 st,
      (∀ s n d, dataset_at s n out = Some d → dataset_at s n out1 = Some d) →
      x = PItem st →
      run process_function get_data_for_tag tag_map q out1 = (o, rest, out') →
      (∀ s n d, dataset_at s n out = Some d → dataset_at s n out' = Some d)
      ∧ ∃ items,
          match o with
          | Returned _ =>
              x :: q = ((PItem <$> items) ++ POISON_PILL :: rest)%list
          | Raised e =>
              (e = Empty ∧ x :: q = PItem <$> items ∧ rest = [])
              ∨ ∃ y, x :: q = ((PItem <$> items) ++ y :: rest)%list
                     ∧ y ≠ POISON_PILL
          end) as Hnext.
    { intros out1 st Hkeep1 -> Hrun.
      destruct (IH out1 Hrun) as (Hkeep & items & Hq). split.
      - intros s n d Hd. by apply Hkeep, Hkeep1.
      - exists (st :: items). destruct o as [[]|e].
        + by rewrite Hq.
        + destruct Hq as [(-> & -> & ->)|(y & -> & Hy)]; [by left|].
          right. by exists y. }
    assert (∀ e out1,
      (∀ s n d, dataset_at s n out = Some d → dataset_at s n out1 = Some d) →
      x ≠ POISON_PILL → (Raised e, q, out1) = (o, rest, out') →
      (∀ s n d, dataset_at s n out = Some d → dataset_at s n out' = Some d)
      ∧ ∃ items,
          match o with
          | Returned _ =>
              x :: q = ((PItem <$> items) ++ POISON_PILL :: rest)%list
          | Raised e =>
              (e = Empty ∧ x :: q = PItem <$> items ∧ rest = [])
              ∨ ∃ y, x :: q = ((PItem <$> items) ++ y :: rest)%list
                     ∧ y ≠ POISON_PILL
          end) as Hstop.
    { intros e out1 Hkeep1 Hx [= <- <- <-]. split; [done|].
      exists []. right. by exists x. }
    destruct x as [|[station tag]| |st result].
    + by apply (Hstop TypeError out).
    + destruct (get_data_for_tag station tag) as [[stream inv]|e];
        [|by apply (Hstop e out)].
      destruct (process_function stream inv).2 as [[[|t output]|]|e].
      * by apply (Hnext out (station, tag)).
      * destruct (tag_map !! tag) as [out_tag|];
          [|by apply (Hstop KeyError out)].
        pose proof (λ s n d, add_waveforms_keeps (WStream (t :: output))
                      out_tag IdNone IdNone IdNone IdNone out s n d) as Hk.
        destruct (add_waveforms _ _ _ _ _ _ out) as [[[]|e] out1];
          cbn [snd] in Hk.
        -- by apply (Hnext out1 (station, tag)).
        -- by apply (Hstop e out1).
      * by apply (Hnext out (station, tag)).
      * by apply (Hstop e out).
    + intros [= <- <- <-]. split; [done|]. by exists [].
    + by apply (Hstop TypeError out).
Qed.
End local_run_facts.

Local Open Scope string_scope.

Lemma local_run_outcome_witness :
  ∃ items : list station_tag,
    [POISON_PILL; PItem ("BW.A", "raw")]
    = ((PItem <$> items) ++ [POISON_PILL; PItem ("BW.A", "raw")])%list.
Proof.
  destruct (local_run_outcome Examples.raising_function Examples.input_data
              Examples.tag_map [POISON_PILL; PItem ("BW.A", "raw")]
              (Examples.fresh false) (Returned tt) [PItem ("BW.A", "raw")]
              (Examples.fresh false)) as [_ [items Hq]];
    [vm_compute; reflexivity|].
  exists items. exact Hq.
Defined.

Local Close Scope string_scope.

(** ** The worker asks for one item at a time *)

Section worker_requests.
Import Store Worker WorkerRun WorkerProtocol.
Variable process_function :
  Stream → option (list Z) → Stream * outcome (option Stream).
Variable get_data_for_tag :
  string → string → outcome (Stream * option (list Z)).
Variable tag_map : gmap string string.
Variable buffer_full : gmap station_tag Stream → bool.
Variable str_stream : Stream → string.

Lemma take_msg_count tag tag' (l : list (msg_tag * payload)) :
  length (filter (λ m, m.1 = tag') (take_msg tag l).2)
  + (if decide (tag' = tag)
     then match (take_msg tag l).1 with Some _ => 1 | None => 0 end
     else 0)
  = length (filter (λ m, m.1 = tag') l).
Proof.
  induction l as [|[t p] l IH]; cbn [take_msg].
  - cbn. by destruct (decide _).
  - destruct (decide (t = tag)) as [->|Ht]; cbn [fst snd].
    + destruct (decide (tag' = tag)) as [->|Hne].
      * rewrite filter_cons_True by done. cbn. lia.
      * rewrite filter_cons_False by (cbn; congruence). lia.
    + destruct (take_msg tag l) as [r l'] eqn:Htake. cbn [fst snd] in *.
      destruct (decide (t = tag')) as [->|Hne].
      * rewrite !filter_cons_True by done. cbn [length]. lia.
      * rewrite !filter_cons_False by done. lia.
Qed.

Lemma flush_items_requests items w :
  let w' := (flush_items str_stream items w).2 in
  sent_with WORKER_REQUESTS_ITEM w' = sent_with WORKER_REQUESTS_ITEM w
  ∧ inbox w' = inbox w ∧ worker_state w' = worker_state w.
Proof.
  revert w. induction items as [|[key value] rest IH]; intros w; [done|].
  cbn [flush_items].
  destruct (write_stream value (output_dataset w)) as [[[]|e] ds]; [|done].
  destruct (IH (_send_mpi (PDone key (str_stream value)) WORKER_DONE_WITH_ITEM
                          (set_output ds w))) as (Hs & Hi & Hf).
  cbv zeta. rewrite Hs, Hi, Hf. split; [|done].
  unfold sent_with. cbn. rewrite filter_app, length_app.
  rewrite filter_cons_False by done. cbn. lia.
Qed.

Lemma sync_metadata_inbox lo hi w :
  inbox (_sync_metadata tag_map lo hi w).2 = inbox w.
Proof.
  unfold _sync_metadata.
  destruct (describe_buffer _ _ _) as [[[items sendobj]|e] ds]; [|done].
  by destruct (write_collective _ _) as [[[]|e] ds'].
Qed.

Lemma forced_write_requests lo hi w :
  let w' := (forced_write tag_map str_stream lo hi w).2 in
  sent_with WORKER_REQUESTS_ITEM w' = sent_with WORKER_REQUESTS_ITEM w
  ∧ inbox w' = inbox w
  ∧ waiting_for_item (worker_state w') = waiting_for_item (worker_state w).
Proof.
  unfold forced_write.
  pose proof (sync_metadata_keeps tag_map lo hi w) as [Ho Hf].
  pose proof (sync_metadata_inbox lo hi w) as Hi. cbv zeta in Ho, Hf.
  destruct (_sync_metadata tag_map lo hi w) as [[[]|e] w1]; cbn [snd] in *.
  - pose proof (flush_items_requests (map_to_list (stream_buffer w1)) w1)
      as (Hs' & Hi' & Hf'). cbv zeta in Hs', Hi', Hf'.
    destruct (flush_items _ _ _) as [[[]|e] w2]; cbn [snd] in *.
    + cbv zeta. cbn. rewrite Hi', Hi, Hf', Hf. split; [|done].
      change (sent_with WORKER_REQUESTS_ITEM w2
              = sent_with WORKER_REQUESTS_ITEM w).
      rewrite Hs'. unfold sent_with. by rewrite Ho.
    + cbv zeta. rewrite Hi', Hi, Hf', Hf, Hs'. split; [|done].
      unfold sent_with. by rewrite Ho.
  - cbv zeta. rewrite Hi, Hf. split; [|done]. unfold sent_with. by rewrite Ho.
Qed.

Lemma process_item_requests st w :
  let w' := (process_item process_function get_data_for_tag buffer_full st w).2 in
  sent_with WORKER_REQUESTS_ITEM w' = sent_with WORKER_REQUESTS_ITEM w
  ∧ inbox w' = inbox w
  ∧ waiting_for_item (worker_state w') = waiting_for_item (worker_state w).
Proof.
  unfold process_item.
  destruct (get_data_for_tag st.1 st.2) as [[stream inv]|e]; [|done].
  destruct (process_function stream inv) as [stream' [r|e]];
    destruct (buffer_full _); cbv zeta; cbn [snd]; (split; [|done]);
    unfold sent_with; cbn;
    rewrite ?filter_app, ?length_app, ?filter_cons_False by done; cbn; lia.
Qed.

Lemma request_or_receive_balanced delivered w :
  requests_balanced delivered w →
  requests_balanced delivered
    (request_or_receive process_function get_data_for_tag buffer_full w).2.
Proof.
  unfold request_or_receive, requests_balanced. intros Hw.
  destruct (worker_state w) as [pill write item] eqn:Hf.
  cbn [waiting_for_write poison_pill_received waiting_for_item] in *.
  destruct write; [cbn [snd]; by rewrite Hf|].
  destruct pill; [cbn [snd]; by rewrite Hf|].
  destruct item; cbn [negb snd].
  2:{ unfold sent_with, waiting_with in *. cbn.
      rewrite filter_app, length_app, filter_cons_True by done. cbn. lia. }
  unfold _get_msg.
  pose proof (take_msg_count MASTER_SENDS_ITEM MASTER_SENDS_ITEM (inbox w))
    as Htake. rewrite decide_True in Htake by done.
  destruct (take_msg MASTER_SENDS_ITEM (inbox w)) as [[msg|] i];
    cbn [fst snd] in *.
  2:{ unfold sent_with, waiting_with in *. cbn. rewrite Hf. cbn. lia. }
  assert (sent_with WORKER_REQUESTS_ITEM w + length (filter (λ m, m.1 = MASTER_SENDS_ITEM) i)
          = delivered) as Hbal.
  { unfold waiting_with in Hw. lia. }
  clear Hw Htake.
  destruct msg as [|st| |st result].
  - unfold sent_with, waiting_with in *. cbn. lia.
  - pose proof (process_item_requests st
      (set_flags (mkFlags false false false) (set_inbox i w)))
      as (Hs & Hi & Hflag). cbv zeta in Hs, Hi, Hflag.
    unfold waiting_with. cbv zeta. rewrite Hs, Hi, Hflag. cbn.
    unfold sent_with in *. cbn. lia.
  - destruct (decide (stream_buffer _ = ∅)); unfold sent_with, waiting_with in *;
      cbn; rewrite ?filter_app, ?length_app, ?filter_cons_False by done;
      cbn; lia.
  - unfold sent_with, waiting_with in *. cbn. lia.
Qed.

Lemma loop_body_balanced delivered lo hi w :
  requests_balanced delivered w →
  requests_balanced delivered
    (loop_body process_function get_data_for_tag tag_map buffer_full
               str_stream lo hi w).2.
Proof.
  intros Hw. unfold loop_body, _get_msg.
  pose proof (take_msg_count MASTER_FORCES_WRITE MASTER_SENDS_ITEM (inbox w))
    as Htake. rewrite decide_False in Htake by done.
  assert (requests_balanced delivered
            (set_inbox (take_msg MASTER_FORCES_WRITE (inbox w)).2 w)) as Hw1.
  { unfold requests_balanced, waiting_with, sent_with in *. cbn. lia. }
  destruct (take_msg MASTER_FORCES_WRITE (inbox w)) as [[msg|] i];
    cbn [snd] in Hw1.
  - pose proof (forced_write_requests lo hi (set_inbox i w))
      as (Hs & Hi & Hflag). cbv zeta in Hs, Hi, Hflag.
    assert (requests_balanced delivered
              (forced_write tag_map str_stream lo hi (set_inbox i w)).2) as Hfw.
    { unfold requests_balanced, waiting_with in *. by rewrite Hs, Hi, Hflag. }
    destruct (forced_write _ _ _ _ _) as [[[]|e] w2]; [|done].
    by apply request_or_receive_balanced.
  - by apply request_or_receive_balanced.
Qed.

(** Over any run of the worker that ends without an exception, the
    number of [WORKER_REQUESTS_ITEM] messages it has sent is the number
    of [MASTER_SENDS_ITEM] messages it has taken from its inbox, plus one
    while [waiting_for_item] is set; and however the run ends, the
    requests exceed the items that arrived by one at most: the worker
    never has more than one request unanswered. *)
Theorem worker_requests_one_item run ds :
  let end_of_run := passes process_function get_data_for_tag tag_map
                           buffer_full str_stream run (start ds) in
  let w' := end_of_run.2 in
  (end_of_run.1 = Returned tt →
   sent_with WORKER_REQUESTS_ITEM w' + waiting_with MASTER_SENDS_ITEM w'
   = arrived_with MASTER_SENDS_ITEM run
     + (if waiting_for_item (worker_state w') then 1 else 0))
  ∧ sent_with WORKER_REQUESTS_ITEM w' ≤ S (arrived_with MASTER_SENDS_ITEM run).
Proof.
  cbv zeta.
  assert (∀ run w delivered,
    requests_balanced delivered w →
    ∃ delivered',
      delivered' ≤ delivered + arrived_with MASTER_SENDS_ITEM run
      ∧ requests_balanced delivered'
          (passes process_function get_data_for_tag tag_map buffer_full
                  str_stream run w).2
      ∧ ((passes process_function get_data_for_tag tag_map buffer_full
                 str_stream run w).1 = Returned tt →
         delivered' = delivered + arrived_with MASTER_SENDS_ITEM run))
    as Hrun.
  { clear run. induction run as [|here rest IH]; intros w delivered Hw.
    - exists delivered. unfold arrived_with. cbn. split; [lia|].
      split; [done|]. intros _. lia.
    - cbn [passes].
      set (n := length (filter (λ m, m.1 = MASTER_SENDS_ITEM) (arriving here))).
      assert (requests_balanced (delivered + n)
                (set_inbox (inbox w ++ arriving here) w)) as Hw1.
      { unfold requests_balanced, waiting_with, sent_with in *. cbn.
        rewrite filter_app, length_app. fold n. lia. }
      apply (loop_body_balanced _ (lower here) (higher here)) in Hw1.
      assert (arrived_with MASTER_SENDS_ITEM (here :: rest)
              = n + arrived_with MASTER_SENDS_ITEM rest) as ->.
      { unfold arrived_with. cbn [mbind list_bind].
        by rewrite filter_app, length_app. }
      destruct (loop_body _ _ _ _ _ _ _ _) as [[[]|e] w1]; cbn [snd] in *.
      + destruct (IH w1 (delivered + n) Hw1) as (d' & Hle & Hb & Heq).
        exists d'. split; [lia|]. split; [done|].
        intros Hret. rewrite (Heq Hret). lia.
      + exists (delivered + n). split; [lia|]. split; [done|]. done. }
  destruct (Hrun run (start ds) 0) as (d' & Hle & Hb & Heq); [done|].
  unfold requests_balanced in Hb. split.
  - intros Hret. rewrite (Heq Hret) in Hb. exact Hb.
  - destruct (waiting_for_item _); lia.
Qed.
End worker_requests.

(** ** Station information of a whole inventory *)

Section station_information.
Import Store Contents Reading Stations.
Variable Inventory : Type.
Variable read_inventory : list pyfloat → outcome Inventory.
Variable write_inventory : Inventory → list pyfloat.
Variable isolate_and_merge_station :
  Inventory → string → string → outcome Inventory.
Variable merge_inventories :
  Inventory → Inventory → string → string → outcome Inventory.

Lemma add_inventory_object_datasets inv network_id station_id ds s n :
  dataset_at s n
    (_add_inventory_object Inventory write_inventory inv network_id
                           station_id ds)
  = if decide (s = (network_id ++ "." ++ station_id)%string
               ∧ n = "StationXML"%string)
    then Some (match dataset_at s n ds with
               | Some old =>
                   mkDataset (mkParams (cp_name (ds_params old))
                                (length (write_inventory inv))
                                (cp_dtype (ds_params old))
                                (cp_compression (ds_params old))
                                (cp_compression_opts (ds_params old))
                                (cp_fletcher32 (ds_params old)))
                             (ds_attrs old) (write_inventory inv)
               | None =>
                   mkDataset (mkParams "StationXML"
                                (length (write_inventory inv)) "int8" None
                                None true) ∅ (write_inventory inv)
               end)
    else dataset_at s n ds.
Proof.
  unfold _add_inventory_object.
  set (name := (network_id ++ "." ++ station_id)%string).
  set (group := default ∅ (waveform_group ds !! name)).
  assert (∀ n', dataset_at name n' ds = group !! n') as Hold.
  { intros n'. unfold dataset_at, group.
    by destruct (waveform_group ds !! name). }
  rewrite dataset_at_insert.
  destruct (decide (s = name)) as [->|Hs].
  - destruct (decide (n = "StationXML"%string)) as [->|Hn].
    + rewrite decide_True by done. rewrite Hold.
      by destruct (group !! "StationXML"%string).
    + rewrite decide_False by (by intros [_ ?]). by rewrite Hold.
  - by rewrite decide_False by (by intros [? _]).
Qed.

Lemma add_stations_touches inv (l : list (string * string)) ds :
  let r := add_stations Inventory read_inventory write_inventory
             isolate_and_merge_station merge_inventories inv l ds in
  (∀ s n, n ≠ "StationXML"%string
          ∨ s ∉ ((λ c, c.1 ++ "." ++ c.2)%string <$> l) →
          dataset_at s n r.2 = dataset_at s n ds)
  ∧ (∀ s, is_Some (dataset_at s "StationXML" ds) →
          is_Some (dataset_at s "StationXML" r.2))
  ∧ (r.1 = Returned tt →
     ∀ c, c ∈ l → is_Some (dataset_at (c.1 ++ "." ++ c.2) "StationXML" r.2))
  ∧ warnings r.2 = warnings ds.
Proof.
  cbv zeta. revert ds.
  induction l as [|[network_id station_id] rest IH]; intros ds.
  - cbn. split_and!; try done. intros _ c Hc. by apply elem_of_nil in Hc.
  - cbn [add_stations].
    destruct (_get_station _ _ _ ds) as [existing|e]; [|by split_and!].
    destruct (match existing with
              | Some existing =>
                  merge_inventories existing inv network_id station_id
              | None => isolate_and_merge_station inv network_id station_id
              end) as [inv'|e]; [|by split_and!].
    set (ds1 := _add_inventory_object Inventory write_inventory inv'
                  network_id station_id ds).
    destruct (IH ds1) as (Hat & Hkeep & Hall & Hw).
    assert (∀ s, is_Some (dataset_at s "StationXML" ds) →
                 is_Some (dataset_at s "StationXML" ds1)) as Hkeep1.
    { intros s Hs. unfold ds1. rewrite add_inventory_object_datasets.
      by destruct (decide _). }
    split_and!.
    + intros s n Hsn. rewrite Hat.
      * unfold ds1. rewrite add_inventory_object_datasets.
        rewrite decide_False; [done|]. intros [-> ->].
        destruct Hsn as [Hn|Hs]; [done|]. apply Hs.
        rewrite fmap_cons. apply list_elem_of_here.
      * destruct Hsn as [Hn|Hs]; [by left|right].
        intros Hin. apply Hs. rewrite fmap_cons.
        by apply list_elem_of_further.
    + intros s Hs. by apply Hkeep, Hkeep1.
    + intros Hret c [->|Hc]%elem_of_cons; [|by apply Hall].
      cbn [fst snd]. apply Hkeep. unfold ds1.
      rewrite add_inventory_object_datasets, decide_True by done.
      by eexists.
    + by rewrite Hw.
Qed.

(** [add_stationxml] writes station information only: no dataset under
    another name than [StationXML] is created, changed or removed, the
    station information of a station that the inventory does not list
    stays as it is, station information that was there is not removed,
    no warning is issued, and when the call returns every station listed
    has a [StationXML] dataset. *)
Theorem add_stationxml_touches stationxml codes ds :
  let end_of_call :=
    add_stationxml Inventory read_inventory write_inventory
      isolate_and_merge_station merge_inventories stationxml codes ds in
  let ds' := end_of_call.2 in
  (∀ s n, n ≠ "StationXML"%string → dataset_at s n ds' = dataset_at s n ds)
  ∧ (∀ inv s, stationxml = Returned inv →
       (∀ network_id station_id, (network_id, station_id) ∈ codes inv →
          s ≠ (network_id ++ "." ++ station_id)%string) →
       dataset_at s "StationXML" ds' = dataset_at s "StationXML" ds)
  ∧ (∀ s, is_Some (dataset_at s "StationXML" ds) →
          is_Some (dataset_at s "StationXML" ds'))
  ∧ (∀ inv network_id station_id,
       stationxml = Returned inv → end_of_call.1 = Returned tt →
       (network_id, station_id) ∈ codes inv →
       is_Some (dataset_at (network_id ++ "." ++ station_id) "StationXML" ds'))
  ∧ warnings ds' = warnings ds.
Proof.
  cbv zeta. unfold add_stationxml.
  destruct stationxml as [inv|e]; cbn [fst snd]; [|by split_and!].
  destruct (add_stations_touches inv (codes inv) ds) as (Hat & Hkeep & Hall & Hw).
  split_and!.
  - intros s n Hn. apply Hat. by left.
  - intros inv0 s [= <-] Hs. apply Hat. right.
    intros ([network_id station_id] & -> & Hin)%list_elem_of_fmap.
    by apply (Hs network_id station_id).
  - done.
  - intros inv0 network_id station_id [= <-] Hret Hin.
    by apply (Hall Hret (network_id, station_id)).
  - done.
Qed.
End station_information.
